(** * Wuthering Waves QR login scanner: the scan pipeline and its properties

    A shallow embedding of the Python sources

    - [utils/ai_qr_scanner.py], [utils/qr_scanner.py]  (decode, candidates)
    - [ui/scan_window.py], [utils/live_stream_scanner.py]  (ticket tracking)
    - [utils/smart_roi_detector.py]  (region prediction)
    - [utils/kuro_api.py]  (remote calls and their timeout ladders)
    - [ui/main_window.py]  (the two-step login, verification resubmission)
    - [utils/image_buffer_pool.py]  (buffer reuse)

    Conventions.  A Python [str] is a [string], one [ascii] per character.
    A Python [float] is a binary64 [float] of the kernel, so that arithmetic
    rounds as CPython does.  A Python [int] is a [Z].  A call that may raise
    returns a [result]; only exceptions deriving from [Exception] are
    modelled, since those are the ones [except Exception] handles.  Calls
    into PIL, OpenCV, pyzbar, requests and Qt are parameters of the
    sections in which they are used.  Printing, log lines and the
    performance monitor (pure bookkeeping, it neither raises nor feeds back
    into control flow) are left out. *)

From Stdlib Require Import ZArith List String Ascii Bool Lia Permutation.
From Stdlib Require Import Floats.
From stdpp Require Import base gmap strings list.
Import ListNotations.

Set Warnings "-inexact-float,-register-all".
Local Open Scope string_scope.
Local Open Scope list_scope.
Local Open Scope Z_scope.

(* ===================================================================== *)
(** ** Python values: exceptions, strings, floats *)
(* ===================================================================== *)

(** An exception object, as far as the handlers of this program look at it:
    whether it is an instance of [requests.exceptions.Timeout], and
    [str(e)]. *)
Record exn : Type := mk_exn { exc_is_timeout : bool; exc_str : string }.

Definition AttributeError := mk_exn false "AttributeError".
Definition TypeError := mk_exn false "TypeError".
Definition ZeroDivisionError := mk_exn false "division by zero".

Inductive result (A : Type) : Type :=
| Ret (a : A)
| Exc (e : exn).
Arguments Ret {A} a.
Arguments Exc {A} e.

(** Computations over a store [S] that may raise.  The store survives an
    exception: what was done before the [raise] stays done. *)
Definition M (S A : Type) : Type := S -> result A * S.

Definition ret {S A} (a : A) : M S A := fun s => (Ret a, s).
Definition raise {S A} (e : exn) : M S A := fun s => (Exc e, s).
Definition bind {S A B} (m : M S A) (k : A -> M S B) : M S B :=
  fun s => match m s with
           | (Ret a, s') => k a s'
           | (Exc e, s') => (Exc e, s')
           end.
(** [try: body except Exception as e: handler] *)
Definition try_except {S A} (body : M S A) (handler : exn -> M S A) : M S A :=
  fun s => match body s with
           | (Ret a, s') => (Ret a, s')
           | (Exc e, s') => handler e s'
           end.
Definition lift {S A} (r : result A) : M S A := fun s => (r, s).
Definition get {S} : M S S := fun s => (Ret s, s).
Definition modify {S} (f : S -> S) : M S unit := fun s => (Ret tt, f s).

Declare Scope py_scope.
Delimit Scope py_scope with py.
Notation "'let*' x ':=' c1 'in' c2" := (bind c1 (fun x => c2))
  (at level 10, x name, c1 at level 100, c2 at level 200) : py_scope.
Local Open Scope py_scope.

(** The same two combinators without a store. *)
Definition rbind {A B} (r : result A) (k : A -> result B) : result B :=
  match r with Ret a => k a | Exc e => Exc e end.
Definition rtry {A} (body : result A) (handler : exn -> result A) : result A :=
  match body with Ret a => Ret a | Exc e => handler e end.

Module PyStr.

(** [needle in hay] on two [str]. *)
Fixpoint str_in (needle hay : string) : bool :=
  if String.prefix needle hay then true
  else match hay with
       | EmptyString => false
       | String _ hay' => str_in needle hay'
       end.

(** [s[-n:]] for a positive [n]: the last [n] characters, all of [s] when it
    is shorter. *)
Definition last_chars (n : nat) (s : string) : string :=
  String.substring (String.length s - n) n s.

(** [bool(s)]: a [str] is true unless empty. *)
Definition truthy (s : string) : bool :=
  match s with EmptyString => false | _ => true end.

(** [if r:] on an [Optional[str]]. *)
Definition truthy_opt (r : option string) : bool :=
  match r with Some s => truthy s | None => false end.

End PyStr.

Module PyFloat.

(** [float(z)]; exact for [|z| < 2^53], which covers pixel coordinates (Qt
    geometry is 32-bit) and sums of a few of them.  The conversion goes
    through the 63-bit machine integers, so the embedding is meant for
    [|z| < 2^62]. *)
Definition of_Z (z : Z) : float :=
  if z <? 0 then PrimFloat.opp (PrimFloat.of_uint63 (Uint63.of_Z (- z)))
  else PrimFloat.of_uint63 (Uint63.of_Z z).

(** [int(f)]: truncation toward zero.  Python raises on NaN and on the
    infinities; they do not arise from the finite quotients and products of
    converted integers to which the program applies [int], and are sent to
    [0] here. *)
Definition to_Z (f : float) : Z :=
  match Prim2SF f with
  | S754_finite s m e =>
      let v := if 0 <=? e then Z.pos m * 2 ^ e else Z.pos m / 2 ^ (- e) in
      if s then - v else v
  | _ => 0
  end.

(** [a / b] on two [int]: true division, [ZeroDivisionError] on [b = 0].
    CPython rounds the exact quotient once; for [|a|, |b| < 2^53] both
    conversions are exact and the float division below does the same. *)
Definition truediv (a b : Z) : result float :=
  if b =? 0 then Exc ZeroDivisionError
  else Ret (PrimFloat.div (of_Z a) (of_Z b)).

(** [min(a, b)] on floats: [b] when [b < a], else [a]. *)
Definition fmin (a b : float) : float :=
  if PrimFloat.ltb b a then b else a.

End PyFloat.

(* ===================================================================== *)
(** ** Decode engine: [utils/ai_qr_scanner.py] and [utils/qr_scanner.py] *)
(* ===================================================================== *)

Module Scanner.

(** The images [enhance_image_ai] and [_enhance_image_basic] can add after
    the original. *)
Inductive variant : Type :=
| Binary | SuperRes | Contrast | Sharpness | Combined.

(** What one call of [scan_region] does besides returning: the futures it
    submits to [parallel_executor], its calls of [enhance_image_ai], the
    enhanced images computed, its own calls of [try_decode_qr] (on the
    calling thread, not through the executor), and what it reports to the
    region predictor. *)
Inductive event : Type :=
| EvSubmit (method_name : string)
| EvEnhance
| EvComputed (v : variant)
| EvDecode (idx : nat)
| EvRoiRecord (x y width height : Z).

(** PIL, pyzbar and cv2 as the scanner calls them, and the fields of
    [AIQRScanner] that [__init__] sets once. *)
Class Libraries : Type := {
  Image : Type;
  (* PIL *)
  img_width : Image -> Z;
  img_height : Image -> Z;
  resize : Image -> Z -> Z -> result Image;
  ImageGrab_grab : Z -> Z -> Z -> Z -> result Image;
  enhance_contrast : Image -> float -> result Image;
  enhance_sharpness : Image -> float -> result Image;
  (* pyzbar: the decoded objects, each with the outcome of
     obj.data.decode("utf-8") *)
  decode : Image -> result (list (result string));
  (* module flags *)
  OPENCV_AVAILABLE : bool;
  ROI_DETECTOR_AVAILABLE : bool;
  (* fields *)
  scale_factor : float;
  (* self.wechat_detector; conversion to BGR and detectAndDecode as one
     call giving res *)
  wechat_detector : option (Image -> result (list string));
  dxgi_screenshot : option (Z -> Z -> Z -> Z -> result (option Image));
  fast_screenshot : option (Z -> Z -> Z -> Z -> result (option Image));
  sr_net_loaded : bool;               (* self.sr_net is not None *)
  ai_enabled : bool;
  (* cv2 *)
  cvtColor_bgr : Image -> result Image;
  cvtColor_gray : Image -> result Image;
  fast_rgb_to_gray_simd : Image -> result Image;
  adaptiveThreshold : Image -> result Image;
  sr_forward : Image -> result Image;
  (* as_completed(futures): the order in which the submitted futures
     complete, as positions in the submitted list; the scheduler's choice *)
  as_completed : list (string * Image) -> list nat
}.

(** The marker test both scanners apply to a decoded string. *)
Definition is_wuwa_qr (qr_data : string) : bool :=
  PyStr.str_in "G152#KURO" qr_data || PyStr.str_in "KURO" qr_data.

Definition log (e : event) : M (list event) unit :=
  modify (fun tr => tr ++ [e]).

Section Definitions.
Context `{Libraries}.

(** *** [AIQRScanner.try_decode_qr] *)

Definition wechat_pass (img : Image) : result (option string) :=
  match wechat_detector with
  | Some detectAndDecode =>
      rtry (rbind (detectAndDecode img) (fun res =>
              match res with
              | qr_data :: _ =>
                  if is_wuwa_qr qr_data then Ret (Some qr_data) else Ret None
              | [] => Ret None
              end))
           (fun _ => Ret None)
  | None => Ret None
  end.

Definition pyzbar_pass (img : Image) : result (option string) :=
  rtry (rbind (decode img) (fun decoded_objects =>
          match decoded_objects with
          | obj :: _ =>
              rbind obj (fun qr_data =>
                if is_wuwa_qr qr_data then Ret (Some qr_data) else Ret None)
          | [] => Ret None
          end))
       (fun _ => Ret None).

Definition try_decode_qr (img : Image) : result (option string) :=
  rbind (wechat_pass img) (fun r =>
    match r with
    | Some qr_data => Ret (Some qr_data)
    | None => pyzbar_pass img
    end).

(** *** [QRScanner.try_decode_qr]: pyzbar only. *)
Definition try_decode_qr_zbar (img : Image) : result (option string) :=
  pyzbar_pass img.

(** *** [AIQRScanner.try_decode_parallel] *)

(** The loop over [as_completed(futures)]: [future.result()] of each
    completed future in turn; the first true one wins. *)
Fixpoint first_completed (images : list (string * Image)) (order : list nat)
  : result (option (string * string)) :=
  match order with
  | [] => Ret None
  | i :: order' =>
      match nth_error images i with
      | Some (method_name, img) =>
          rbind (try_decode_qr img) (fun r =>
            match r with
            | Some qr =>
                if PyStr.truthy qr then Ret (Some (qr, method_name))
                else first_completed images order'
            | None => first_completed images order'
            end)
      | None => first_completed images order'
      end
  end.

Fixpoint submit_all (images : list (string * Image)) : M (list event) unit :=
  match images with
  | [] => ret tt
  | (method_name, _) :: rest =>
      let* _ := log (EvSubmit method_name) in submit_all rest
  end.

Definition try_decode_parallel (images : list (string * Image))
  : M (list event) (option (string * string)) :=
  let* _ := submit_all images in
  lift (first_completed images (as_completed images)).

(** *** [AIQRScanner._enhance_image_basic]

    One [try] around three appends to [enhanced_images]; on an exception
    the list as it stands is returned. *)
Definition _enhance_image_basic (img : Image) : M (list event) (list Image) :=
  match enhance_contrast img 2.0%float with
  | Exc _ => ret [img]
  | Ret c =>
      let* _ := log (EvComputed Contrast) in
      match enhance_sharpness img 2.0%float with
      | Exc _ => ret [img; c]
      | Ret s =>
          let* _ := log (EvComputed Sharpness) in
          match rbind (enhance_contrast img 1.8%float)
                      (fun temp => enhance_sharpness temp 1.8%float) with
          | Exc _ => ret [img; c; s]
          | Ret temp =>
              let* _ := log (EvComputed Combined) in
              ret [img; c; s; temp]
          end
      end
  end.

(** *** [AIQRScanner.apply_super_resolution] *)
Definition apply_super_resolution (img : Image) : Image :=
  if negb ai_enabled || negb sr_net_loaded then img
  else match sr_forward img with Ret output => output | Exc _ => img end.

(** *** [AIQRScanner.enhance_image_ai] *)
Definition enhance_image_ai (img : Image) : M (list event) (list Image) :=
  let* _ := log EvEnhance in
  if negb OPENCV_AVAILABLE then _enhance_image_basic img
  else
    try_except
      (let* img_cv := lift (cvtColor_bgr img) in
       let* gray := lift (fast_rgb_to_gray_simd img) in
       let* binary := lift (adaptiveThreshold gray) in
       let* _ := log (EvComputed Binary) in
       if sr_net_loaded then
         let* sr_gray := lift (cvtColor_gray (apply_super_resolution img_cv)) in
         let* _ := log (EvComputed SuperRes) in
         ret [img; binary; sr_gray]
       else ret [img; binary])
      (fun _ => _enhance_image_basic img).

(** *** [AIQRScanner.scan_region] *)

Definition grab_pil (x y width height : Z) : result (option Image) :=
  let x_scaled := PyFloat.to_Z (PyFloat.of_Z x * scale_factor) in
  let y_scaled := PyFloat.to_Z (PyFloat.of_Z y * scale_factor) in
  let width_scaled := PyFloat.to_Z (PyFloat.of_Z width * scale_factor) in
  let height_scaled := PyFloat.to_Z (PyFloat.of_Z height * scale_factor) in
  rbind (ImageGrab_grab x_scaled y_scaled
           (x_scaled + width_scaled) (y_scaled + height_scaled))
        (fun img => Ret (Some img)).

Definition grab_fast_or_pil (x y width height : Z) : result (option Image) :=
  match fast_screenshot with
  | Some grab_region =>
      rtry (grab_region x y width height) (fun _ => grab_pil x y width height)
  | None => grab_pil x y width height
  end.

(** The screenshot stage: DXGI, then BitBlt, then PIL.  [None] is Python's
    [None], which only the DXGI branch checks for. *)
Definition capture (x y width height : Z) : result (option Image) :=
  match dxgi_screenshot with
  | Some grab_region =>
      rtry (rbind (grab_region x y width height) (fun img =>
              match img with
              | None => Exc (mk_exn false "DXGI returned None")
              | Some _ => Ret img
              end))
           (fun _ => grab_fast_or_pil x y width height)
  | None => grab_fast_or_pil x y width height
  end.

(** [img_1280] and [img_40]. *)
Definition resized (img : Image) : result (Image * Image) :=
  rbind (PyFloat.truediv 1280 (img_width img)) (fun width_ratio =>
  rbind (PyFloat.truediv 720 (img_height img)) (fun height_ratio =>
    let scale_ratio := PyFloat.fmin width_ratio height_ratio in
    let new_width := PyFloat.to_Z (PyFloat.of_Z (img_width img) * scale_ratio) in
    let new_height := PyFloat.to_Z (PyFloat.of_Z (img_height img) * scale_ratio) in
    rbind (resize img new_width new_height) (fun img_1280 =>
    rbind (resize img (PyFloat.to_Z (PyFloat.of_Z (img_width img) * 0.4))
                      (PyFloat.to_Z (PyFloat.of_Z (img_height img) * 0.4)))
          (fun img_40 => Ret (img_1280, img_40))))).

Definition candidates (img img_1280 img_40 : Image) : list (string * Image) :=
  [("original", img); ("1280x720", img_1280); ("40%", img_40)].

Definition record_roi (x y width height : Z) : M (list event) unit :=
  if ROI_DETECTOR_AVAILABLE then log (EvRoiRecord x y width height) else ret tt.

(** [for idx, enhanced_img in enumerate(enhanced_images[1:], 1)] *)
Fixpoint decode_enhanced (x y width height : Z) (idx : nat)
  (enhanced : list Image) : M (list event) (option string) :=
  match enhanced with
  | [] => ret None
  | enhanced_img :: rest =>
      let* _ := log (EvDecode idx) in
      let* r := lift (try_decode_qr enhanced_img) in
      if PyStr.truthy_opt r then
        let* _ := record_roi x y width height in ret r
      else decode_enhanced x y width height (S idx) rest
  end.

Definition scan_region (x y width height : Z) : M (list event) (option string) :=
  try_except
    (let* grabbed := lift (capture x y width height) in
     let* img := lift (match grabbed with
                       | Some img => Ret img
                       | None => Exc AttributeError
                       end) in
     let* rs := lift (resized img) in
     let* parallel_result :=
       try_decode_parallel (candidates img (fst rs) (snd rs)) in
     match parallel_result with
     | Some (qr_code, _) =>
         let* _ := record_roi x y width height in ret (Some qr_code)
     | None =>
         let* enhanced_images := enhance_image_ai (fst rs) in
         decode_enhanced x y width height 1 (tail enhanced_images)
     end)
    (fun _ => ret None).

End Definitions.

End Scanner.

(* ===================================================================== *)
(** ** Ticket tracking: [ui/scan_window.py] *)
(* ===================================================================== *)

Module ScanWindow.

(** The fields of [ScanWindow] that [scan_qr_code] reads and writes, and
    whether [scan_timer] is running. *)
Record state : Type := mk_state {
  processing_qr : bool;
  last_ticket : string;
  last_qr_code : option string;
  timer_active : bool
}.

(** After [__init__]. *)
Definition initial : state :=
  {| processing_qr := false; last_ticket := ""; last_qr_code := None;
     timer_active := false |}.

Definition start_scanning (s : state) : state :=
  {| processing_qr := false; last_ticket := ""; last_qr_code := None;
     timer_active := true |}.

Definition stop_scanning (s : state) : state :=
  {| processing_qr := processing_qr s; last_ticket := last_ticket s;
     last_qr_code := last_qr_code s; timer_active := false |}.

Definition reset_processing (s : state) : state :=
  {| processing_qr := false; last_ticket := last_ticket s;
     last_qr_code := None; timer_active := true |}.

(** [self.scan_window.last_ticket = ""], which [MainWindow.on_scan_result]
    does before the automatic retry after an expired code. *)
Definition clear_ticket (s : state) : state :=
  {| processing_qr := processing_qr s; last_ticket := "";
     last_qr_code := last_qr_code s; timer_active := timer_active s |}.

(** The tail of [scan_qr_code]: record the code, mark as processing, emit
    [qr_detected(qr_code)]. *)
Definition emit (qr_code : string) (ticket : string) (s : state)
  : state * list string :=
  ({| processing_qr := true; last_ticket := ticket;
      last_qr_code := Some qr_code; timer_active := timer_active s |},
   [qr_code]).

(** [scan_qr_code]; [scanned] is what [qr_scanner.scan_region] returns on
    this cycle, were it called.  The second component lists the
    [qr_detected] signals emitted. *)
Definition scan_qr_code (scanned : option string) (s : state)
  : state * list string :=
  if processing_qr s then (s, [])
  else match scanned with
       | Some qr_code =>
           if PyStr.truthy qr_code then
             if (24 <=? String.length qr_code)%nat then
               let ticket := PyStr.last_chars 24 qr_code in
               if String.eqb ticket (last_ticket s) then (s, [])
               else emit qr_code ticket s
             else emit qr_code (last_ticket s) s
           else (s, [])
       | None => (s, [])
       end.

(** What can happen to a scan window. *)
Inductive event : Type :=
| Tick (scanned : option string)     (* scan_timer fires *)
| ResetProcessing                    (* the 3 s single shot, or MainWindow *)
| StartScanning
| StopScanning
| ClearTicket.

(** The two events that reset the ticket tracker. *)
Definition is_reset (e : event) : bool :=
  match e with
  | StartScanning | ClearTicket => true
  | _ => false
  end.

(** One decoded payload as the dedup check saw it: the payload and whether
    it was emitted. *)
Definition observation : Type := (string * bool)%type.

(** The payload decoded on an event, if any: the timer is running, no code
    is being processed, and the scan returned a true string. *)
Definition decoded (e : event) (s : state) : option string :=
  match e with
  | Tick (Some qr_code) =>
      if timer_active s && negb (processing_qr s) && PyStr.truthy qr_code
      then Some qr_code else None
  | _ => None
  end.

Definition step (e : event) (s : state) : state * list string :=
  match e with
  | Tick scanned => if timer_active s then scan_qr_code scanned s else (s, [])
  | ResetProcessing => (reset_processing s, [])
  | StartScanning => (start_scanning s, [])
  | StopScanning => (stop_scanning s, [])
  | ClearTicket => (clear_ticket s, [])
  end.

Definition observe (e : event) (s : state) : list observation :=
  match decoded e s with
  | Some qr_code =>
      [(qr_code, match snd (step e s) with [] => false | _ => true end)]
  | None => []
  end.

(** A run: the final state, the signals emitted, and the decoded payloads
    with their verdicts, all in order. *)
Fixpoint run (evs : list event) (s : state)
  : state * list string * list observation :=
  match evs with
  | [] => (s, [], [])
  | e :: evs' =>
      let '(s1, out1) := step e s in
      let '(s2, out2, obs2) := run evs' s1 in
      (s2, out1 ++ out2, observe e s ++ obs2)
  end.

Definition ticket (qr_code : string) : string := PyStr.last_chars 24 qr_code.

End ScanWindow.

(* ===================================================================== *)
(** ** The same check in [utils/live_stream_scanner.py] *)
(* ===================================================================== *)

Module LiveStream.

(** The body of the frame loop of [LiveStreamScanner.run] after
    [_scan_frame]: the new [last_ticket] and the signals emitted. *)
Definition on_frame (qr_code : option string) (last_ticket : string)
  : string * list string :=
  match qr_code with
  | Some qr =>
      if PyStr.truthy qr && (24 <=? String.length qr)%nat then
        let ticket := PyStr.last_chars 24 qr in
        if negb (String.eqb ticket last_ticket) then (ticket, [qr])
        else (last_ticket, [])
      else (last_ticket, [])
  | None => (last_ticket, [])
  end.

End LiveStream.

(* ===================================================================== *)
(** ** Region prediction: [utils/smart_roi_detector.py] *)
(* ===================================================================== *)

Module ROI.

(** An entry of [position_history]: [(x, y, width, height, timestamp)]. *)
Record position : Type := mk_position {
  pos_x : Z; pos_y : Z; pos_w : Z; pos_h : Z; pos_t : float
}.

Definition roi : Type := (Z * Z * Z * Z)%type.

Record detector : Type := mk_detector {
  history_size : Z;
  confidence_threshold : Z;
  position_history : list position;      (* deque(maxlen=history_size) *)
  predicted_roi : option roi;
  prediction_confidence : float;
  total_predictions : Z;
  successful_predictions : Z
}.

(** [SmartROIDetector(history_size, confidence_threshold)] *)
Definition init (history_size confidence_threshold : Z) : detector :=
  {| history_size := history_size;
     confidence_threshold := confidence_threshold;
     position_history := [];
     predicted_roi := None;
     prediction_confidence := 0%float;
     total_predictions := 0;
     successful_predictions := 0 |}.

(** The module's global instance. *)
Definition smart_roi_detector : detector := init 5 3.

(** [deque.append] under [maxlen]: the oldest entries fall off the left. *)
Definition deque_append {A} (maxlen : Z) (d : list A) (a : A) : list A :=
  let d' := d ++ [a] in
  skipn (Z.to_nat (Z.of_nat (length d') - maxlen)) d'.

(** [l[-k:]] for an [int] [k]. *)
Definition slice_last {A} (k : Z) (l : list A) : list A :=
  if k =? 0 then l
  else if 0 <? k then skipn (Z.to_nat (Z.of_nat (length l) - k)) l
  else skipn (Z.to_nat (- k)) l.

(** [sum(pos[i] for pos in recent_positions)] *)
Definition sum_of (f : position -> Z) (l : list position) : Z :=
  fold_left (fun acc pos => acc + f pos) l 0.

Definition tolerance : float := 0.15%float.
Definition margin : float := 0.1%float.

(** The four averages. *)
Record averages : Type := mk_averages {
  avg_x : float; avg_y : float; avg_w : float; avg_h : float
}.

Definition average (recent_positions : list position) : result averages :=
  let n := Z.of_nat (length recent_positions) in
  rbind (PyFloat.truediv (sum_of pos_x recent_positions) n) (fun ax =>
  rbind (PyFloat.truediv (sum_of pos_y recent_positions) n) (fun ay =>
  rbind (PyFloat.truediv (sum_of pos_w recent_positions) n) (fun aw =>
  rbind (PyFloat.truediv (sum_of pos_h recent_positions) n) (fun ah =>
    Ret (mk_averages ax ay aw ah))))).

(** The test under [for pos in recent_positions]. *)
Definition is_similar (a : averages) (pos : position) : bool :=
  PrimFloat.ltb (PrimFloat.abs (PyFloat.of_Z (pos_x pos) - avg_x a))
                (avg_w a * tolerance)
  && PrimFloat.ltb (PrimFloat.abs (PyFloat.of_Z (pos_y pos) - avg_y a))
                   (avg_h a * tolerance)
  && PrimFloat.ltb (PrimFloat.abs (PyFloat.of_Z (pos_w pos) - avg_w a))
                   (avg_w a * tolerance)
  && PrimFloat.ltb (PrimFloat.abs (PyFloat.of_Z (pos_h pos) - avg_h a))
                   (avg_h a * tolerance).

Definition similar_count (a : averages) (recent_positions : list position) : Z :=
  fold_left (fun count pos => if is_similar a pos then count + 1 else count)
            recent_positions 0.

(** The region the predictor commits to: the average, widened by [margin]
    on each side and cut to integers. *)
Definition expanded (a : averages) : roi :=
  (PyFloat.to_Z (avg_x a - avg_w a * margin),
   PyFloat.to_Z (avg_y a - avg_h a * margin),
   PyFloat.to_Z (avg_w a * (1 + 2 * margin)),
   PyFloat.to_Z (avg_h a * (1 + 2 * margin)))%float.

Definition with_prediction (d : detector) (p : option roi) (c : float) : detector :=
  {| history_size := history_size d;
     confidence_threshold := confidence_threshold d;
     position_history := position_history d;
     predicted_roi := p;
     prediction_confidence := c;
     total_predictions := total_predictions d;
     successful_predictions := successful_predictions d |}.

Definition _update_prediction (d : detector) : result detector :=
  if Z.of_nat (length (position_history d)) <? confidence_threshold d then
    Ret (with_prediction d None 0%float)
  else
    let recent_positions :=
      slice_last (confidence_threshold d) (position_history d) in
    rbind (average recent_positions) (fun a =>
      let similar := similar_count a recent_positions in
      if confidence_threshold d <=? similar then
        rbind (PyFloat.truediv similar (Z.of_nat (length recent_positions)))
              (fun c => Ret (with_prediction d (Some (expanded a)) c))
      else Ret (with_prediction d None 0%float)).

(** [add_detection]; [now] is [time.time()]. *)
Definition add_detection (x y width height : Z) (now : float) (d : detector)
  : result detector :=
  _update_prediction
    {| history_size := history_size d;
       confidence_threshold := confidence_threshold d;
       position_history :=
         deque_append (history_size d) (position_history d)
                      (mk_position x y width height now);
       predicted_roi := predicted_roi d;
       prediction_confidence := prediction_confidence d;
       total_predictions := total_predictions d;
       successful_predictions := successful_predictions d |}.

(** [get_predicted_roi]; [now] is [time.time()]. *)
Definition get_predicted_roi (now : float) (d : detector) : option roi :=
  match predicted_roi d, last (position_history d) with
  | Some p, Some latest =>
      if PrimFloat.ltb (now - pos_t latest) 3.0%float then Some p else None
  | _, _ => None
  end.

Definition verify_prediction (found : bool) (d : detector) : detector :=
  match predicted_roi d with
  | Some _ =>
      {| history_size := history_size d;
         confidence_threshold := confidence_threshold d;
         position_history := position_history d;
         predicted_roi := predicted_roi d;
         prediction_confidence := prediction_confidence d;
         total_predictions := total_predictions d + 1;
         successful_predictions :=
           if found then successful_predictions d + 1
           else successful_predictions d |}
  | None => d
  end.

Definition reset (d : detector) : detector :=
  {| history_size := history_size d;
     confidence_threshold := confidence_threshold d;
     position_history := [];
     predicted_roi := None;
     prediction_confidence := 0%float;
     total_predictions := total_predictions d;
     successful_predictions := successful_predictions d |}.

(** Recording a list of detections in order, each with its time stamp. *)
Fixpoint record_all (ps : list position) (d : detector) : result detector :=
  match ps with
  | [] => Ret d
  | p :: ps' =>
      rbind (add_detection (pos_x p) (pos_y p) (pos_w p) (pos_h p) (pos_t p) d)
            (record_all ps')
  end.

End ROI.

(* ===================================================================== *)
(** ** Remote calls: [utils/kuro_api.py] *)
(* ===================================================================== *)

Module KuroAPI.

(** What [response.json()] can give. *)
Inductive json : Type :=
| JNull
| JBool (b : bool)
| JInt (n : Z)
| JFloat (f : float)
| JStr (s : string)
| JList (l : list json)
| JDict (d : list (string * json)).

Fixpoint assoc (key : string) (d : list (string * json)) : option json :=
  match d with
  | [] => None
  | (k, v) :: d' => if String.eqb k key then Some v else assoc key d'
  end.

(** [v.get(key, default)]: only a [dict] has [get]. *)
Definition dict_get (v : json) (key : string) (default : json) : result json :=
  match v with
  | JDict d => Ret (match assoc key d with Some x => x | None => default end)
  | _ => Exc AttributeError
  end.

(** [v == n] for an [int] literal [n]. *)
Definition py_eq_int (v : json) (n : Z) : bool :=
  match v with
  | JInt m => m =? n
  | JFloat f => PrimFloat.eqb f (PyFloat.of_Z n)
  | JBool b => (if b then 1 else 0) =? n
  | _ => false
  end.

(** [needle in v] for a [str] literal [needle]. *)
Definition py_in (needle : string) (v : json) : result bool :=
  match v with
  | JStr s => Ret (PyStr.str_in needle s)
  | JList l =>
      Ret (existsb (fun x => match x with
                             | JStr s => String.eqb s needle
                             | _ => false
                             end) l)
  | JDict d => Ret (match assoc needle d with Some _ => true | None => false end)
  | _ => Exc TypeError
  end.

Inductive body : Type :=
| Form (fields : list (string * string))
| Raw (data : string).

(** A request as handed to [self.session]: [headers] is constant but for
    the [token] entry. *)
Record request : Type := mk_request {
  req_method : string;
  req_url : string;
  req_data : option body;
  req_token : option json;
  req_timeout : float
}.

(** The HTTP layer: what [session.post] / [session.head] does with a
    request, given all the requests sent before it.  It raises, or returns
    a response, whose [json()] raises or returns.  [float_repr] is [str] on
    a float, used in one message. *)
Class Network : Type := {
  send : list request -> request -> result (result json);
  float_repr : float -> string
}.

(** The public methods of [KuroAPI], as a record of who was called (ghost:
    the program keeps no such list). *)
Inductive call : Type :=
| CallLogin (mobile code : string)
| CallGetRoleInfos (qr_code : string) (smart_retry : bool)
| CallScanLogin (qr_code verify_code : string) (auto_login smart_retry : bool)
| CallSendSms.

Record world : Type := mk_world {
  sent : list request;                 (* requests given to the session *)
  calls : list call;                   (* ghost *)
  token : json;                        (* self.token *)
  header_token : option json;          (* self.headers.get("token") *)
  connection_warmed : bool             (* self._connection_warmed *)
}.

Definition BASE_URL : string := "https://api.kurobbs.com".
Definition url_roleInfos : string := BASE_URL +:+ "/user/auth/roleInfos".
Definition url_scanLogin : string := BASE_URL +:+ "/user/auth/scanLogin".
Definition url_sdkLogin : string := BASE_URL +:+ "/user/sdkLogin".
Definition url_scanSms : string := BASE_URL +:+ "/user/sms/scanSms".
Definition url_warm_up : string := BASE_URL +:+ "/user/role/roleInfos".

Definition failure (msg : string) : json :=
  JDict [("code", JInt (-1)); ("msg", JStr msg)].

Definition record_call (c : call) : M world unit :=
  modify (fun w => {| sent := sent w; calls := calls w ++ [c];
                      token := token w; header_token := header_token w;
                      connection_warmed := connection_warmed w |}).

Section Definitions.
Context `{Network}.

(** [self.session.request(...)]: the request joins [sent] whatever the
    outcome. *)
Definition session_send (method url : string) (data : option body)
  (timeout : float) : M world (result json) :=
  fun w =>
    let req := {| req_method := method; req_url := url; req_data := data;
                  req_token := header_token w; req_timeout := timeout |} in
    (send (sent w) req,
     {| sent := sent w ++ [req]; calls := calls w; token := token w;
        header_token := header_token w;
        connection_warmed := connection_warmed w |}).

Definition session_post (url : string) (data : body) (timeout : float)
  : M world (result json) :=
  session_send "POST" url (Some data) timeout.

Definition session_head (url : string) (timeout : float)
  : M world (result json) :=
  session_send "HEAD" url None timeout.

(** [last_error or "请求失败"] *)
Definition or_default (last_error : option string) : string :=
  match last_error with
  | Some msg => if PyStr.truthy msg then msg else "请求失败"
  | None => "请求失败"
  end.

(** The retry loop shared by [get_role_infos] and [scan_login]:
    [for attempt, timeout in enumerate(timeouts, 1)] with its two handlers
    and the [return] after the loop. *)
Fixpoint attempts (url : string) (data : body) (timeouts : list float)
  (last_error : option string) : M world json :=
  match timeouts with
  | [] => ret (failure (or_default last_error))
  | timeout :: rest =>
      try_except
        (let* response := session_post url data timeout in
         lift response)
        (fun e =>
           if exc_is_timeout e then
             attempts url data rest
               (Some ("请求超时(>" +:+ float_repr timeout +:+ "s)"))
           else
             ret (failure (or_default (Some ("请求失败: " +:+ exc_str e)))))
  end.

Definition role_timeouts (smart_retry : bool) : list float :=
  if smart_retry then [0.6; 1.2; 2.0]%float else [1.0]%float.

Definition scan_timeouts (smart_retry : bool) : list float :=
  if smart_retry then [0.8; 1.5; 2.5]%float else [1.5]%float.

Definition get_role_infos (qr_code : string) (smart_retry : bool) : M world json :=
  let* _ := record_call (CallGetRoleInfos qr_code smart_retry) in
  attempts url_roleInfos (Form [("qrCode", qr_code)])
           (role_timeouts smart_retry) None.

Definition scan_login (qr_code verify_code : string)
  (auto_login smart_retry : bool) : M world json :=
  let* _ := record_call (CallScanLogin qr_code verify_code auto_login smart_retry) in
  attempts url_scanLogin
           (Form [("autoLogin", if auto_login then "true" else "false");
                  ("qrCode", qr_code);
                  ("id", "");
                  ("verifyCode", verify_code)])
           (scan_timeouts smart_retry) None.

Definition warm_up_connection : M world unit :=
  try_except
    (let* _ := session_head url_warm_up 0.3%float in
     modify (fun w => {| sent := sent w; calls := calls w; token := token w;
                         header_token := header_token w;
                         connection_warmed := true |}))
    (fun _ => ret tt).

Definition set_token (tok : json) : M world unit :=
  let* _ := modify (fun w => {| sent := sent w; calls := calls w; token := tok;
                               header_token := Some tok;
                               connection_warmed := connection_warmed w |}) in
  let* w := get in
  if negb (connection_warmed w) then warm_up_connection else ret tt.

Definition login (mobile code : string) : M world json :=
  let* _ := record_call (CallLogin mobile code) in
  try_except
    (let* response :=
       session_post url_sdkLogin (Form [("mobile", mobile); ("code", code)])
                    5%float in
     let* result := lift response in
     let* c := lift (dict_get result "code" JNull) in
     let* _ :=
       (if py_eq_int c 200 then
          let* data := lift (dict_get result "data" (JDict [])) in
          let* tok := lift (dict_get data "token" (JStr "")) in
          set_token tok
        else ret tt) in
     ret result)
    (fun e => ret (failure ("请求失败: " +:+ exc_str e))).

Definition send_sms : M world json :=
  let* _ := record_call CallSendSms in
  try_except
    (let* response := session_post url_scanSms (Raw "geeTestData=") 5%float in
     lift response)
    (fun e => ret (failure ("请求失败: " +:+ exc_str e))).

End Definitions.

End KuroAPI.

(* ===================================================================== *)
(** ** The two-step login: [ScanThread] in [ui/main_window.py] *)
(* ===================================================================== *)

Module ScanThread.
Import KuroAPI.

Record thread : Type := mk_thread {
  qr_code : string;
  verify_code : string;
  skip_role_check : bool
}.

(** The dictionary given to the [scan_result] signal. *)
Record scan_result : Type := mk_scan_result {
  success : bool;
  message : json;
  need_sms : bool
}.

Definition succeeded : scan_result :=
  {| success := true; message := JStr "登录成功"; need_sms := false |}.
Definition failed (msg : json) : scan_result :=
  {| success := false; message := msg; need_sms := false |}.
Definition needs_sms : scan_result :=
  {| success := false; message := JStr "需要短信验证码"; need_sms := true |}.

Section Definitions.
Context `{Network}.

(** The first half of [run]: [Some r] when it emits [r] and returns. *)
Definition validate (t : thread) : M world (option scan_result) :=
  if negb (skip_role_check t) then
    let* role_result := get_role_infos (qr_code t) true in
    let* code := lift (dict_get role_result "code" JNull) in
    if py_eq_int code 220 then ret (Some (failed (JStr "Token已过期")))
    else if py_eq_int code 2209 then ret (Some (failed (JStr "二维码已过期")))
    else if negb (py_eq_int code 200) then
      let* msg := lift (dict_get role_result "msg" (JStr "验证失败")) in
      ret (Some (failed msg))
    else ret None
  else ret None.

(** The second half of [run]. *)
Definition confirm (t : thread) : M world scan_result :=
  let* scan_result := scan_login (qr_code t) (verify_code t) false true in
  let* code := lift (dict_get scan_result "code" JNull) in
  if py_eq_int code 200 then ret succeeded
  else if py_eq_int code 2240 then ret needs_sms
  else if PyStr.truthy (verify_code t) then
    let* scan_result_retry := scan_login (qr_code t) "" false true in
    let* code_retry := lift (dict_get scan_result_retry "code" JNull) in
    if py_eq_int code_retry 200 then ret succeeded
    else
      let* msg := lift (dict_get scan_result_retry "msg" (JStr "登录失败")) in
      ret (failed msg)
  else
    let* msg := lift (dict_get scan_result "msg" (JStr "扫码失败")) in
    ret (failed msg).

(** [ScanThread.run]; the value is the one [scan_result] it emits. *)
Definition run (t : thread) : M world scan_result :=
  try_except
    (let* early := validate t in
     match early with
     | Some r => ret r
     | None => confirm t
     end)
    (fun e => ret (failed (JStr (exc_str e)))).

End Definitions.

End ScanThread.

(* ===================================================================== *)
(** ** The orchestrator's callbacks: [MainWindow] in [ui/main_window.py] *)
(* ===================================================================== *)

Module MainWindow.
Import KuroAPI ScanThread.

Record window : Type := mk_window {
  pending_qr_code : option string;             (* None: not yet assigned *)
  scan_thread : option thread;                 (* the thread last started *)
  scan_window : option ScanWindow.state;
  scan_window_hidden : bool
}.

(** What the user answers in the dialogs of [on_scan_result], and the
    [auto_retry] setting. *)
Record dialogs : Type := mk_dialogs {
  reply_yes : bool;          (* QMessageBox.question: Yes *)
  input_code : string;       (* QInputDialog.getText: the text *)
  input_ok : bool;           (* QInputDialog.getText: accepted *)
  auto_retry : bool          (* config_manager.get("auto_retry", True) *)
}.

(** [ScanWindow.close()] then [self.scan_window = None]. *)
Definition close_scan_window (mw : window) : window :=
  {| pending_qr_code := pending_qr_code mw; scan_thread := scan_thread mw;
     scan_window := None; scan_window_hidden := true |}.

Definition start_thread (t : thread) (mw : window) : window :=
  {| pending_qr_code := pending_qr_code mw; scan_thread := Some t;
     scan_window := scan_window mw;
     scan_window_hidden := scan_window_hidden mw |}.

Definition on_scan_window (f : ScanWindow.state -> ScanWindow.state)
  (mw : window) : window :=
  {| pending_qr_code := pending_qr_code mw; scan_thread := scan_thread mw;
     scan_window := option_map f (scan_window mw);
     scan_window_hidden := scan_window_hidden mw |}.

(** [on_qr_detected]: remember the code, close the scan window, start a
    thread that validates first. *)
Definition on_qr_detected (qr_code : string) (mw : window) : window :=
  start_thread (mk_thread qr_code "" false)
    (close_scan_window
       {| pending_qr_code := Some qr_code; scan_thread := scan_thread mw;
          scan_window := scan_window mw;
          scan_window_hidden := scan_window_hidden mw |}).

Section Definitions.
Context `{Network}.

(** [on_start_scan], for a logged-in user. *)
Definition on_start_scan (mw : window) : M world window :=
  let* _ := warm_up_connection in
  ret {| pending_qr_code := pending_qr_code mw; scan_thread := scan_thread mw;
         scan_window :=
           Some (ScanWindow.start_scanning
                   (match scan_window mw with
                    | Some sw => sw
                    | None => ScanWindow.initial
                    end));
         scan_window_hidden := false |}.

(** [on_scan_result] *)
Definition on_scan_result (result : scan_result) (ui : dialogs) (mw : window)
  : M world window :=
  if success result then ret (close_scan_window mw)
  else if need_sms result then
    if negb (reply_yes ui) then ret mw
    else
      let* sms_result := send_sms in
      let* _ := lift (dict_get sms_result "code" JNull) in
      if input_ok ui && PyStr.truthy (input_code ui) then
        match pending_qr_code mw with
        | Some pending =>
            ret (start_thread (mk_thread pending (input_code ui) true) mw)
        | None => raise AttributeError
        end
      else ret (on_scan_window ScanWindow.reset_processing mw)
  else
    let* expired := lift (py_in "二维码已过期" (message result)) in
    let* expired := (if expired then ret true
                     else lift (py_in "二维码已失效" (message result))) in
    if expired && auto_retry ui
       && match scan_window mw with Some _ => true | None => false end
       && negb (scan_window_hidden mw)
    then ret (on_scan_window ScanWindow.clear_ticket mw)
    else
      let* _ := lift (py_in "Token已过期" (message result)) in
      ret (on_scan_window ScanWindow.reset_processing mw).

End Definitions.

End MainWindow.

(* ===================================================================== *)
(** ** Buffer reuse: [utils/image_buffer_pool.py] *)
(* ===================================================================== *)

Module BufferPool.

(** numpy arrays, as far as the pool looks at them. *)
Class Numpy : Type := {
  ndarray : Type;
  shape : ndarray -> list Z;
  (* np.zeros(size, dtype=np.uint8) *)
  np_zeros : list Z -> result ndarray
}.

Section Definitions.
Context `{Numpy}.

(** [self.buffers] maps a shape to a Python list used as a stack: [append]
    adds at the end, [pop] takes from the end. *)
Record pool : Type := mk_pool {
  pool_size : Z;
  buffers : gmap (list Z) (list ndarray)
}.

Definition with_buffers (p : pool) (b : gmap (list Z) (list ndarray)) : pool :=
  {| pool_size := pool_size p; buffers := b |}.

(** [len(self.buffers[size])], [0] when the shape has no bucket. *)
Definition bucket_len (p : pool) (size : list Z) : nat :=
  match buffers p !! size with
  | Some l => length l
  | None => 0%nat
  end.

Fixpoint allocate_n (size : list Z) (count : nat) : M pool unit :=
  match count with
  | O => ret tt
  | S count' =>
      let* buffer := lift (np_zeros size) in
      let* _ := modify (fun p =>
        with_buffers p (<[size := default [] (buffers p !! size) ++ [buffer]]>
                          (buffers p))) in
      allocate_n size count'
  end.

Definition _allocate_buffers (size : list Z) (count : nat) : M pool unit :=
  let* _ := modify (fun p =>
    match buffers p !! size with
    | Some _ => p
    | None => with_buffers p (<[size := []]> (buffers p))
    end) in
  allocate_n size count.

Definition common_sizes : list (list Z) :=
  [[1280; 720; 3]; [1920; 1080; 3]; [800; 800; 3]; [640; 480; 3]].

Fixpoint allocate_common (sizes : list (list Z)) : M pool unit :=
  match sizes with
  | [] => ret tt
  | size :: rest =>
      let* _ := _allocate_buffers size 2 in allocate_common rest
  end.

(** [ImageBufferPool(pool_size)] *)
Definition init (pool_size : Z) : result pool :=
  match allocate_common common_sizes
          {| pool_size := pool_size; buffers := ∅ |} with
  | (Ret _, p) => Ret p
  | (Exc e, _) => Exc e
  end.

Definition get_buffer (height width channels : Z) : M pool ndarray :=
  let size := [height; width; channels] in
  let* p := get in
  match buffers p !! size with
  | Some (b :: l) =>
      let bucket := b :: l in
      let* _ := modify (fun p =>
        with_buffers p (<[size := removelast bucket]> (buffers p))) in
      ret (List.last bucket b)
  | _ => lift (np_zeros size)
  end.

Definition return_buffer (buffer : ndarray) (p : pool) : pool :=
  let size := shape buffer in
  let p1 := match buffers p !! size with
            | Some _ => p
            | None => with_buffers p (<[size := []]> (buffers p))
            end in
  let bucket := default [] (buffers p1 !! size) in
  if Z.of_nat (length bucket) <? pool_size p1 then
    with_buffers p1 (<[size := bucket ++ [buffer]]> (buffers p1))
  else p1.

Definition clear (p : pool) : pool := with_buffers p ∅.

(** The calls a client can make. *)
Inductive op : Type :=
| Acquire (height width channels : Z)
| Release (buffer : ndarray)
| Clear.

(** The pool after one call; an [Acquire] whose allocation raises leaves
    the pool as it was. *)
Definition apply (o : op) (p : pool) : pool :=
  match o with
  | Acquire h w c => snd (get_buffer h w c p)
  | Release b => return_buffer b p
  | Clear => clear p
  end.

Definition apply_all (ops : list op) (p : pool) : pool :=
  fold_left (fun p o => apply o p) ops p.

End Definitions.

End BufferPool.

(* ===================================================================== *)
(** * Properties *)
(* ===================================================================== *)

(** ** Substring facts *)

Module PyStrFacts.
Import PyStr.

Lemma append_cons (x : ascii) (a b : string) :
  String x a +:+ b = String x (a +:+ b).
Proof. reflexivity. Qed.

Lemma append_assoc (a b c : string) : (a +:+ b) +:+ c = a +:+ (b +:+ c).
Proof.
  induction a as [|x a IH]; [reflexivity|].
  rewrite !append_cons, IH. reflexivity.
Qed.

Lemma prefix_append (a b : string) : String.prefix a (a +:+ b) = true.
Proof.
  induction a as [|c a IH].
  - destruct b; reflexivity.
  - rewrite append_cons. cbn [String.prefix].
    destruct (ascii_dec c c) as [_|ne]; [exact IH | contradiction].
Qed.

Lemma prefix_split (a s : string) :
  String.prefix a s = true -> exists b, s = a +:+ b.
Proof.
  revert s. induction a as [|c a IH]; intros s Hp.
  - exists s. reflexivity.
  - destruct s as [|d s]; cbn [String.prefix] in Hp; [discriminate|].
    destruct (ascii_dec c d) as [->|]; [|discriminate].
    destruct (IH s Hp) as [b ->]. exists b. reflexivity.
Qed.

Lemma str_in_cons (n : string) (c : ascii) (s : string) :
  str_in n s = true -> str_in n (String c s) = true.
Proof.
  intros Hs. cbn [str_in].
  destruct (String.prefix n (String c s)); [reflexivity | exact Hs].
Qed.

Lemma str_in_append_l (n a t : string) :
  str_in n t = true -> str_in n (a +:+ t) = true.
Proof.
  intros Ht. induction a as [|c a IH].
  - exact Ht.
  - rewrite append_cons. apply str_in_cons, IH.
Qed.

Lemma str_in_prefix (n s : string) :
  String.prefix n s = true -> str_in n s = true.
Proof.
  intros Hp. destruct s; cbn [str_in]; rewrite Hp; reflexivity.
Qed.

Lemma str_in_of_longer_prefix (a b s : string) :
  String.prefix (a +:+ b) s = true -> str_in b s = true.
Proof.
  intros Hp. destruct (prefix_split _ _ Hp) as [r ->].
  rewrite append_assoc.
  apply str_in_append_l, str_in_prefix, prefix_append.
Qed.

(** A string that contains [a +:+ b] contains [b]. *)
Lemma str_in_longer (a b s : string) :
  str_in (a +:+ b) s = true -> str_in b s = true.
Proof.
  induction s as [|c s IH].
  - cbn [str_in].
    destruct (String.prefix (a +:+ b) "") eqn:Hp; [|discriminate].
    intros _. exact (str_in_of_longer_prefix _ _ _ Hp).
  - change (str_in (a +:+ b) (String c s))
      with (if String.prefix (a +:+ b) (String c s) then true
            else str_in (a +:+ b) s).
    destruct (String.prefix (a +:+ b) (String c s)) eqn:Hp.
    + intros _. exact (str_in_of_longer_prefix _ _ _ Hp).
    + intros Hs. apply str_in_cons, IH, Hs.
Qed.

Lemma str_in_truthy (n s : string) :
  truthy n = true -> str_in n s = true -> truthy s = true.
Proof.
  destruct s; [|reflexivity].
  destruct n; [discriminate|]. simpl. discriminate.
Qed.

End PyStrFacts.

(** ** The monad *)

Module MFacts.

Lemma bind_ret_inv {S A B} (m : M S A) (k : A -> M S B) s r s' :
  bind m k s = (Ret r, s') ->
  exists a s1, m s = (Ret a, s1) /\ k a s1 = (Ret r, s').
Proof.
  unfold bind. destruct (m s) as [[a|e] s1]; intros Hk.
  - exists a, s1. split; [reflexivity | exact Hk].
  - discriminate.
Qed.

Lemma bind_ok {S A B} (m : M S A) (k : A -> M S B) s a s1 :
  m s = (Ret a, s1) -> bind m k s = k a s1.
Proof. intros Hm. unfold bind. rewrite Hm. reflexivity. Qed.

Lemma bind_exc {S A B} (m : M S A) (k : A -> M S B) s e s1 :
  m s = (Exc e, s1) -> bind m k s = (Exc e, s1).
Proof. intros Hm. unfold bind. rewrite Hm. reflexivity. Qed.

(** A handler that never raises makes a [try] that never raises. *)
Lemma try_except_total {S A} (body : M S A) (handler : exn -> M S A) s :
  (forall e s1, exists a s2, handler e s1 = (Ret a, s2)) ->
  exists a s', try_except body handler s = (Ret a, s').
Proof.
  intros Hh. unfold try_except. destruct (body s) as [[a|e] s1].
  - exists a, s1. reflexivity.
  - apply Hh.
Qed.

End MFacts.

(** ** Decode engine *)

Module ScannerFacts.
Import Scanner PyStrFacts MFacts.

(** The marker test amounts to containing [KURO]. *)
Lemma is_wuwa_qr_KURO (qr_data : string) :
  is_wuwa_qr qr_data = PyStr.str_in "KURO" qr_data.
Proof.
  unfold is_wuwa_qr.
  destruct (PyStr.str_in "G152#KURO" qr_data) eqn:Hg; [|reflexivity].
  symmetry. exact (str_in_longer "G152#" "KURO" qr_data Hg).
Qed.

(** A decode result that passed the marker test, or none. *)
Definition marked (r : option string) : Prop :=
  match r with
  | Some qr_data => is_wuwa_qr qr_data = true
  | None => True
  end.

Section Facts.
Context `{Libraries}.

Lemma wechat_pass_marked (img : Image) :
  exists r, wechat_pass img = Ret r /\ marked r.
Proof.
  unfold wechat_pass. destruct wechat_detector as [detect|].
  - destruct (detect img) as [[|qr_data res]|e]; simpl.
    + exists None. split; [reflexivity | exact I].
    + destruct (is_wuwa_qr qr_data) eqn:Hm; simpl.
      * exists (Some qr_data). split; [reflexivity | exact Hm].
      * exists None. split; [reflexivity | exact I].
    + exists None. split; [reflexivity | exact I].
  - exists None. split; [reflexivity | exact I].
Qed.

Lemma pyzbar_pass_marked (img : Image) :
  exists r, pyzbar_pass img = Ret r /\ marked r.
Proof.
  unfold pyzbar_pass.
  destruct (decode img) as [[|[qr_data|e] objs]|e]; simpl;
    try (exists None; split; [reflexivity | exact I]).
  destruct (is_wuwa_qr qr_data) eqn:Hm; simpl.
  - exists (Some qr_data). split; [reflexivity | exact Hm].
  - exists None. split; [reflexivity | exact I].
Qed.

Lemma try_decode_qr_marked (img : Image) :
  exists r, try_decode_qr img = Ret r /\ marked r.
Proof.
  unfold try_decode_qr.
  destruct (wechat_pass_marked img) as [[qr_data|] [-> Hm]]; simpl.
  - exists (Some qr_data). split; [reflexivity | exact Hm].
  - apply pyzbar_pass_marked.
Qed.

Lemma first_completed_marked images order :
  exists r, first_completed images order = Ret r /\
            match r with
            | Some (qr, _) => is_wuwa_qr qr = true
            | None => True
            end.
Proof.
  induction order as [|i order IH]; cbn [first_completed].
  - exists None. split; [reflexivity | exact I].
  - destruct (nth_error images i) as [[method_name img]|]; [|exact IH].
    destruct (try_decode_qr_marked img) as [[qr|] [-> Hm]]; simpl; [|exact IH].
    destruct (PyStr.truthy qr); [|exact IH].
    exists (Some (qr, method_name)). split; [reflexivity | exact Hm].
Qed.

Lemma submit_all_ok images tr :
  exists tr', submit_all images tr = (Ret tt, tr').
Proof.
  revert tr. induction images as [|[m img] images IH]; intros tr; simpl.
  - exists tr. reflexivity.
  - unfold bind, log, modify. apply IH.
Qed.

Lemma try_decode_parallel_marked images tr :
  exists r tr', try_decode_parallel images tr = (Ret r, tr') /\
                match r with
                | Some (qr, _) => is_wuwa_qr qr = true
                | None => True
                end.
Proof.
  unfold try_decode_parallel.
  destruct (submit_all_ok images tr) as [tr' Hs].
  rewrite (bind_ok _ _ _ _ _ Hs). unfold lift.
  destruct (first_completed_marked images (as_completed images)) as [r [-> Hm]].
  exists r, tr'. split; [reflexivity | exact Hm].
Qed.

Lemma record_roi_ok x y width height tr :
  exists tr', record_roi x y width height tr = (Ret tt, tr').
Proof.
  unfold record_roi. destruct ROI_DETECTOR_AVAILABLE.
  - eexists. reflexivity.
  - exists tr. reflexivity.
Qed.

Lemma decode_enhanced_marked x y width height enhanced :
  forall idx tr,
    exists r tr', decode_enhanced x y width height idx enhanced tr = (Ret r, tr')
                  /\ marked r.
Proof.
  induction enhanced as [|img rest IH]; intros idx tr; cbn [decode_enhanced].
  - exists None, tr. split; [reflexivity | exact I].
  - unfold bind at 1. unfold log, modify. unfold bind at 1. unfold lift.
    destruct (try_decode_qr_marked img) as [r [-> Hm]].
    destruct (PyStr.truthy_opt r).
    + destruct (record_roi_ok x y width height (tr ++ [EvDecode idx])) as [tr' Hr].
      rewrite (bind_ok _ _ _ _ _ Hr).
      exists r, tr'. split; [reflexivity | exact Hm].
    + apply IH.
Qed.

Lemma scan_region_marked x y width height tr :
  exists r tr', scan_region x y width height tr = (Ret r, tr') /\ marked r.
Proof.
  unfold scan_region, try_except.
  match goal with |- context [match ?body tr with _ => _ end] =>
    destruct (body tr) as [[r|e] tr'] eqn:Hbody end.
  2:{ exists None, tr'. split; [reflexivity | exact I]. }
  exists r, tr'. split; [reflexivity|].
  apply bind_ret_inv in Hbody as (grabbed & t1 & _ & Hbody).
  apply bind_ret_inv in Hbody as (img & t2 & _ & Hbody).
  apply bind_ret_inv in Hbody as (rs & t3 & _ & Hbody).
  apply bind_ret_inv in Hbody as (pr & t4 & Hpar & Hbody).
  destruct (try_decode_parallel_marked
              (candidates img (fst rs) (snd rs)) t3) as (pr' & t4' & Hpar' & Hm).
  rewrite Hpar in Hpar'. injection Hpar' as <- <-.
  destruct pr as [[qr_code m]|].
  - apply bind_ret_inv in Hbody as (u & t5 & _ & Hbody).
    unfold ret in Hbody. injection Hbody as <- _. exact Hm.
  - apply bind_ret_inv in Hbody as (enhanced_images & t5 & _ & Hbody).
    destruct (decode_enhanced_marked x y width height
                (tail enhanced_images) 1%nat t5) as (r' & t6 & Hd & Hm').
    rewrite Hbody in Hd. injection Hd as <- _. exact Hm'.
Qed.

End Facts.

(** C1.  A decoded string [P] that lacks the marker [KURO] (and with it
    [G152#KURO]) is never returned: not by [try_decode_qr] of either
    scanner, not by the race [try_decode_parallel], not by [scan_region].
    Each of them returns normally on every input, so the discarded payload
    does not surface as an error either. *)
Theorem unmarked_payload_never_returned `{Libraries} (P : string) :
  PyStr.str_in "KURO" P = false ->
  (forall img, exists r, try_decode_qr img = Ret r /\ r <> Some P) /\
  (forall img, exists r, try_decode_qr_zbar img = Ret r /\ r <> Some P) /\
  (forall images tr, exists r tr',
      try_decode_parallel images tr = (Ret r, tr') /\
      forall method_name, r <> Some (P, method_name)) /\
  (forall x y width height tr, exists r tr',
      scan_region x y width height tr = (Ret r, tr') /\ r <> Some P).
Proof.
  intros HP.
  assert (Hno : forall r, marked r -> r <> Some P).
  { intros r Hm ->. simpl in Hm. rewrite is_wuwa_qr_KURO in Hm. congruence. }
  repeat split.
  - intros img. destruct (try_decode_qr_marked img) as (r & Hr & Hm).
    exists r. split; [exact Hr | exact (Hno r Hm)].
  - intros img. destruct (pyzbar_pass_marked img) as (r & Hr & Hm).
    exists r. split; [exact Hr | exact (Hno r Hm)].
  - intros images tr.
    destruct (try_decode_parallel_marked images tr) as (r & tr' & Hr & Hm).
    exists r, tr'. split; [exact Hr|].
    intros method_name ->. rewrite is_wuwa_qr_KURO in Hm. congruence.
  - intros x y width height tr.
    destruct (scan_region_marked x y width height tr) as (r & tr' & Hr & Hm).
    exists r, tr'. split; [exact Hr | exact (Hno r Hm)].
Qed.

End ScannerFacts.

(** ** The order of the two decode passes *)

Module PassOrderFacts.
Import Scanner PyStrFacts MFacts ScannerFacts.

Section Facts.
Context `{Libraries}.

(** What [try_decode_qr] makes of an image, as its callers test it: a true
    string, or nothing. *)
Definition decodes (img : Image) : option string :=
  match try_decode_qr img with
  | Ret (Some qr) => if PyStr.truthy qr then Some qr else None
  | _ => None
  end.

Definition roi_events (x y width height : Z) : list event :=
  if ROI_DETECTOR_AVAILABLE then [EvRoiRecord x y width height] else [].

Lemma record_roi_trace x y width height tr :
  record_roi x y width height tr = (Ret tt, tr ++ roi_events x y width height).
Proof.
  unfold record_roi, roi_events. destruct ROI_DETECTOR_AVAILABLE.
  - reflexivity.
  - unfold ret. rewrite app_nil_r. reflexivity.
Qed.

Lemma submit_all_trace images tr :
  submit_all images tr = (Ret tt, tr ++ map (fun c => EvSubmit (fst c)) images).
Proof.
  revert tr. induction images as [|[m img] images IH]; intros tr; simpl.
  - unfold ret. rewrite app_nil_r. reflexivity.
  - unfold bind, log, modify. rewrite IH, <- app_assoc. reflexivity.
Qed.

Lemma first_completed_none images order :
  (forall i m c, In i order -> nth_error images i = Some (m, c) ->
                 decodes c = None) ->
  first_completed images order = Ret None.
Proof.
  induction order as [|i order IH]; intros Hall; cbn [first_completed].
  - reflexivity.
  - assert (IH' : first_completed images order = Ret None).
    { apply IH. intros j m c Hj. apply Hall. right. exact Hj. }
    destruct (nth_error images i) as [[m c]|] eqn:Hi; [|exact IH'].
    specialize (Hall i m c (or_introl eq_refl) Hi). unfold decodes in Hall.
    destruct (try_decode_qr_marked c) as [[qr|] [Hr _]]; rewrite Hr in Hall |- *;
      simpl; [|exact IH'].
    destruct (PyStr.truthy qr); [discriminate | exact IH'].
Qed.

Lemma first_completed_some images order qr m :
  first_completed images order = Ret (Some (qr, m)) ->
  exists i c, In i order /\ nth_error images i = Some (m, c) /\
              decodes c = Some qr.
Proof.
  induction order as [|i order IH]; cbn [first_completed]; [discriminate|].
  intros Hf.
  assert (Hrest : first_completed images order = Ret (Some (qr, m)) ->
                  exists i0 c, In i0 (i :: order) /\
                               nth_error images i0 = Some (m, c) /\
                               decodes c = Some qr).
  { intros Hr. destruct (IH Hr) as (j & c & Hj & Hn & Hd).
    exists j, c. split; [right; exact Hj | split; assumption]. }
  destruct (nth_error images i) as [[m' c]|] eqn:Hi; [|exact (Hrest Hf)].
  destruct (try_decode_qr c) as [[q|]|e] eqn:Hr; simpl in Hf;
    [| exact (Hrest Hf) | discriminate].
  destruct (PyStr.truthy q) eqn:Ht; [|exact (Hrest Hf)].
  injection Hf as -> ->. exists i, c.
  split; [left; reflexivity | split; [exact Hi|]].
  unfold decodes. rewrite Hr, Ht. reflexivity.
Qed.

Lemma first_completed_cases images order :
  first_completed images order = Ret None \/
  exists qr m, first_completed images order = Ret (Some (qr, m)).
Proof.
  destruct (first_completed_marked images order) as [[[qr m]|] [Hr _]].
  - right. exists qr, m. exact Hr.
  - left. exact Hr.
Qed.

Lemma first_completed_none_inv images order :
  first_completed images order = Ret None ->
  forall i m c, In i order -> nth_error images i = Some (m, c) ->
                decodes c = None.
Proof.
  induction order as [|i order IH]; cbn [first_completed]; intros Hf j m c Hj Hn.
  - destruct Hj.
  - destruct Hj as [<-|Hj].
    + rewrite Hn in Hf. unfold decodes.
      destruct (try_decode_qr c) as [[q|]|e]; simpl in Hf; try reflexivity.
      destruct (PyStr.truthy q); [discriminate | reflexivity].
    + apply (IH) with (i := j) (m := m); try assumption.
      destruct (nth_error images i) as [[m' c']|]; [|exact Hf].
      destruct (try_decode_qr c') as [[q|]|e]; simpl in Hf;
        [| exact Hf | discriminate].
      destruct (PyStr.truthy q); [discriminate | exact Hf].
Qed.

Lemma decodes_spec img r :
  try_decode_qr img = Ret r ->
  (PyStr.truthy_opt r = true /\ decodes img = r /\ is_Some (decodes img)) \/
  (PyStr.truthy_opt r = false /\ decodes img = None).
Proof.
  intros Hr. unfold decodes. rewrite Hr. destruct r as [qr|]; simpl.
  - destruct (PyStr.truthy qr).
    + left. repeat split. eexists. reflexivity.
    + right. split; reflexivity.
  - right. split; reflexivity.
Qed.

(** The sequential pass, by the first enhanced image that decodes. *)
Lemma decode_enhanced_trace x y width height enhanced :
  forall idx tr,
    decode_enhanced x y width height idx enhanced tr =
    match list_find (fun i => is_Some (decodes i)) enhanced with
    | Some (j, i) =>
        (Ret (decodes i),
         tr ++ map EvDecode (seq idx (S j)) ++ roi_events x y width height)
    | None => (Ret None, tr ++ map EvDecode (seq idx (length enhanced)))
    end.
Proof.
  induction enhanced as [|img rest IH]; intros idx tr.
  - simpl. unfold ret. rewrite app_nil_r. reflexivity.
  - cbn [decode_enhanced list_find].
    unfold bind at 1. unfold log, modify. unfold bind at 1. unfold lift.
    destruct (try_decode_qr_marked img) as [r [Hr _]]. rewrite Hr.
    destruct (decodes_spec img r Hr) as [(Ht & Hd & Hs)|(Ht & Hd)]; rewrite Ht.
    + rewrite decide_True by exact Hs.
      rewrite (bind_ok _ _ _ _ _ (record_roi_trace _ _ _ _ _)).
      unfold ret. rewrite Hd. simpl. rewrite <- app_assoc. reflexivity.
    + rewrite decide_False by (rewrite Hd; intros [? ?]; discriminate).
      rewrite IH. fold (list_find (fun i => is_Some (decodes i)) rest).
      destruct (list_find (fun i => is_Some (decodes i)) rest) as [[j i]|];
        simpl; rewrite <- app_assoc; reflexivity.
Qed.

Definition basic_variants : list variant := [Contrast; Sharpness; Combined].

Lemma basic_trace img tr :
  exists enhanced computed,
    _enhance_image_basic img tr =
      (Ret (img :: enhanced), tr ++ map EvComputed computed) /\
    (forall v, In v computed -> In v basic_variants).
Proof.
  unfold _enhance_image_basic, basic_variants.
  destruct (enhance_contrast img 2) as [c|e].
  2:{ exists [], []. unfold ret. rewrite app_nil_r. split; [reflexivity|].
      intros v []. }
  unfold bind at 1. unfold log, modify.
  destruct (enhance_sharpness img 2) as [s|e].
  2:{ exists [c], [Contrast]. split; [reflexivity|].
      intros v [<-|[]]. simpl. auto. }
  unfold bind at 1.
  destruct (rbind (enhance_contrast img 1.8) _) as [t|e].
  2:{ exists [c; s], [Contrast; Sharpness]. unfold ret.
      rewrite <- app_assoc. split; [reflexivity|].
      intros v [<-|[<-|[]]]; simpl; auto. }
  unfold bind at 1. unfold ret.
  exists [c; s; t], [Contrast; Sharpness; Combined].
  rewrite <- !app_assoc. split; [reflexivity|]. intros v Hv. exact Hv.
Qed.

Lemma enhance_trace img tr :
  exists enhanced computed,
    enhance_image_ai img tr =
      (Ret (img :: enhanced), tr ++ EvEnhance :: map EvComputed computed) /\
    (OPENCV_AVAILABLE = false -> forall v, In v computed -> In v basic_variants) /\
    (OPENCV_AVAILABLE = true ->
     forall bgr gray binary,
       cvtColor_bgr img = Ret bgr ->
       fast_rgb_to_gray_simd img = Ret gray ->
       adaptiveThreshold gray = Ret binary ->
       (sr_net_loaded = false /\ enhanced = [binary] /\ computed = [Binary]) \/
       (sr_net_loaded = true /\
        forall sr_gray,
          cvtColor_gray (apply_super_resolution bgr) = Ret sr_gray ->
          enhanced = [binary; sr_gray] /\ computed = [Binary; SuperRes])).
Proof.
  unfold enhance_image_ai. unfold bind at 1. unfold log, modify.
  destruct OPENCV_AVAILABLE eqn:Hcv; cbn [negb].
  - unfold try_except, bind, lift.
    destruct (cvtColor_bgr img) as [bgr|e] eqn:Hbgr.
    2:{ destruct (basic_trace img (tr ++ [EvEnhance])) as (en & co & -> & Hb).
        exists en, co. rewrite <- app_assoc. split; [reflexivity|].
        split; [discriminate|]. intros _ ? ? ? [=]. }
    destruct (fast_rgb_to_gray_simd img) as [gray|e] eqn:Hgray.
    2:{ destruct (basic_trace img (tr ++ [EvEnhance])) as (en & co & -> & Hb).
        exists en, co. rewrite <- app_assoc. split; [reflexivity|].
        split; [discriminate|]. intros _ ? ? ? _ [=]. }
    destruct (adaptiveThreshold gray) as [binary|e] eqn:Hbin.
    2:{ destruct (basic_trace img (tr ++ [EvEnhance])) as (en & co & -> & Hb).
        exists en, co. rewrite <- app_assoc. split; [reflexivity|].
        split; [discriminate|]. intros _ ? ? ? _ [= <-] Hb'. congruence. }
    destruct sr_net_loaded eqn:Hsr.
    + destruct (cvtColor_gray (apply_super_resolution bgr)) as [sr_gray|e] eqn:Hsrg.
      * unfold ret. exists [binary; sr_gray], [Binary; SuperRes].
        rewrite <- !app_assoc. split; [reflexivity|].
        split; [discriminate|]. intros _ ? ? ? [= <-] [= <-] Hb'.
        rewrite Hbin in Hb'. injection Hb' as <-.
        right. split; [reflexivity|]. intros ? Hg. rewrite Hsrg in Hg.
        injection Hg as <-. split; reflexivity.
      * destruct (basic_trace img ((tr ++ [EvEnhance]) ++ [EvComputed Binary]))
          as (en & co & -> & Hb).
        exists en, (Binary :: co). rewrite <- !app_assoc.
        split; [reflexivity|]. split; [discriminate|].
        intros _ ? ? ? [= <-] _ _. right. split; [reflexivity|].
        intros ? Hg. rewrite Hsrg in Hg. discriminate.
    + unfold ret. exists [binary], [Binary]. rewrite <- !app_assoc.
      split; [reflexivity|]. split; [discriminate|].
      intros _ ? ? ? _ [= <-] Hb'. rewrite Hbin in Hb'. injection Hb' as <-.
      left. repeat split.
  - destruct (basic_trace img (tr ++ [EvEnhance])) as (en & co & -> & Hb).
    exists en, co. rewrite <- app_assoc. split; [reflexivity|].
    split; [intros _; exact Hb | discriminate].
Qed.

Definition race : list event :=
  [EvSubmit "original"; EvSubmit "1280x720"; EvSubmit "40%"].

(** The first pass on the three candidates, from an empty trace. *)
Lemma scan_region_first_pass x y width height img img_1280 img_40 :
  capture x y width height = Ret (Some img) ->
  resized img = Ret (img_1280, img_40) ->
  scan_region x y width height [] =
    match first_completed (candidates img img_1280 img_40)
            (as_completed (candidates img img_1280 img_40)) with
    | Ret (Some (qr_code, _)) =>
        (Ret (Some qr_code), race ++ roi_events x y width height)
    | Ret None =>
        try_except
          (let* enhanced_images := enhance_image_ai img_1280 in
           decode_enhanced x y width height 1 (tail enhanced_images))
          (fun _ => ret None) race
    | Exc _ => (Ret None, race)
    end.
Proof.
  intros Hcap Hres. unfold scan_region, try_except.
  unfold bind at 1. unfold lift at 1. rewrite Hcap.
  unfold bind at 1. unfold lift at 1.
  unfold bind at 1. unfold lift at 1. rewrite Hres.
  cbn [fst snd].
  unfold bind at 1. unfold try_decode_parallel.
  rewrite (bind_ok _ _ _ _ _ (submit_all_trace _ _)). unfold lift at 1.
  change ([] ++ map (fun c => EvSubmit (fst c)) (candidates img img_1280 img_40))
    with race.
  destruct (first_completed _ _) as [[[qr_code m]|]|e].
  - rewrite (bind_ok _ _ _ _ _ (record_roi_trace _ _ _ _ _)). reflexivity.
  - reflexivity.
  - reflexivity.
Qed.

End Facts.

(** C8, as amended.  On a scan cycle whose capture and resizing succeed,
    [scan_region] first submits exactly the three cheap candidates (the raw
    image, the resize fitted to 1280x720, the 40% downscale) to the race.
    If one of them decodes, the cycle ends there: nothing is enhanced.  If
    none decodes, [enhance_image_ai] runs on the 1280x720 image and its
    candidates are decoded one at a time, in order, up to the first that
    decodes.  With OpenCV at work these candidates are the adaptive
    binarization, always, and the super-resolution image, only when the
    model is loaded; without OpenCV only the basic variants (contrast,
    sharpness, combined) are computed. *)
Theorem cheap_race_then_sequential_enhancement `{Libraries}
  x y width height img img_1280 img_40 :
  capture x y width height = Ret (Some img) ->
  resized img = Ret (img_1280, img_40) ->
  Permutation (as_completed (candidates img img_1280 img_40)) [0; 1; 2]%nat ->
  ((exists c, In c [img; img_1280; img_40] /\ is_Some (decodes c)) ->
   exists c qr,
     In c [img; img_1280; img_40] /\ decodes c = Some qr /\
     scan_region x y width height [] =
       (Ret (Some qr), race ++ roi_events x y width height)) /\
  ((forall c, In c [img; img_1280; img_40] -> decodes c = None) ->
   exists enhanced computed,
     enhance_image_ai img_1280 race =
       (Ret (img_1280 :: enhanced),
        race ++ EvEnhance :: map EvComputed computed) /\
     scan_region x y width height [] =
       match list_find (fun i => is_Some (decodes i)) enhanced with
       | Some (j, i) =>
           (Ret (decodes i),
            (race ++ EvEnhance :: map EvComputed computed)
              ++ map EvDecode (seq 1 (S j)) ++ roi_events x y width height)
       | None =>
           (Ret None,
            (race ++ EvEnhance :: map EvComputed computed)
              ++ map EvDecode (seq 1 (length enhanced)))
       end /\
     (OPENCV_AVAILABLE = false ->
      forall v, In v computed -> In v basic_variants) /\
     (OPENCV_AVAILABLE = true ->
      forall bgr gray binary,
        cvtColor_bgr img_1280 = Ret bgr ->
        fast_rgb_to_gray_simd img_1280 = Ret gray ->
        adaptiveThreshold gray = Ret binary ->
        (sr_net_loaded = false /\ enhanced = [binary] /\ computed = [Binary]) \/
        (sr_net_loaded = true /\
         forall sr_gray,
           cvtColor_gray (apply_super_resolution bgr) = Ret sr_gray ->
           enhanced = [binary; sr_gray] /\ computed = [Binary; SuperRes]))).
Proof.
  intros Hcap Hres Hperm.
  pose proof (scan_region_first_pass x y width height img img_1280 img_40
                Hcap Hres) as Hscan.
  set (cands := candidates img img_1280 img_40) in *.
  assert (Hidx : forall i m c, nth_error cands i = Some (m, c) ->
                               In c [img; img_1280; img_40]).
  { intros [|[|[|i]]] m c; simpl; intros [=]; subst; auto.
    destruct i; discriminate. }
  split.
  - intros (c & Hc & Hs).
    destruct (first_completed_cases cands (as_completed cands))
      as [Hnone|(qr & m & Hsome)].
    + exfalso.
      assert (Hi : exists i m, In i (as_completed cands) /\
                               nth_error cands i = Some (m, c)).
      { destruct Hc as [<-|[<-|[<-|[]]]].
        - exists 0%nat, "original". split; [|reflexivity].
          apply (Permutation_in _ (Permutation_sym Hperm)). simpl. auto.
        - exists 1%nat, "1280x720". split; [|reflexivity].
          apply (Permutation_in _ (Permutation_sym Hperm)). simpl. auto.
        - exists 2%nat, "40%". split; [|reflexivity].
          apply (Permutation_in _ (Permutation_sym Hperm)). simpl. auto. }
      destruct Hi as (i & m & Hi & Hn).
      rewrite (first_completed_none_inv _ _ Hnone i m c Hi Hn) in Hs.
      destruct Hs as [? ?]. discriminate.
    + destruct (first_completed_some _ _ _ _ Hsome) as (i & c' & _ & Hn & Hd).
      exists c', qr. split; [exact (Hidx _ _ _ Hn)|]. split; [exact Hd|].
      rewrite Hscan, Hsome. reflexivity.
  - intros Hall.
    assert (Hnone : first_completed cands (as_completed cands) = Ret None).
    { apply first_completed_none. intros i m c _ Hn.
      apply Hall. exact (Hidx _ _ _ Hn). }
    rewrite Hnone in Hscan.
    destruct (enhance_trace img_1280 race) as (enhanced & computed & He & Hb & Hcv).
    exists enhanced, computed. split; [exact He|].
    split; [|split; [exact Hb | exact Hcv]].
    rewrite Hscan. unfold try_except. rewrite (bind_ok _ _ _ _ _ He).
    cbn [tail]. rewrite decode_enhanced_trace.
    destruct (list_find _ enhanced) as [[j i]|]; reflexivity.
Qed.


End PassOrderFacts.

(** ** A test bench for the decode engine

    An image is stood for by the text of the QR code it shows ([""] when
    there is none to read); the screen shows [screen].  pyzbar reads the
    text off any image that has one.  Resizing keeps the text; adaptive
    binarization turns the blurred code ["blurred"] into a readable one. *)

Module ScannerBench.
Import Scanner.

Definition sharp_code : string := "G152#KURO?t=0123456789abcdef01234567".

Definition bench (screen : string) (opencv sr : bool) : Libraries :=
  {| Image := string;
     img_width := fun _ => 800;
     img_height := fun _ => 800;
     resize := fun img _ _ => Ret img;
     ImageGrab_grab := fun _ _ _ _ => Ret screen;
     enhance_contrast := fun img _ => Ret img;
     enhance_sharpness := fun img _ => Ret img;
     decode := fun img =>
       if String.eqb img "" || String.eqb img "blurred" then Ret []
       else Ret [Ret img];
     OPENCV_AVAILABLE := opencv;
     ROI_DETECTOR_AVAILABLE := true;
     scale_factor := 1%float;
     wechat_detector := None;
     dxgi_screenshot := None;
     fast_screenshot := None;
     sr_net_loaded := sr;
     ai_enabled := sr;
     cvtColor_bgr := fun img => Ret img;
     cvtColor_gray := fun img => Ret img;
     fast_rgb_to_gray_simd := fun img => Ret img;
     adaptiveThreshold := fun img =>
       if String.eqb img "blurred" then Ret sharp_code else Ret img;
     sr_forward := fun img => Ret img;
     as_completed := fun images => [2; 0; 1]%nat |}.

End ScannerBench.

Module ScannerExamples.
Import Scanner ScannerFacts PassOrderFacts ScannerBench.

(** A QR code of some other application on screen: pyzbar reads it, the
    marker test drops it, and [scan_region] returns [None]. *)
Example foreign_code_dropped :
  @scan_region (bench "https://example.com/login?t=42" true false)
     0 0 800 800 [] =
  (Ret None,
   race ++ [EvEnhance; EvComputed Binary; EvDecode 1]).
Proof. vm_compute. reflexivity. Qed.

(** The game's code on screen: the race decodes it. *)
Example game_code_decoded :
  @scan_region (bench sharp_code true false) 0 0 800 800 [] =
  (Ret (Some sharp_code), race ++ [EvRoiRecord 0 0 800 800]).
Proof. vm_compute. reflexivity. Qed.

Lemma unmarked_payload_never_returned_witness :
  PyStr.str_in "KURO" "https://example.com/login?t=42" = false /\
  forall img,
    exists r,
      @try_decode_qr (bench "https://example.com/login?t=42" true false) img
        = Ret r /\
      r <> Some "https://example.com/login?t=42".
Proof.
  split; [reflexivity|].
  apply (@unmarked_payload_never_returned
           (bench "https://example.com/login?t=42" true false)
           "https://example.com/login?t=42").
  reflexivity.
Defined.

(** A blurred code on screen, OpenCV at work, no model: the three cheap
    candidates fail, the binarized image decodes. *)
Lemma cheap_race_then_sequential_enhancement_witness :
  @scan_region (bench "blurred" true false) 0 0 800 800 [] =
  (Ret (Some sharp_code),
   race ++ [EvEnhance; EvComputed Binary; EvDecode 1; EvRoiRecord 0 0 800 800]).
Proof.
  pose proof (@cheap_race_then_sequential_enhancement
                (bench "blurred" true false) 0 0 800 800
                "blurred" "blurred" "blurred"
                eq_refl eq_refl) as Hc.
  assert (Hperm : Permutation [2; 0; 1]%nat [0; 1; 2]%nat).
  { apply perm_trans with [0; 2; 1]%nat.
    - apply perm_swap.
    - apply perm_skip, perm_swap. }
  destruct (Hc Hperm) as [_ Hnone].
  destruct Hnone as (enhanced & computed & He & Hs & _ & Hcv).
  - intros c [<-|[<-|[<-|[]]]]; reflexivity.
  - destruct (Hcv eq_refl "blurred" "blurred" sharp_code eq_refl eq_refl eq_refl)
      as [(_ & -> & ->)|(Hsr & _)]; [|discriminate Hsr].
    exact Hs.
Defined.

(** C8 as stated fails: without OpenCV the enhancement pass runs and no
    binarization is computed; the candidates are the contrast, sharpness and
    combined variants. *)
Lemma binarization_not_always :
  @scan_region (bench "blurred" false false) 0 0 800 800 [] =
    (Ret None,
     race ++ [EvEnhance; EvComputed Contrast; EvComputed Sharpness;
              EvComputed Combined; EvDecode 1; EvDecode 2; EvDecode 3]) /\
  ~ (forall (L : Libraries) x y width height r tr,
        @scan_region L x y width height [] = (Ret r, tr) ->
        In EvEnhance tr -> In (EvComputed Binary) tr).
Proof.
  assert (E : @scan_region (bench "blurred" false false) 0 0 800 800 [] =
    (Ret None,
     race ++ [EvEnhance; EvComputed Contrast; EvComputed Sharpness;
              EvComputed Combined; EvDecode 1; EvDecode 2; EvDecode 3])).
  { vm_compute. reflexivity. }
  split; [exact E|].
  intros Hall. specialize (Hall _ _ _ _ _ _ _ E).
  simpl in Hall.
  destruct Hall as [Hb|[Hb|[Hb|[Hb|[Hb|[Hb|[Hb|[Hb|[Hb|[Hb|[]]]]]]]]]]];
    try discriminate Hb.
  do 3 right. left. reflexivity.
Qed.

End ScannerExamples.

(** ** Ticket tracking *)

Module ScanWindowFacts.
Import ScanWindow.

Definition long (qr_code : string) : Prop := (24 <= String.length qr_code)%nat.
Definition short (qr_code : string) : Prop := (String.length qr_code < 24)%nat.

Definition no_reset (evs : list event) : Prop :=
  Forall (fun e => is_reset e = false) evs.

Definition emitted (evs : list event) (s : state) : list string :=
  snd (fst (run evs s)).
Definition observed (evs : list event) (s : state) : list observation :=
  snd (run evs s).

Lemma run_cons e evs s :
  run (e :: evs) s =
  (fst (fst (run evs (fst (step e s)))),
   snd (step e s) ++ snd (fst (run evs (fst (step e s)))),
   observe e s ++ snd (run evs (fst (step e s)))).
Proof.
  cbn [run]. destruct (step e s) as [s1 out1]. cbn [fst snd].
  destruct (run evs s1) as [[s2 out2] obs2]. reflexivity.
Qed.

Lemma long_leb qr_code : long qr_code -> (24 <=? String.length qr_code)%nat = true.
Proof. intros Hl. apply Nat.leb_le. exact Hl. Qed.

Lemma short_leb qr_code : short qr_code -> (24 <=? String.length qr_code)%nat = false.
Proof. intros Hl. apply Nat.leb_gt. exact Hl. Qed.

Lemma long_or_short qr_code : long qr_code \/ short qr_code.
Proof. unfold long, short. lia. Qed.

(** An event that decodes nothing and is no reset leaves the ticket. *)
Lemma step_quiet e s :
  is_reset e = false -> decoded e s = None ->
  last_ticket (fst (step e s)) = last_ticket s /\ snd (step e s) = [].
Proof.
  destruct e as [[qr|]| | | |]; cbn; try discriminate; intros _; auto.
  - unfold scan_qr_code.
    destruct (timer_active s); cbn; [|auto].
    destruct (processing_qr s); cbn; [auto|].
    destruct (PyStr.truthy qr); cbn; [discriminate | auto].
  - intros _. destruct (timer_active s); cbn; [|auto].
    unfold scan_qr_code. destruct (processing_qr s); auto.
Qed.

Lemma decoded_inv e s p :
  decoded e s = Some p ->
  e = Tick (Some p) /\ timer_active s = true /\ processing_qr s = false /\
  PyStr.truthy p = true.
Proof.
  destruct e as [[qr|]| | | |]; cbn; try discriminate.
  destruct (timer_active s); cbn; [|discriminate].
  destruct (processing_qr s); cbn; [discriminate|].
  destruct (PyStr.truthy qr) eqn:Ht; [|discriminate].
  intros [= ->]. auto.
Qed.

(** A long payload: the check compares its ticket with the last one, and
    the ticket is the last one afterwards either way. *)
Lemma step_long e s p :
  decoded e s = Some p -> long p ->
  last_ticket (fst (step e s)) = ticket p /\
  (snd (step e s) = [] /\ ticket p = last_ticket s \/
   snd (step e s) = [p] /\ ticket p <> last_ticket s).
Proof.
  intros Hd Hl. destruct (decoded_inv _ _ _ Hd) as (-> & Ht & Hp & Htr).
  cbn [step]. rewrite Ht. unfold scan_qr_code. rewrite Hp, Htr, (long_leb _ Hl).
  fold (ticket p).
  destruct (String.eqb_spec (ticket p) (last_ticket s)) as [Heq|Hne]; cbn.
  - split; [symmetry; exact Heq | left; split; [reflexivity | exact Heq]].
  - split; [reflexivity | right; split; [reflexivity | exact Hne]].
Qed.

(** A short payload: emitted, the ticket neither read nor written. *)
Lemma step_short e s p :
  decoded e s = Some p -> short p ->
  last_ticket (fst (step e s)) = last_ticket s /\ snd (step e s) = [p].
Proof.
  intros Hd Hl. destruct (decoded_inv _ _ _ Hd) as (-> & Ht & Hp & Htr).
  cbn [step]. rewrite Ht. unfold scan_qr_code. rewrite Hp, Htr, (short_leb _ Hl).
  cbn. auto.
Qed.

Lemma observe_quiet e s : decoded e s = None -> observe e s = [].
Proof. unfold observe. intros ->. reflexivity. Qed.

Lemma observe_decoded e s p :
  decoded e s = Some p ->
  observe e s = [(p, match snd (step e s) with [] => false | _ => true end)].
Proof. unfold observe. intros ->. reflexivity. Qed.

(** With the ticket of [p] already recorded, the next decoded payload, if
    it is [p]-ticketed and long, is suppressed. *)
Lemma first_observation_suppressed evs :
  forall s p a rest,
    no_reset evs ->
    observed evs s = (p, a) :: rest ->
    long p -> last_ticket s = ticket p ->
    a = false.
Proof.
  induction evs as [|e evs IH]; intros s p a rest Hnr Hobs Hl Ht.
  - discriminate.
  - unfold observed in *. rewrite run_cons in Hobs. cbn [snd] in Hobs.
    inversion Hnr as [|? ? He Hnr']; subst.
    destruct (decoded e s) as [q|] eqn:Hd.
    + rewrite (observe_decoded _ _ _ Hd) in Hobs. injection Hobs as -> <- _.
      destruct (step_long _ _ _ Hd Hl) as [_ [[-> _]|[_ Hne]]];
        [reflexivity | congruence].
    + rewrite (observe_quiet _ _ Hd) in Hobs. cbn [app] in Hobs.
      destruct (step_quiet _ _ He Hd) as [Hlt _].
      apply (IH _ _ _ _ Hnr' Hobs Hl). rewrite Hlt. exact Ht.
Qed.

(** With no reset, a long payload is emitted only if its ticket differs
    from the one recorded when the short emissions before it began. *)
Lemma first_long_emission_is_new evs :
  forall s mid p rest,
    no_reset evs ->
    emitted evs s = mid ++ p :: rest ->
    Forall short mid -> long p ->
    ticket p <> last_ticket s.
Proof.
  induction evs as [|e evs IH]; intros s mid p rest Hnr Hout Hmid Hl.
  - destruct mid; discriminate.
  - unfold emitted in *. rewrite run_cons in Hout. cbn [fst snd] in Hout.
    inversion Hnr as [|? ? He Hnr']; subst.
    destruct (decoded e s) as [q|] eqn:Hd.
    + destruct (long_or_short q) as [Hq|Hq].
      * destruct (step_long _ _ _ Hd Hq) as [Hlt [[Hs Heq]|[Hs Hne]]];
          rewrite Hs in Hout; cbn [app] in Hout.
        -- apply (IH _ _ _ _ Hnr') in Hout; try assumption.
           rewrite Hlt, Heq in Hout. exact Hout.
        -- destruct mid as [|m mid]; cbn [app] in Hout.
           ++ injection Hout as <- _. exact Hne.
           ++ injection Hout as <- _. inversion Hmid; subst.
              unfold long, short in *. lia.
      * destruct (step_short _ _ _ Hd Hq) as [Hlt Hs].
        rewrite Hs in Hout. cbn [app] in Hout.
        destruct mid as [|m mid]; cbn [app] in Hout.
        -- injection Hout as <- _. unfold long, short in *. lia.
        -- injection Hout as <- Hout. inversion Hmid; subst.
           apply (IH _ _ _ _ Hnr') in Hout; try assumption.
           rewrite Hlt in Hout. exact Hout.
    + destruct (step_quiet _ _ He Hd) as [Hlt Hs].
      rewrite Hs in Hout. cbn [app] in Hout.
      apply (IH _ _ _ _ Hnr') in Hout; try assumption.
      rewrite Hlt in Hout. exact Hout.
Qed.

(** C2, as amended.  Between two resets (a restart of the scan, or the
    clearing of the ticket before the automatic retry), of two payloads of
    at least 24 characters decoded one after the other with the same last
    24 characters, the second is suppressed, so at most one of them is
    emitted; and two payloads of at least 24 characters emitted one after
    the other (short payloads may come between) never carry the same
    ticket.  A ticket can be emitted again once another ticket has been. *)
Theorem same_ticket_not_twice_in_a_row (evs : list event) (s : state) :
  no_reset evs ->
  (forall l1 p1 a1 p2 a2 l2,
      observed evs s = l1 ++ (p1, a1) :: (p2, a2) :: l2 ->
      long p1 -> long p2 -> ticket p1 = ticket p2 ->
      a2 = false /\ a1 && a2 = false) /\
  (forall l1 p1 mid p2 l2,
      emitted evs s = l1 ++ p1 :: mid ++ p2 :: l2 ->
      long p1 -> Forall short mid -> long p2 ->
      ticket p1 <> ticket p2).
Proof.
  intros Hnr. split.
  - revert s Hnr. induction evs as [|e evs IH];
      intros s Hnr l1 p1 a1 p2 a2 l2 Hobs Hl1 Hl2 Ht.
    { destruct l1; discriminate. }
    unfold observed in *. rewrite run_cons in Hobs. cbn [snd] in Hobs.
    inversion Hnr as [|? ? He Hnr']; subst.
    destruct (decoded e s) as [q|] eqn:Hd.
    + rewrite (observe_decoded _ _ _ Hd) in Hobs.
      destruct l1 as [|x l1]; cbn [app] in Hobs.
      * injection Hobs as -> _ Hobs.
        destruct (step_long _ _ _ Hd Hl1) as [Hlt _].
        assert (a2 = false) as ->.
        { apply (first_observation_suppressed _ _ _ _ _ Hnr' Hobs Hl2).
          rewrite Hlt. exact Ht. }
        split; [reflexivity | apply andb_false_r].
      * injection Hobs as _ Hobs.
        exact (IH _ Hnr' _ _ _ _ _ _ Hobs Hl1 Hl2 Ht).
    + rewrite (observe_quiet _ _ Hd) in Hobs. cbn [app] in Hobs.
      exact (IH _ Hnr' _ _ _ _ _ _ Hobs Hl1 Hl2 Ht).
  - revert s Hnr. induction evs as [|e evs IH];
      intros s Hnr l1 p1 mid p2 l2 Hout Hl1 Hmid Hl2.
    { destruct l1; discriminate. }
    unfold emitted in *. rewrite run_cons in Hout. cbn [fst snd] in Hout.
    inversion Hnr as [|? ? He Hnr']; subst.
    assert (Hnil : snd (step e s) = [] ->
                   ticket p1 <> ticket p2).
    { intros Hs. rewrite Hs in Hout. cbn [app] in Hout.
      exact (IH _ Hnr' _ _ _ _ _ Hout Hl1 Hmid Hl2). }
    assert (Hone : forall q, snd (step e s) = [q] ->
                     (long q -> last_ticket (fst (step e s)) = ticket q) ->
                     ticket p1 <> ticket p2).
    { intros q Hs Hlt. rewrite Hs in Hout.
      destruct l1 as [|x l1]; cbn [app] in Hout.
      - injection Hout as -> Hout. intros Heq.
        apply (first_long_emission_is_new _ _ _ _ _ Hnr' Hout Hmid Hl2).
        rewrite (Hlt Hl1). symmetry. exact Heq.
      - injection Hout as _ Hout.
        exact (IH _ Hnr' _ _ _ _ _ Hout Hl1 Hmid Hl2). }
    destruct (decoded e s) as [q|] eqn:Hd.
    + destruct (long_or_short q) as [Hq|Hq].
      * destruct (step_long _ _ _ Hd Hq) as [Hlt [[Hs _]|[Hs _]]].
        -- exact (Hnil Hs).
        -- exact (Hone q Hs (fun _ => Hlt)).
      * destruct (step_short _ _ _ Hd Hq) as [_ Hs].
        apply (Hone q Hs). intros Hq'. unfold long, short in *. lia.
    + destruct (step_quiet _ _ He Hd) as [_ Hs]. exact (Hnil Hs).
Qed.

(** C10.  A payload of fewer than 24 characters is emitted with the last
    ticket neither read (the outcome is the same whatever it holds) nor
    written, and is emitted again on a later cycle, once the processing
    flag has been lowered, with no reset of the ticket in between. *)
Theorem short_payload_bypasses_ticket_check (s : state) (qr_code : string) :
  processing_qr s = false ->
  PyStr.truthy qr_code = true ->
  short qr_code ->
  scan_qr_code (Some qr_code) s =
    ({| processing_qr := true; last_ticket := last_ticket s;
        last_qr_code := Some qr_code; timer_active := timer_active s |},
     [qr_code]) /\
  (forall t,
      snd (scan_qr_code (Some qr_code)
             {| processing_qr := false; last_ticket := t;
                last_qr_code := last_qr_code s;
                timer_active := timer_active s |}) = [qr_code]) /\
  (timer_active s = true ->
   no_reset [Tick (Some qr_code); ResetProcessing; Tick (Some qr_code)] /\
   emitted [Tick (Some qr_code); ResetProcessing; Tick (Some qr_code)] s =
     [qr_code; qr_code]).
Proof.
  intros Hp Ht Hs.
  assert (Hemit : forall s', processing_qr s' = false ->
            scan_qr_code (Some qr_code) s' =
              ({| processing_qr := true; last_ticket := last_ticket s';
                  last_qr_code := Some qr_code;
                  timer_active := timer_active s' |}, [qr_code])).
  { intros s' Hp'. unfold scan_qr_code.
    rewrite Hp', Ht, (short_leb _ Hs). reflexivity. }
  split; [exact (Hemit s Hp)|]. split.
  - intros t. rewrite Hemit; reflexivity.
  - intros Ha. split; [repeat constructor|].
    unfold emitted. cbn [run step]. rewrite Ha, (Hemit s Hp).
    cbn [reset_processing timer_active].
    rewrite Hemit by reflexivity. reflexivity.
Qed.

End ScanWindowFacts.

Module ScanWindowExamples.
Import ScanWindow ScanWindowFacts.

Definition code_A : string := "G152#KURO?t=AAAAAAAAAAAAAAAAAAAAAAAA".
Definition code_B : string := "G152#KURO?t=BBBBBBBBBBBBBBBBBBBBBBBB".

(** A scan window on which scanning was just started. *)
Definition scanning : state := start_scanning initial.

Example ticket_A : ticket code_A = "AAAAAAAAAAAAAAAAAAAAAAAA".
Proof. reflexivity. Qed.

Example ticket_of_short : PyStr.last_chars 24 "KURO" = "KURO".
Proof. reflexivity. Qed.

(** The same code seen on two cycles, three seconds apart. *)
Definition seen_twice : list event :=
  [Tick (Some code_A); Tick (Some code_A); ResetProcessing; Tick (Some code_A)].

Example seen_twice_emitted_once :
  emitted seen_twice scanning = [code_A] /\
  observed seen_twice scanning = [(code_A, true); (code_A, false)].
Proof. split; reflexivity. Qed.

Lemma same_ticket_not_twice_in_a_row_witness :
  no_reset seen_twice /\
  (forall l1 p1 a1 p2 a2 l2,
      observed seen_twice scanning = l1 ++ (p1, a1) :: (p2, a2) :: l2 ->
      long p1 -> long p2 -> ticket p1 = ticket p2 ->
      a2 = false /\ a1 && a2 = false).
Proof.
  assert (Hnr : no_reset seen_twice) by (repeat constructor).
  split; [exact Hnr|].
  exact (proj1 (same_ticket_not_twice_in_a_row seen_twice scanning Hnr)).
Defined.

(** Code A, then code B, then code A again, each three seconds after the
    last: no reset takes place. *)
Definition A_B_A : list event :=
  [Tick (Some code_A); ResetProcessing;
   Tick (Some code_B); ResetProcessing;
   Tick (Some code_A)].

(** A short marked payload seen on two cycles. *)
Definition short_twice : list event :=
  [Tick (Some "KURO"); ResetProcessing; Tick (Some "KURO")].

(** C2 as stated fails twice over.  Only the last ticket is remembered, so
    a ticket is offered again once another one has been offered in between;
    and payloads of fewer than 24 characters, whose last 24 characters are
    the whole payload, are emitted every time. *)
Lemma ticket_offered_again :
  (no_reset A_B_A /\ emitted A_B_A scanning = [code_A; code_B; code_A]) /\
  ~ (forall evs s, no_reset evs -> NoDup (map ticket (emitted evs s))) /\
  (no_reset short_twice /\
   observed short_twice scanning = [("KURO", true); ("KURO", true)]) /\
  ~ (forall evs s l1 p1 a1 p2 a2 l2,
        no_reset evs ->
        observed evs s = l1 ++ (p1, a1) :: (p2, a2) :: l2 ->
        PyStr.last_chars 24 p1 = PyStr.last_chars 24 p2 ->
        a1 && a2 = false).
Proof.
  assert (HnrA : no_reset A_B_A) by (repeat constructor).
  assert (HnrS : no_reset short_twice) by (repeat constructor).
  split; [split; [exact HnrA | reflexivity]|].
  split.
  - intros Hall. specialize (Hall A_B_A scanning HnrA).
    change (map ticket (emitted A_B_A scanning))
      with [ticket code_A; ticket code_B; ticket code_A] in Hall.
    inversion Hall as [|? ? Hnotin _]; subst.
    apply Hnotin. right. left.
  - split; [split; [exact HnrS | reflexivity]|].
    intros Hall.
    specialize (Hall short_twice scanning [] "KURO" true "KURO" true []
                     HnrS eq_refl eq_refl).
    discriminate Hall.
Qed.

Lemma short_payload_bypasses_ticket_check_witness :
  scan_qr_code (Some "KURO") scanning =
    ({| processing_qr := true; last_ticket := "";
        last_qr_code := Some "KURO"; timer_active := true |}, ["KURO"]) /\
  emitted short_twice scanning = ["KURO"; "KURO"].
Proof.
  destruct (short_payload_bypasses_ticket_check scanning "KURO")
    as (Hemit & _ & Hagain).
  - reflexivity.
  - reflexivity.
  - unfold short. simpl. lia.
  - split; [exact Hemit|]. exact (proj2 (Hagain eq_refl)).
Defined.

(** The frame loop of the live stream scanner differs: there a payload of
    fewer than 24 characters is not emitted at all. *)
Remark live_stream_drops_short (qr_code : string) (last_ticket : string) :
  short qr_code ->
  LiveStream.on_frame (Some qr_code) last_ticket = (last_ticket, []).
Proof.
  intros Hs. unfold LiveStream.on_frame.
  rewrite (short_leb _ Hs), andb_false_r. reflexivity.
Qed.

End ScanWindowExamples.

(** ** Region prediction *)

Module ROIFacts.
Import ROI.

Lemma deque_append_tail {A} (maxlen : Z) (l t : list A) (a : A) :
  Z.of_nat (length t) + 1 <= maxlen ->
  exists l', deque_append maxlen (l ++ t) a = l' ++ t ++ [a].
Proof.
  intros Hm. unfold deque_append. rewrite !length_app. cbn [length].
  set (k := Z.to_nat (Z.of_nat (length l + length t + 1) - maxlen)).
  assert (Hk : (k <= length l)%nat) by (unfold k; lia).
  exists (skipn k l). rewrite <- app_assoc, skipn_app.
  replace (k - length l)%nat with 0%nat by lia. reflexivity.
Qed.

Lemma slice_last_3 {A} (l : list A) (a b c : A) :
  slice_last 3 (l ++ [a; b; c]) = [a; b; c].
Proof.
  unfold slice_last. cbn [Z.eqb Z.ltb Z.compare].
  rewrite length_app. cbn [length].
  replace (Z.to_nat (Z.of_nat (length l + 3) - 3)) with (length l) by lia.
  rewrite skipn_app, skipn_all, Nat.sub_diag. reflexivity.
Qed.

Lemma truediv_3 (a : Z) :
  PyFloat.truediv a 3 = Ret (PrimFloat.div (PyFloat.of_Z a) (PyFloat.of_Z 3)).
Proof. reflexivity. Qed.

Lemma average_of_three (l : list position) :
  length l = 3%nat -> exists a, average l = Ret a.
Proof.
  intros Hn. unfold average. rewrite Hn. change (Z.of_nat 3) with 3.
  rewrite !truediv_3. cbn [rbind]. eexists. reflexivity.
Qed.

(** With a threshold of three, [_update_prediction] returns, and touches
    only the prediction. *)
Lemma update_prediction_returns (d : detector) :
  confidence_threshold d = 3 ->
  exists p c, _update_prediction d = Ret (with_prediction d p c).
Proof.
  intros Ht. unfold _update_prediction. rewrite Ht.
  destruct (Z.of_nat (length (position_history d)) <? 3) eqn:Hlen.
  - eexists _, _. reflexivity.
  - apply Z.ltb_ge in Hlen.
    assert (Hn : length (slice_last 3 (position_history d)) = 3%nat).
    { unfold slice_last. cbn [Z.eqb Z.ltb Z.compare].
      rewrite length_skipn. lia. }
    destruct (average_of_three _ Hn) as [a ->]. cbn [rbind].
    rewrite Hn. change (Z.of_nat 3) with 3. rewrite truediv_3. cbn [rbind].
    destruct (3 <=? _); eexists _, _; reflexivity.
Qed.

(** Recording one more detection keeps the last few entries, as long as
    they fit under [history_size]. *)
Lemma add_detection_returns x y width height now (d : detector) l t :
  confidence_threshold d = 3 ->
  position_history d = l ++ t ->
  Z.of_nat (length t) + 1 <= history_size d ->
  exists d' l',
    add_detection x y width height now d = Ret d' /\
    history_size d' = history_size d /\
    confidence_threshold d' = 3 /\
    position_history d' = l' ++ t ++ [mk_position x y width height now].
Proof.
  intros Ht Hh Hs. unfold add_detection. rewrite Hh.
  destruct (deque_append_tail (history_size d) l t
              (mk_position x y width height now) Hs) as [l' Hl].
  match goal with |- context [_update_prediction ?d1] =>
    destruct (update_prediction_returns d1 Ht) as (p & c & ->) end.
  eexists _, l'. split; [reflexivity|]. cbn. rewrite Hl. auto.
Qed.

(** The prediction made from three entries that all pass the test. *)
Lemma update_prediction_three (d : detector) l p1 p2 p3 a :
  confidence_threshold d = 3 ->
  position_history d = l ++ [p1; p2; p3] ->
  average [p1; p2; p3] = Ret a ->
  is_similar a p1 = true -> is_similar a p2 = true -> is_similar a p3 = true ->
  exists c, _update_prediction d = Ret (with_prediction d (Some (expanded a)) c).
Proof.
  intros Ht Hh Ha H1 H2 H3. unfold _update_prediction. rewrite Ht, Hh.
  rewrite length_app. cbn [length].
  replace (Z.of_nat (length l + 3) <? 3) with false
    by (symmetry; apply Z.ltb_ge; lia).
  rewrite slice_last_3, Ha. cbn [rbind].
  unfold similar_count. cbn [fold_left]. rewrite H1, H2, H3.
  cbn [Z.add Pos.add Pos.succ Z.leb Z.compare Pos.compare Pos.compare_cont length].
  change (Z.of_nat 3) with 3. rewrite truediv_3. cbn [rbind].
  eexists. reflexivity.
Qed.

(** Below the threshold no prediction is kept. *)
Lemma add_detection_few x y width height now (d : detector) :
  history_size d = 5 -> confidence_threshold d = 3 ->
  (length (position_history d) < 2)%nat ->
  add_detection x y width height now d =
    Ret {| history_size := 5;
           confidence_threshold := 3;
           position_history :=
             position_history d ++ [mk_position x y width height now];
           predicted_roi := None;
           prediction_confidence := 0%float;
           total_predictions := total_predictions d;
           successful_predictions := successful_predictions d |}.
Proof.
  intros Hs Ht Hlen. unfold add_detection, deque_append. rewrite Hs.
  rewrite length_app. cbn [length].
  replace (Z.to_nat (Z.of_nat (length (position_history d) + 1) - 5))
    with 0%nat by lia.
  rewrite skipn_O. unfold _update_prediction.
  cbn [position_history confidence_threshold]. rewrite Ht, length_app.
  cbn [length].
  replace (Z.of_nat (length (position_history d) + 1) <? 3) with true
    by (symmetry; apply Z.ltb_lt; lia).
  unfold with_prediction. reflexivity.
Qed.

(** C3, as amended.  For the module's detector (history of five, threshold
    of three): record three regions, each of which differs from the
    average of the three by less than 15% of the average width in [x] and
    in width, and by less than 15% of the average height in [y] and in
    height; as long as the last of them is less than three seconds old,
    [get_predicted_roi] returns the average moved out by 10% of the average
    size on each side (so 120% as wide and as high), cut to integers.
    After a reset, with two regions recorded, it returns [None]. *)
Theorem three_similar_regions_predict (d : detector)
  (p1 p2 p3 : position) (a : averages) (now : float) :
  history_size d = 5 ->
  confidence_threshold d = 3 ->
  average [p1; p2; p3] = Ret a ->
  is_similar a p1 = true -> is_similar a p2 = true -> is_similar a p3 = true ->
  PrimFloat.ltb (now - pos_t p3) 3.0 = true ->
  (exists d', record_all [p1; p2; p3] d = Ret d' /\
              get_predicted_roi now d' = Some (expanded a)) /\
  (forall now', exists d', record_all [p1; p2] (reset d) = Ret d' /\
                           get_predicted_roi now' d' = None).
Proof.
  intros Hs Ht Ha H1 H2 H3 Hfresh. split.
  - destruct p1 as [x1 y1 w1 h1 t1], p2 as [x2 y2 w2 h2 t2],
             p3 as [x3 y3 w3 h3 t3].
    cbn [record_all pos_x pos_y pos_w pos_h pos_t].
    destruct (add_detection_returns x1 y1 w1 h1 t1 d (position_history d) [])
      as (d1 & l1 & -> & Hs1 & Ht1 & Hh1);
      [exact Ht | symmetry; apply app_nil_r | rewrite Hs; cbn; lia |].
    cbn [rbind app] in *.
    destruct (add_detection_returns x2 y2 w2 h2 t2 d1 l1 _ Ht1 Hh1)
      as (d2 & l2 & -> & Hs2 & Ht2 & Hh2); [rewrite Hs1, Hs; cbn; lia|].
    cbn [rbind app] in *.
    unfold add_detection. rewrite Hh2.
    destruct (deque_append_tail (history_size d2) l2
                [mk_position x1 y1 w1 h1 t1; mk_position x2 y2 w2 h2 t2]
                (mk_position x3 y3 w3 h3 t3)) as [l3 Hl3];
      [rewrite Hs2, Hs1, Hs; cbn; lia|].
    rewrite Hl3. cbn [app].
    match goal with |- context [_update_prediction ?d3] =>
      destruct (update_prediction_three d3 l3 _ _ _ a Ht2 eq_refl Ha H1 H2 H3)
        as [c ->] end.
    cbn [rbind]. eexists. split; [reflexivity|].
    unfold get_predicted_roi, with_prediction.
    cbn [predicted_roi position_history].
    change (l3 ++ [mk_position x1 y1 w1 h1 t1; mk_position x2 y2 w2 h2 t2;
                   mk_position x3 y3 w3 h3 t3])
      with (l3 ++ [mk_position x1 y1 w1 h1 t1; mk_position x2 y2 w2 h2 t2]
               ++ [mk_position x3 y3 w3 h3 t3]).
    rewrite app_assoc, last_snoc. cbn [pos_t] in *. rewrite Hfresh.
    reflexivity.
  - intros now'. destruct p1 as [x1 y1 w1 h1 t1], p2 as [x2 y2 w2 h2 t2].
    cbn [record_all pos_x pos_y pos_w pos_h pos_t].
    rewrite (add_detection_few x1 y1 w1 h1 t1 (reset d)) by (cbn; auto; lia).
    cbn [rbind].
    rewrite add_detection_few by (cbn; auto; lia).
    cbn [rbind]. eexists. split; reflexivity.
Qed.

End ROIFacts.

Module ROIExamples.
Import ROI ROIFacts.

(** A code held still: the same 300x300 region three times, half a second
    apart. *)
Definition still (t : float) : position := mk_position 100 200 300 300 t.

Example still_average :
  average [still 10; still 10.5; still 11] = Ret (mk_averages 100 200 300 300).
Proof. vm_compute. reflexivity. Qed.

Lemma three_similar_regions_predict_witness :
  exists d',
    record_all [still 10; still 10.5; still 11] smart_roi_detector = Ret d' /\
    get_predicted_roi 11.5 d' = Some (70, 170, 360, 360).
Proof.
  exact (proj1 (three_similar_regions_predict smart_roi_detector
                  (still 10) (still 10.5) (still 11)
                  (mk_averages 100 200 300 300) 11.5
                  eq_refl eq_refl eq_refl eq_refl eq_refl eq_refl eq_refl)).
Defined.

(** The prediction goes stale three seconds after the last detection. *)
Example stale_after_three_seconds :
  rbind (record_all [still 10; still 10.5; still 11] smart_roi_detector)
        (fun d' => Ret (get_predicted_roi 14 d')) = Ret None.
Proof. vm_compute. reflexivity. Qed.

(** The hypothesis of C3 read as it is worded: every two of the regions
    differ, in each of [x], [y], width and height, by less than 15% of the
    smaller of the two values. *)
Definition rel_close (u v : Z) : bool :=
  100 * Z.abs (u - v) <? 15 * Z.min (Z.abs u) (Z.abs v).

Definition close_regions (p q : position) : bool :=
  rel_close (pos_x p) (pos_x q) && rel_close (pos_y p) (pos_y q)
  && rel_close (pos_w p) (pos_w q) && rel_close (pos_h p) (pos_h q).

Definition mutually_similar (ps : list position) : bool :=
  forallb (fun p => forallb (close_regions p) ps) ps.

(** A 100x100 code far from the origin, drifting 20 pixels at a time. *)
Definition drifting : list position :=
  [mk_position 1000 1000 100 100 10;
   mk_position 1020 1000 100 100 10.5;
   mk_position 1040 1000 100 100 11].

(** C3 as stated fails: the three regions are within 4% of one another in
    every dimension, the last is half a second old, and no region is
    predicted, because 20 pixels is more than 15% of the width. *)
Lemma similar_positions_not_predicted :
  mutually_similar drifting = true /\
  PrimFloat.ltb (11.5 - 11) 3.0 = true /\
  (exists d', record_all drifting smart_roi_detector = Ret d' /\
              get_predicted_roi 11.5 d' = None) /\
  ~ (forall p1 p2 p3 now d',
        mutually_similar [p1; p2; p3] = true ->
        PrimFloat.ltb (now - pos_t p3) 3.0 = true ->
        record_all [p1; p2; p3] smart_roi_detector = Ret d' ->
        get_predicted_roi now d' <> None).
Proof.
  assert (E : exists d', record_all drifting smart_roi_detector = Ret d' /\
                         get_predicted_roi 11.5 d' = None).
  { eexists. split; vm_compute; reflexivity. }
  split; [vm_compute; reflexivity|].
  split; [vm_compute; reflexivity|].
  split; [exact E|].
  intros Hall. destruct E as (d' & Hrec & Hnone).
  apply (Hall _ _ _ 11.5%float d' (eq_refl : mutually_similar drifting = true)
              eq_refl Hrec Hnone).
Qed.

End ROIExamples.

(** ** Remote calls *)

Module KuroAPIFacts.
Import KuroAPI MFacts.

(** The world after some more requests were handed to the session. *)
Definition with_sent (w : world) (reqs : list request) : world :=
  {| sent := sent w ++ reqs; calls := calls w; token := token w;
     header_token := header_token w;
     connection_warmed := connection_warmed w |}.

Definition with_call (w : world) (c : call) : world :=
  {| sent := sent w; calls := calls w ++ [c]; token := token w;
     header_token := header_token w;
     connection_warmed := connection_warmed w |}.

Definition post_request (url : string) (data : body) (w : world)
  (timeout : float) : request :=
  {| req_method := "POST"; req_url := url; req_data := Some data;
     req_token := header_token w; req_timeout := timeout |}.

Lemma with_sent_nil w : with_sent w [] = w.
Proof. destruct w. unfold with_sent. cbn. rewrite app_nil_r. reflexivity. Qed.

Lemma with_sent_app w reqs1 reqs2 :
  with_sent (with_sent w reqs1) reqs2 = with_sent w (reqs1 ++ reqs2).
Proof. unfold with_sent. cbn. rewrite app_assoc. reflexivity. Qed.

Lemma truthy_append_cons c s t : PyStr.truthy (String c s +:+ t) = true.
Proof. reflexivity. Qed.

Section Facts.
Context `{Network}.

(** What one attempt comes to: the decoded response, or the exception of
    [session.post] or of [response.json()]. *)
Definition outcome (history : list request) (req : request) : result json :=
  match send history req with
  | Ret response => response
  | Exc e => Exc e
  end.

Definition timed_out (history : list request) (req : request) : Prop :=
  exists e, outcome history req = Exc e /\ exc_is_timeout e = true.

Definition timeout_message (timeout : float) : string :=
  "请求超时(>" +:+ float_repr timeout +:+ "s)".

Lemma attempt_step url data timeout w :
  (let* response := session_post url data timeout in lift response) w =
  (outcome (sent w) (post_request url data w timeout),
   with_sent w [post_request url data w timeout]).
Proof.
  unfold bind, session_post, session_send, lift, outcome.
  fold (post_request url data w timeout).
  fold (with_sent w [post_request url data w timeout]).
  destruct (send (sent w) (post_request url data w timeout)) as [[v|e]|e];
    reflexivity.
Qed.

(** The ladder, whatever the network does: it returns; its requests are
    the first few rungs, in order; every request but the last one timed
    out; and the value is the last response decoded, or a failure
    dictionary. *)
Lemma attempts_trace url data timeouts :
  forall last_error w,
  exists r reqs,
    attempts url data timeouts last_error w = (Ret r, with_sent w reqs) /\
    reqs = map (post_request url data w) (firstn (length reqs) timeouts) /\
    (length reqs <= length timeouts)%nat /\
    (timeouts <> [] -> reqs <> []) /\
    (forall pre req post,
        reqs = pre ++ req :: post -> post <> [] ->
        timed_out (sent w ++ pre) req) /\
    ((exists msg, r = failure msg) \/
     (exists pre req, reqs = pre ++ [req] /\
                      outcome (sent w ++ pre) req = Ret r)).
Proof.
  induction timeouts as [|timeout rest IH]; intros last_error w.
  - exists (failure (or_default last_error)), [].
    cbn [attempts]. unfold ret. rewrite with_sent_nil.
    repeat split; try reflexivity; try congruence.
    + intros pre req post Hp. destruct pre; discriminate.
    + left. eexists. reflexivity.
  - cbn [attempts]. unfold try_except. rewrite attempt_step.
    set (req := post_request url data w timeout).
    destruct (outcome (sent w) req) as [v|e] eqn:Hout.
    + exists v, [req]. repeat split; try reflexivity.
      * cbn. lia.
      * discriminate.
      * intros pre r post Hp Hpost.
        destruct pre as [|? [|? ?]]; try discriminate.
        injection Hp as _ <-. congruence.
      * right. exists [], req. rewrite app_nil_r. split; [reflexivity|exact Hout].
    + destruct (exc_is_timeout e) eqn:Ht.
      * destruct (IH (Some ("请求超时(>" +:+ float_repr timeout +:+ "s)"))
                     (with_sent w [req]))
          as (r & reqs & Hrun & Hreqs & Hlen & _ & Hpre & Hlast).
        exists r, (req :: reqs). rewrite Hrun, with_sent_app.
        repeat split; try reflexivity.
        -- cbn [length firstn map]. f_equal. exact Hreqs.
        -- cbn [length]. lia.
        -- discriminate.
        -- intros pre r0 post Hp Hpost. destruct pre as [|p0 pre].
           ++ injection Hp as <- _. rewrite app_nil_r.
              exists e. split; [exact Hout | exact Ht].
           ++ injection Hp as <- Hp. specialize (Hpre pre r0 post Hp Hpost).
              cbn [with_sent sent] in Hpre. rewrite <- app_assoc in Hpre.
              exact Hpre.
        -- destruct Hlast as [Hf|(pre & r0 & Hp & Ho)]; [left; exact Hf|].
           right. exists (req :: pre), r0. split.
           ++ rewrite Hp. reflexivity.
           ++ cbn [with_sent sent] in Ho. rewrite <- app_assoc in Ho. exact Ho.
      * exists (failure (or_default (Some ("请求失败: " +:+ exc_str e)))), [req].
        repeat split; try reflexivity.
        -- cbn. lia.
        -- discriminate.
        -- intros pre r post Hp Hpost.
           destruct pre as [|? [|? ?]]; try discriminate.
           injection Hp as _ <-. congruence.
        -- left. eexists. reflexivity.
Qed.

Lemma last_cons_default {A} (l : list A) (a d : A) :
  List.last (a :: l) d = List.last l a.
Proof.
  revert a d. induction l as [|b l IH]; intros a d; [reflexivity|].
  change (List.last (a :: b :: l) d) with (List.last (b :: l) d).
  rewrite !IH. reflexivity.
Qed.

Lemma attempts_cons url data timeout rest last_error :
  attempts url data (timeout :: rest) last_error =
  try_except
    (let* response := session_post url data timeout in lift response)
    (fun e =>
       if exc_is_timeout e then
         attempts url data rest
           (Some ("请求超时(>" +:+ float_repr timeout +:+ "s)"))
       else
         ret (failure (or_default (Some ("请求失败: " +:+ exc_str e))))).
Proof. reflexivity. Qed.

(** Every rung times out: the whole ladder is climbed. *)
Lemma attempts_all_time_out url data :
  (forall history req, timed_out history req) ->
  forall rest timeout last_error w,
    attempts url data (timeout :: rest) last_error w =
    (Ret (failure (timeout_message (List.last rest timeout))),
     with_sent w (map (post_request url data w) (timeout :: rest))).
Proof.
  intros Hall. induction rest as [|t2 rest IH]; intros timeout last_error w;
    rewrite attempts_cons; unfold try_except; rewrite attempt_step;
    destruct (Hall (sent w) (post_request url data w timeout)) as (e & -> & ->).
  - reflexivity.
  - rewrite IH, with_sent_app, last_cons_default. reflexivity.
Qed.

(** A rung fails otherwise: it is the last. *)
Lemma attempts_other_error url data timeout rest last_error w e :
  outcome (sent w) (post_request url data w timeout) = Exc e ->
  exc_is_timeout e = false ->
  attempts url data (timeout :: rest) last_error w =
  (Ret (failure ("请求失败: " +:+ exc_str e)),
   with_sent w [post_request url data w timeout]).
Proof.
  intros Hout Ht. rewrite attempts_cons. unfold try_except.
  rewrite attempt_step, Hout, Ht. reflexivity.
Qed.

Lemma record_call_run c w : record_call c w = (Ret tt, with_call w c).
Proof. reflexivity. Qed.

Lemma get_role_infos_unfold qr_code smart_retry w :
  get_role_infos qr_code smart_retry w =
  attempts url_roleInfos (Form [("qrCode", qr_code)])
    (role_timeouts smart_retry) None
    (with_call w (CallGetRoleInfos qr_code smart_retry)).
Proof. reflexivity. Qed.

Definition scan_form (qr_code verify_code : string) (auto_login : bool) : body :=
  Form [("autoLogin", if auto_login then "true" else "false");
        ("qrCode", qr_code); ("id", ""); ("verifyCode", verify_code)].

Lemma scan_login_unfold qr_code verify_code auto_login smart_retry w :
  scan_login qr_code verify_code auto_login smart_retry w =
  attempts url_scanLogin (scan_form qr_code verify_code auto_login)
    (scan_timeouts smart_retry) None
    (with_call w (CallScanLogin qr_code verify_code auto_login smart_retry)).
Proof. reflexivity. Qed.

(** C4.  With smart retry on: if every attempt times out, [get_role_infos]
    makes exactly the three attempts of its ladder (0.6 s, 1.2 s, 2.0 s)
    and returns a failure; if the first attempt fails with another error,
    it is the only one; and in every run the requests are the first rungs
    of the ladder in order, a request being followed by another only if it
    timed out.  The same holds of [scan_login] with 0.8 s, 1.5 s, 2.5 s. *)
Theorem timeout_ladder (qr_code verify_code : string) (auto_login : bool)
  (w : world) :
  let wr := with_call w (CallGetRoleInfos qr_code true) in
  let ws := with_call w (CallScanLogin qr_code verify_code auto_login true) in
  let role_req := post_request url_roleInfos (Form [("qrCode", qr_code)]) w in
  let scan_req :=
    post_request url_scanLogin (scan_form qr_code verify_code auto_login) w in
  ((forall history req, timed_out history req) ->
   get_role_infos qr_code true w =
     (Ret (failure (timeout_message 2.0)),
      with_sent wr (map role_req [0.6; 1.2; 2.0]%float)) /\
   scan_login qr_code verify_code auto_login true w =
     (Ret (failure (timeout_message 2.5)),
      with_sent ws (map scan_req [0.8; 1.5; 2.5]%float))) /\
  (forall e, exc_is_timeout e = false ->
     (outcome (sent w) (role_req 0.6%float) = Exc e ->
      get_role_infos qr_code true w =
        (Ret (failure ("请求失败: " +:+ exc_str e)),
         with_sent wr [role_req 0.6%float])) /\
     (outcome (sent w) (scan_req 0.8%float) = Exc e ->
      scan_login qr_code verify_code auto_login true w =
        (Ret (failure ("请求失败: " +:+ exc_str e)),
         with_sent ws [scan_req 0.8%float]))) /\
  (exists r reqs,
     get_role_infos qr_code true w = (Ret r, with_sent wr reqs) /\
     reqs = map role_req (firstn (length reqs) [0.6; 1.2; 2.0]%float) /\
     (1 <= length reqs <= 3)%nat /\
     forall pre req post,
       reqs = pre ++ req :: post -> post <> [] ->
       timed_out (sent w ++ pre) req) /\
  (exists r reqs,
     scan_login qr_code verify_code auto_login true w =
       (Ret r, with_sent ws reqs) /\
     reqs = map scan_req (firstn (length reqs) [0.8; 1.5; 2.5]%float) /\
     (1 <= length reqs <= 3)%nat /\
     forall pre req post,
       reqs = pre ++ req :: post -> post <> [] ->
       timed_out (sent w ++ pre) req).
Proof.
  intros wr ws role_req scan_req. split; [|split; [|split]].
  - intros Hall. split.
    + rewrite get_role_infos_unfold. exact (attempts_all_time_out _ _ Hall _ _ _ _).
    + rewrite scan_login_unfold. exact (attempts_all_time_out _ _ Hall _ _ _ _).
  - intros e Ht. split; intros Hout.
    + rewrite get_role_infos_unfold.
      exact (attempts_other_error _ _ _ _ _ wr e Hout Ht).
    + rewrite scan_login_unfold.
      exact (attempts_other_error _ _ _ _ _ ws e Hout Ht).
  - rewrite get_role_infos_unfold.
    destruct (attempts_trace url_roleInfos (Form [("qrCode", qr_code)])
                (role_timeouts true) None wr)
      as (r & reqs & Hrun & Hreqs & Hlen & Hne & Hpre & _).
    exists r, reqs. split; [exact Hrun|]. split; [exact Hreqs|]. split.
    + split; [|exact Hlen]. destruct reqs; [|cbn; lia].
      exfalso. apply Hne; [discriminate | reflexivity].
    + exact Hpre.
  - rewrite scan_login_unfold.
    destruct (attempts_trace url_scanLogin
                (scan_form qr_code verify_code auto_login)
                (scan_timeouts true) None ws)
      as (r & reqs & Hrun & Hreqs & Hlen & Hne & Hpre & _).
    exists r, reqs. split; [exact Hrun|]. split; [exact Hreqs|]. split.
    + split; [|exact Hlen]. destruct reqs; [|cbn; lia].
      exfalso. apply Hne; [discriminate | reflexivity].
    + exact Hpre.
Qed.

(** A returned value is normalized when it is a failure dictionary
    ([code] -1 and a message) or the decoded body of a response to one of
    the requests the call made. *)
Definition answered (w w' : world) (r : json) : Prop :=
  exists pre req post,
    sent w' = pre ++ req :: post /\
    (length (sent w) <= length pre)%nat /\
    outcome pre req = Ret r.

Definition normalized (w w' : world) (r : json) : Prop :=
  (exists msg, r = failure msg) \/ answered w w' r.

Lemma attempts_normalized url data timeouts last_error w0 w :
  sent w = sent w0 ->
  exists r w',
    attempts url data timeouts last_error w = (Ret r, w') /\ normalized w0 w' r.
Proof.
  intros Hs.
  destruct (attempts_trace url data timeouts last_error w)
    as (r & reqs & Hrun & _ & _ & _ & _ & Hlast).
  exists r, (with_sent w reqs). split; [exact Hrun|].
  destruct Hlast as [Hf|(pre & req & -> & Ho)]; [left; exact Hf|].
  right. exists (sent w ++ pre), req, []. cbn [with_sent sent].
  split; [rewrite app_assoc; reflexivity|]. split; [|exact Ho].
  rewrite length_app, Hs. lia.
Qed.

Lemma warm_up_connection_run w :
  exists w' extra, warm_up_connection w = (Ret tt, w') /\
                   sent w' = sent w ++ extra.
Proof.
  unfold warm_up_connection, try_except, bind, session_head, session_send, modify.
  destruct (send (sent w) _) as [resp|e]; eexists _, [_]; split; reflexivity.
Qed.

Lemma set_token_run tok w :
  exists w' extra, set_token tok w = (Ret tt, w') /\ sent w' = sent w ++ extra.
Proof.
  unfold set_token, bind, modify, get. cbn [connection_warmed].
  destruct (connection_warmed w); cbn [negb].
  - eexists _, []. unfold ret. split; [reflexivity|].
    cbn. rewrite app_nil_r. reflexivity.
  - match goal with |- context [warm_up_connection ?w1] =>
      destruct (warm_up_connection_run w1) as (w' & extra & -> & Hs) end.
    exists w', extra. split; [reflexivity | exact Hs].
Qed.

Lemma send_sms_normalized w :
  exists r w', send_sms w = (Ret r, w') /\ normalized w w' r.
Proof.
  unfold send_sms. rewrite (bind_ok _ _ _ _ _ (record_call_run _ _)).
  unfold try_except. rewrite attempt_step.
  set (w1 := with_call w CallSendSms).
  set (req := post_request url_scanSms (Raw "geeTestData=") w1 5).
  destruct (outcome (sent w1) req) as [v|e] eqn:Hout.
  - exists v, (with_sent w1 [req]). split; [reflexivity|].
    right. exists (sent w), req, []. split; [reflexivity|].
    split; [lia | exact Hout].
  - eexists _, _. split; [reflexivity|]. left. eexists. reflexivity.
Qed.

Lemma login_normalized mobile code w :
  exists r w', login mobile code w = (Ret r, w') /\ normalized w w' r.
Proof.
  unfold login. rewrite (bind_ok _ _ _ _ _ (record_call_run _ _)).
  set (w1 := with_call w (CallLogin mobile code)).
  unfold try_except.
  match goal with |- context [match ?body w1 with _ => _ end] =>
    destruct (body w1) as [[r|e] w2] eqn:Hbody end.
  2:{ eexists _, _. split; [reflexivity|]. left. eexists. reflexivity. }
  exists r, w2. split; [reflexivity|]. right.
  apply bind_ret_inv in Hbody as (response & wa & Hpost & Hbody).
  apply bind_ret_inv in Hbody as (result & wb & Hjson & Hbody).
  apply bind_ret_inv in Hbody as (c & wc & Hcode & Hbody).
  apply bind_ret_inv in Hbody as (u & wd & Hset & Hbody).
  unfold ret in Hbody. injection Hbody as <- <-.
  unfold session_post, session_send in Hpost.
  injection Hpost as Hsend <-.
  unfold lift in Hjson. injection Hjson as Hresp <-. subst response.
  unfold lift in Hcode. injection Hcode as _ <-.
  match type of Hsend with send _ ?rq = _ => set (req := rq) in * end.
  assert (Hgrow : exists extra, sent wd = (sent w ++ [req]) ++ extra).
  { destruct (py_eq_int c 200).
    - apply bind_ret_inv in Hset as (data & we & Hd & Hset).
      apply bind_ret_inv in Hset as (tok & wf & Htok & Hset).
      unfold lift in Hd, Htok. injection Hd as _ <-. injection Htok as _ <-.
      match type of Hset with set_token _ ?wx = _ =>
        destruct (set_token_run tok wx) as (w' & extra & Hrun & Hs) end.
      rewrite Hrun in Hset. injection Hset as _ <-.
      exists extra. exact Hs.
    - unfold ret in Hset. injection Hset as _ <-.
      exists []. cbn. rewrite app_nil_r. reflexivity. }
  destruct Hgrow as [extra Hgrow].
  exists (sent w), req, extra. split.
  - rewrite Hgrow, <- app_assoc. reflexivity.
  - split; [lia|]. unfold outcome.
    destruct (send (sent w) req) as [resp|e0];
      [injection Hsend as ->; reflexivity | discriminate Hsend].
Qed.

(** C5.  Whatever the HTTP layer does, [get_role_infos], [scan_login],
    [login] and [send_sms] return: no exception leaves them.  What they
    return is the decoded body of a response to a request they made or,
    when the transport or the decoding raised, the dictionary with [code]
    -1 and a message. *)
Theorem remote_calls_never_raise (w : world) :
  (forall qr_code smart_retry,
      exists r w', get_role_infos qr_code smart_retry w = (Ret r, w') /\
                   normalized w w' r) /\
  (forall qr_code verify_code auto_login smart_retry,
      exists r w',
        scan_login qr_code verify_code auto_login smart_retry w = (Ret r, w') /\
        normalized w w' r) /\
  (forall mobile code,
      exists r w', login mobile code w = (Ret r, w') /\ normalized w w' r) /\
  (exists r w', send_sms w = (Ret r, w') /\ normalized w w' r) /\
  (forall msg, dict_get (failure msg) "code" JNull = Ret (JInt (-1)) /\
               dict_get (failure msg) "msg" JNull = Ret (JStr msg)).
Proof.
  split; [|split; [|split; [|split]]].
  - intros qr_code smart_retry. rewrite get_role_infos_unfold.
    apply attempts_normalized. reflexivity.
  - intros qr_code verify_code auto_login smart_retry.
    rewrite scan_login_unfold. apply attempts_normalized. reflexivity.
  - intros mobile code. apply login_normalized.
  - apply send_sms_normalized.
  - intros msg. split; reflexivity.
Qed.

End Facts.

End KuroAPIFacts.

(** ** The two-step login *)

Module ScanThreadFacts.
Import KuroAPI ScanThread MFacts KuroAPIFacts.

(** [r.get("code") == n], false when [r] has no [get]. *)
Definition is_code (r : json) (n : Z) : bool :=
  match dict_get r "code" JNull with
  | Ret c => py_eq_int c n
  | Exc _ => false
  end.

Definition is_scan_post (qr_code verify_code : string) (req : request) : Prop :=
  req_method req = "POST" /\ req_url req = url_scanLogin /\
  req_data req = Some (scan_form qr_code verify_code false).

Section Facts.
Context `{Network}.

(** A call of [scan_login]: one more entry in [calls], and one to three
    POST requests to the scan-login endpoint carrying its arguments. *)
Lemma scan_login_run qr_code verify_code w r w' :
  scan_login qr_code verify_code false true w = (Ret r, w') ->
  exists reqs,
    w' = with_sent (with_call w (CallScanLogin qr_code verify_code false true))
                   reqs /\
    reqs <> [] /\
    Forall (is_scan_post qr_code verify_code) reqs.
Proof.
  rewrite scan_login_unfold. intros Hrun.
  destruct (attempts_trace url_scanLogin (scan_form qr_code verify_code false)
              (scan_timeouts true) None
              (with_call w (CallScanLogin qr_code verify_code false true)))
    as (r0 & reqs & Hrun0 & Hreqs & _ & Hne & _ & _).
  rewrite Hrun0 in Hrun. injection Hrun as _ <-.
  exists reqs. split; [reflexivity|]. split; [apply Hne; discriminate|].
  rewrite Hreqs. apply Forall_forall. intros req Hin.
  apply list_elem_of_In, in_map_iff in Hin as (timeout & <- & _).
  repeat split.
Qed.

Lemma scan_login_calls qr_code verify_code w r w' :
  scan_login qr_code verify_code false true w = (Ret r, w') ->
  calls w' = calls w ++ [CallScanLogin qr_code verify_code false true].
Proof.
  intros Hrun. destruct (scan_login_run _ _ _ _ _ Hrun) as (reqs & -> & _).
  reflexivity.
Qed.

Lemma scan_login_sent qr_code verify_code w r w' :
  scan_login qr_code verify_code false true w = (Ret r, w') ->
  exists reqs, sent w' = sent w ++ reqs /\ reqs <> [] /\
               Forall (is_scan_post qr_code verify_code) reqs.
Proof.
  intros Hrun. destruct (scan_login_run _ _ _ _ _ Hrun) as (reqs & -> & Hne & Hf).
  exists reqs. split; [reflexivity | split; assumption].
Qed.

Lemma scan_login_returns qr_code verify_code w :
  exists r w', scan_login qr_code verify_code false true w = (Ret r, w').
Proof.
  rewrite scan_login_unfold.
  destruct (attempts_trace url_scanLogin (scan_form qr_code verify_code false)
              (scan_timeouts true) None
              (with_call w (CallScanLogin qr_code verify_code false true)))
    as (r & reqs & Hrun & _).
  eexists r, _. exact Hrun.
Qed.

Lemma is_code_dict d n :
  is_code (JDict d) n =
  py_eq_int (match assoc "code" d with Some x => x | None => JNull end) n.
Proof. reflexivity. Qed.

(** [confirm] when the first answer is neither 200 nor 2240 and a code was
    given. *)
Lemma confirm_retry (t : thread) (w0 w1 w2 : world) d second :
  PyStr.truthy (verify_code t) = true ->
  scan_login (qr_code t) (verify_code t) false true w0 = (Ret (JDict d), w1) ->
  is_code (JDict d) 200 = false ->
  is_code (JDict d) 2240 = false ->
  scan_login (qr_code t) "" false true w1 = (Ret second, w2) ->
  confirm t w0 =
    match dict_get second "code" JNull with
    | Ret c =>
        if py_eq_int c 200 then (Ret succeeded, w2)
        else match dict_get second "msg" (JStr "登录失败") with
             | Ret msg => (Ret (failed msg), w2)
             | Exc e => (Exc e, w2)
             end
    | Exc e => (Exc e, w2)
    end.
Proof.
  intros Ht H1 H200 H2240 H2. unfold confirm.
  rewrite (bind_ok _ _ _ _ _ H1). unfold bind at 1. unfold lift at 1.
  cbn [dict_get]. rewrite is_code_dict in H200, H2240.
  rewrite H200, H2240, Ht.
  rewrite (bind_ok _ _ _ _ _ H2). unfold bind at 1. unfold lift at 1.
  destruct (dict_get second "code" JNull) as [c|e]; [|reflexivity].
  destruct (py_eq_int c 200); [reflexivity|].
  unfold bind, lift.
  destruct (dict_get second "msg" (JStr "登录失败")); reflexivity.
Qed.

(** C7.  A Confirm call made with a non-empty verification code answers
    with a dictionary whose code is neither 200 nor 2240: exactly one more
    Confirm call follows, with an empty verification code, and the attempt
    is reported as a success exactly when that retry answers 200, as a
    failure otherwise. *)
Theorem soft_retry_once (t : thread) (w w0 w1 w2 : world)
  (d : list (string * json)) (second : json) :
  validate t w = (Ret None, w0) ->
  PyStr.truthy (verify_code t) = true ->
  scan_login (qr_code t) (verify_code t) false true w0 = (Ret (JDict d), w1) ->
  is_code (JDict d) 200 = false ->
  is_code (JDict d) 2240 = false ->
  scan_login (qr_code t) "" false true w1 = (Ret second, w2) ->
  exists res,
    run t w = (Ret res, w2) /\
    calls w2 = calls w0 ++ [CallScanLogin (qr_code t) (verify_code t) false true;
                            CallScanLogin (qr_code t) "" false true] /\
    success res = is_code second 200 /\
    need_sms res = false.
Proof.
  intros Hv Ht H1 H200 H2240 H2.
  assert (Hcalls : calls w2 =
            calls w0 ++ [CallScanLogin (qr_code t) (verify_code t) false true;
                         CallScanLogin (qr_code t) "" false true]).
  { rewrite (scan_login_calls _ _ _ _ _ H2), (scan_login_calls _ _ _ _ _ H1).
    rewrite <- app_assoc. reflexivity. }
  unfold run, try_except. rewrite (bind_ok _ _ _ _ _ Hv).
  rewrite (confirm_retry t w0 w1 w2 d second Ht H1 H200 H2240 H2).
  unfold is_code.
  destruct (dict_get second "code" JNull) as [c|e].
  - destruct (py_eq_int c 200).
    + exists succeeded. repeat split. exact Hcalls.
    + destruct (dict_get second "msg" (JStr "登录失败")) as [msg|e].
      * exists (failed msg). repeat split. exact Hcalls.
      * exists (failed (JStr (exc_str e))). repeat split. exact Hcalls.
  - exists (failed (JStr (exc_str e))). repeat split. exact Hcalls.
Qed.

(** When Confirm answers 2240 the thread reports that a code is needed. *)
Lemma run_needs_sms (t : thread) (w w0 w1 : world) first :
  validate t w = (Ret None, w0) ->
  scan_login (qr_code t) (verify_code t) false true w0 = (Ret first, w1) ->
  is_code first 200 = false ->
  is_code first 2240 = true ->
  run t w = (Ret needs_sms, w1).
Proof.
  intros Hv H1 H200 H2240. unfold run, try_except.
  rewrite (bind_ok _ _ _ _ _ Hv). unfold confirm.
  rewrite (bind_ok _ _ _ _ _ H1). unfold bind at 1. unfold lift at 1.
  unfold is_code in H200, H2240.
  destruct (dict_get first "code" JNull) as [c|e]; [|discriminate].
  rewrite H200, H2240. reflexivity.
Qed.

(** A thread that skips validation calls nothing but [scan_login], first
    with its own arguments, then at most once more with an empty code; all
    its requests go to the scan-login endpoint. *)
Lemma run_skipping_validation (t : thread) (w w' : world) res :
  skip_role_check t = true ->
  run t w = (Ret res, w') ->
  (exists later,
      calls w' = calls w ++
                 CallScanLogin (qr_code t) (verify_code t) false true :: later /\
      (later = [] \/ later = [CallScanLogin (qr_code t) "" false true])) /\
  (exists first_reqs later_reqs,
      sent w' = sent w ++ first_reqs ++ later_reqs /\
      first_reqs <> [] /\
      Forall (is_scan_post (qr_code t) (verify_code t)) first_reqs /\
      Forall (is_scan_post (qr_code t) "") later_reqs).
Proof.
  intros Hskip Hrun. unfold run, try_except, validate in Hrun.
  rewrite Hskip in Hrun. cbn [negb] in Hrun.
  unfold bind at 1 in Hrun. unfold ret at 1 in Hrun.
  unfold confirm in Hrun.
  destruct (scan_login_returns (qr_code t) (verify_code t) w) as (r1 & w1 & H1).
  rewrite (bind_ok _ _ _ _ _ H1) in Hrun.
  pose proof (scan_login_calls _ _ _ _ _ H1) as Hc1.
  destruct (scan_login_sent _ _ _ _ _ H1) as (reqs1 & Hs1 & Hne1 & Hf1).
  assert (Hone : w' = w1 ->
    (exists later,
        calls w' = calls w ++
                   CallScanLogin (qr_code t) (verify_code t) false true :: later /\
        (later = [] \/ later = [CallScanLogin (qr_code t) "" false true])) /\
    (exists first_reqs later_reqs,
        sent w' = sent w ++ first_reqs ++ later_reqs /\
        first_reqs <> [] /\
        Forall (is_scan_post (qr_code t) (verify_code t)) first_reqs /\
        Forall (is_scan_post (qr_code t) "") later_reqs)).
  { intros ->. split.
    - exists []. split; [exact Hc1 | left; reflexivity].
    - exists reqs1, []. rewrite app_nil_r.
      split; [exact Hs1|]. split; [exact Hne1|]. split; [exact Hf1|].
      constructor. }
  unfold bind at 1 in Hrun. unfold lift at 1 in Hrun.
  destruct (dict_get r1 "code" JNull) as [c|e].
  2:{ apply Hone. injection Hrun as _ <-. reflexivity. }
  destruct (py_eq_int c 200).
  { apply Hone. injection Hrun as _ <-. reflexivity. }
  destruct (py_eq_int c 2240).
  { apply Hone. injection Hrun as _ <-. reflexivity. }
  destruct (PyStr.truthy (verify_code t)).
  2:{ apply Hone. unfold bind, lift, ret in Hrun.
      destruct (dict_get r1 "msg" (JStr "扫码失败"));
        injection Hrun as _ <-; reflexivity. }
  destruct (scan_login_returns (qr_code t) "" w1) as (r2 & w2 & H2).
  rewrite (bind_ok _ _ _ _ _ H2) in Hrun.
  pose proof (scan_login_calls _ _ _ _ _ H2) as Hc2.
  destruct (scan_login_sent _ _ _ _ _ H2) as (reqs2 & Hs2 & _ & Hf2).
  assert (w' = w2) as ->.
  { unfold bind, lift, ret in Hrun.
    destruct (dict_get r2 "code" JNull) as [c2|e2];
      [|injection Hrun as _ <-; reflexivity].
    destruct (py_eq_int c2 200); [injection Hrun as _ <-; reflexivity|].
    destruct (dict_get r2 "msg" (JStr "登录失败"));
      injection Hrun as _ <-; reflexivity. }
  split.
  - exists [CallScanLogin (qr_code t) "" false true].
    split; [|right; reflexivity].
    rewrite Hc2, Hc1, <- app_assoc. reflexivity.
  - exists reqs1, reqs2. rewrite Hs2, Hs1, <- app_assoc.
    split; [reflexivity|]. split; [exact Hne1|]. split; assumption.
Qed.

End Facts.

End ScanThreadFacts.

(** ** Resubmission with a verification code *)

Module MainWindowFacts.
Import KuroAPI ScanThread MainWindow MFacts KuroAPIFacts ScanThreadFacts.

Lemma endpoints_differ : url_scanLogin <> url_roleInfos.
Proof. discriminate. Qed.

Section Facts.
Context `{Network}.

Lemma run_returns (t : thread) (w : world) :
  exists res w', run t w = (Ret res, w').
Proof.
  unfold run. apply try_except_total.
  intros e s1. eexists _, _. reflexivity.
Qed.

(** C6.  The thread started by [on_qr_detected] for a payload validates it
    and is told 2240 by Confirm: it reports that a code is needed.  Once
    the user has agreed, the SMS request has answered and a non-empty code
    has been typed, [on_scan_result] starts a thread for the same payload,
    with that code, that skips validation.  That thread calls
    [get_role_infos] not at all: its first call is Confirm with the payload
    and the code, at most one more Confirm follows (the retry with an empty
    code), and every request it sends goes to the scan-login endpoint. *)
Theorem verification_resubmits_confirm_only (qr_code code : string)
  (ui : dialogs) (mw : window) (w w0 w1 w2 : world) (first : json)
  (sms : list (string * json)) :
  validate (mk_thread qr_code "" false) w = (Ret None, w0) ->
  scan_login qr_code "" false true w0 = (Ret first, w1) ->
  is_code first 200 = false ->
  is_code first 2240 = true ->
  reply_yes ui = true ->
  input_ok ui = true ->
  input_code ui = code ->
  PyStr.truthy code = true ->
  send_sms w1 = (Ret (JDict sms), w2) ->
  let mw1 := on_qr_detected qr_code mw in
  let resubmission := mk_thread qr_code code true in
  scan_thread mw1 = Some (mk_thread qr_code "" false) /\
  run (mk_thread qr_code "" false) w = (Ret needs_sms, w1) /\
  on_scan_result needs_sms ui mw1 w1 =
    (Ret (start_thread resubmission mw1), w2) /\
  (exists res w3, run resubmission w2 = (Ret res, w3)) /\
  (forall res w3,
      run resubmission w2 = (Ret res, w3) ->
      (exists later,
          calls w3 = calls w2 ++ CallScanLogin qr_code code false true :: later /\
          (later = [] \/ later = [CallScanLogin qr_code "" false true])) /\
      (forall q s,
          ~ In (CallGetRoleInfos q s) (skipn (length (calls w2)) (calls w3))) /\
      (exists first_reqs later_reqs,
          sent w3 = sent w2 ++ first_reqs ++ later_reqs /\
          first_reqs <> [] /\
          Forall (is_scan_post qr_code code) first_reqs /\
          Forall (is_scan_post qr_code "") later_reqs /\
          Forall (fun req => req_url req <> url_roleInfos)
                 (first_reqs ++ later_reqs))).
Proof.
  intros Hv H1 H200 H2240 Hyes Hok Hcode Htruthy Hsms mw1 resubmission.
  split; [reflexivity|].
  split; [exact (run_needs_sms (mk_thread qr_code "" false) w w0 w1 first
                   Hv H1 H200 H2240)|].
  split.
  { unfold on_scan_result. cbn [success need_sms needs_sms].
    rewrite Hyes. cbn [negb].
    rewrite (bind_ok _ _ _ _ _ Hsms). unfold bind at 1. unfold lift at 1.
    cbn [dict_get]. rewrite Hok, Hcode, Htruthy. reflexivity. }
  split; [apply run_returns|].
  intros res w3 Hrun.
  destruct (run_skipping_validation resubmission w2 w3 res eq_refl Hrun)
    as [(later & Hcalls & Hlater) (reqs1 & reqs2 & Hsent & Hne & Hf1 & Hf2)].
  subst resubmission.
  cbn [ScanThread.qr_code ScanThread.verify_code] in *.
  split; [exists later; split; assumption|]. split.
  - intros q s. rewrite Hcalls, skipn_app, skipn_all, Nat.sub_diag.
    cbn [app skipn].
    destruct Hlater as [-> | ->]; cbn [In]; intros Hin.
    + destruct Hin as [Hin|[]]. discriminate Hin.
    + destruct Hin as [Hin|[Hin|[]]]; discriminate Hin.
  - exists reqs1, reqs2. repeat split; try assumption.
    apply Forall_app. split; eapply Forall_impl; try eassumption.
    + intros req (_ & Hu & _). rewrite Hu. exact endpoints_differ.
    + intros req (_ & Hu & _). rewrite Hu. exact endpoints_differ.
Qed.

End Facts.

End MainWindowFacts.

(** ** A test bench for the remote calls

    A scripted server: the n-th request ever sent gets the n-th reply of
    the script; once the script is used up every request times out. *)

Module NetworkBench.
Import KuroAPI ScanThread MainWindow.

Definition repr (f : float) : string :=
  if PrimFloat.eqb f 0.6 then "0.6"
  else if PrimFloat.eqb f 1.2 then "1.2"
  else if PrimFloat.eqb f 2.0 then "2.0"
  else if PrimFloat.eqb f 0.8 then "0.8"
  else if PrimFloat.eqb f 1.5 then "1.5"
  else if PrimFloat.eqb f 2.5 then "2.5"
  else if PrimFloat.eqb f 1.0 then "1.0"
  else "?".

Definition read_timeout : exn := mk_exn true "Read timed out.".
Definition connection_refused : exn := mk_exn false "Connection refused".

Definition scripted (script : list (result (result json))) : Network :=
  {| send := fun history _ => nth (length history) script (Exc read_timeout);
     float_repr := repr |}.

Definition answer (code : Z) (msg : string) : result (result json) :=
  Ret (Ret (JDict [("code", JInt code); ("msg", JStr msg)])).

(** A logged-in client that has sent nothing yet. *)
Definition fresh : world :=
  {| sent := []; calls := []; token := JStr "token";
     header_token := Some (JStr "token"); connection_warmed := true |}.

Definition payload : string := "G152#KURO?t=0123456789abcdef01234567".

Definition user : dialogs :=
  {| reply_yes := true; input_code := "123456"; input_ok := true;
     auto_retry := true |}.

Definition idle : window :=
  {| pending_qr_code := None; scan_thread := None;
     scan_window := Some (ScanWindow.start_scanning ScanWindow.initial);
     scan_window_hidden := false |}.

End NetworkBench.

Module LoginExamples.
Import KuroAPI ScanThread MainWindow KuroAPIFacts ScanThreadFacts
       MainWindowFacts NetworkBench.

(** A server that never answers in time: three attempts, then a failure. *)
Example validate_times_out :
  let '(r, w) := @get_role_infos (scripted []) payload true fresh in
  r = Ret (failure "请求超时(>2.0s)") /\
  map req_timeout (sent w) = [0.6; 1.2; 2.0]%float /\
  map req_url (sent w) = [url_roleInfos; url_roleInfos; url_roleInfos].
Proof. vm_compute. repeat split. Qed.

(** A refused connection: one attempt. *)
Example validate_refused :
  let '(r, w) :=
    @get_role_infos (scripted [Exc connection_refused]) payload true fresh in
  r = Ret (failure "请求失败: Connection refused") /\
  map req_timeout (sent w) = [0.6]%float.
Proof. vm_compute. repeat split. Qed.

(** A time-out, then an answer: two attempts. *)
Example confirm_second_attempt :
  let '(r, w) :=
    @scan_login (scripted [Exc read_timeout; answer 200 "ok"])
       payload "" false true fresh in
  r = Ret (JDict [("code", JInt 200); ("msg", JStr "ok")]) /\
  map req_timeout (sent w) = [0.8; 1.5]%float.
Proof. vm_compute. repeat split. Qed.

(** A body that is no dictionary makes [login] return the failure
    dictionary. *)
Example login_on_a_list :
  fst (@login (scripted [Ret (Ret (JList []))]) "13800000000" "0000" fresh) =
  Ret (failure "请求失败: AttributeError").
Proof. vm_compute. reflexivity. Qed.

(** The code is refused (500), the retry without code passes. *)
Definition refused_then_accepted : Network :=
  scripted [answer 500 "验证码错误"; answer 200 "ok"].

Lemma soft_retry_once_witness :
  exists res w2,
    @run refused_then_accepted (mk_thread payload "123456" true) fresh
      = (Ret res, w2) /\
    success res = true /\
    calls w2 = [CallScanLogin payload "123456" false true;
                CallScanLogin payload "" false true].
Proof.
  edestruct (@soft_retry_once refused_then_accepted
               (mk_thread payload "123456" true) fresh fresh)
    as (res & Hrun & Hcalls & Hsuccess & _).
  - reflexivity.
  - reflexivity.
  - vm_compute. reflexivity.
  - reflexivity.
  - reflexivity.
  - vm_compute. reflexivity.
  - eexists res, _. split; [exact Hrun|]. split; [exact Hsuccess | exact Hcalls].
Defined.

(** Validation passes, Confirm asks for a code, the SMS is sent, Confirm
    with the code passes. *)
Definition first_use : Network :=
  scripted [answer 200 "roles"; answer 2240 "need sms";
            answer 200 "sms sent"; answer 200 "ok"].

Lemma verification_resubmits_confirm_only_witness :
  exists w1 w2,
    @run first_use (mk_thread payload "" false) fresh = (Ret needs_sms, w1) /\
    @on_scan_result first_use needs_sms user (on_qr_detected payload idle) w1 =
      (Ret (start_thread (mk_thread payload "123456" true)
              (on_qr_detected payload idle)), w2).
Proof.
  edestruct (@verification_resubmits_confirm_only first_use payload "123456"
               user idle fresh)
    as (_ & Hrun & Hresult & _).
  - vm_compute. reflexivity.
  - vm_compute. reflexivity.
  - reflexivity.
  - reflexivity.
  - reflexivity.
  - reflexivity.
  - reflexivity.
  - reflexivity.
  - vm_compute. reflexivity.
  - eexists _, _. split; [exact Hrun | exact Hresult].
Defined.

(** The whole exchange: four requests, the validate endpoint once. *)
Example first_use_requests :
  let '(_, w1) := @run first_use (mk_thread payload "" false) fresh in
  let '(_, w2) := @send_sms first_use w1 in
  let '(res, w3) := @run first_use (mk_thread payload "123456" true) w2 in
  res = Ret succeeded /\
  map req_url (sent w3) =
    [url_roleInfos; url_scanLogin; url_scanSms; url_scanLogin].
Proof. vm_compute. repeat split. Qed.

End LoginExamples.

(** ** Buffer reuse *)

Module BufferPoolFacts.
Import BufferPool.

Section Facts.
Context `{Numpy}.

Lemma bucket_len_insert (p : pool) (size size' : list Z) (l : list ndarray) :
  bucket_len (with_buffers p (<[size := l]> (buffers p))) size' =
  if decide (size = size') then length l else bucket_len p size'.
Proof.
  unfold bucket_len, with_buffers. cbn [buffers].
  rewrite lookup_insert. destruct (decide (size = size')); reflexivity.
Qed.

Lemma return_buffer_pool_size (b : ndarray) (p : pool) :
  pool_size (return_buffer b p) = pool_size p.
Proof.
  unfold return_buffer.
  destruct (buffers p !! shape b); cbn [with_buffers pool_size];
    match goal with |- context [if ?c then _ else _] => destruct c end;
    reflexivity.
Qed.

(** One release: a bucket grows by at most one, and only below the cap. *)
Lemma return_buffer_bound (b : ndarray) (p : pool) (size : list Z) :
  Z.of_nat (bucket_len (return_buffer b p) size)
  <= Z.max (Z.of_nat (bucket_len p size)) (pool_size p).
Proof.
  unfold return_buffer.
  destruct (buffers p !! shape b) as [l|] eqn:Hl; cbv beta iota zeta.
  - rewrite Hl. cbn [default from_option id].
    destruct (Z.of_nat (length l) <? pool_size p) eqn:Hc; [|lia].
    apply Z.ltb_lt in Hc. rewrite bucket_len_insert.
    destruct (decide (shape b = size)); [|lia].
    rewrite length_app. cbn [length]. lia.
  - unfold bucket_len, with_buffers. cbn [buffers pool_size].
    rewrite lookup_insert_eq. cbn [default from_option id length].
    change (Z.of_nat 0) with 0.
    destruct (0 <? pool_size p) eqn:Hc; cbn [buffers].
    + apply Z.ltb_lt in Hc. rewrite !lookup_insert.
      destruct (decide (shape b = size)); [cbn; lia | lia].
    + rewrite lookup_insert.
      destruct (decide (shape b = size)); [cbn; lia | lia].
Qed.

Lemma get_buffer_state (height width channels : Z) (p : pool) :
  pool_size (snd (get_buffer height width channels p)) = pool_size p /\
  forall size,
    (bucket_len (snd (get_buffer height width channels p)) size
     <= bucket_len p size)%nat.
Proof.
  unfold get_buffer, bind, get.
  destruct (buffers p !! [height; width; channels]) as [[|b l]|] eqn:Hl;
    try (unfold lift; cbn [snd]; split; [reflexivity | intros; lia]).
  unfold modify, ret. cbn [snd]. split; [reflexivity|].
  intros size. rewrite bucket_len_insert.
  destruct (decide ([height; width; channels] = size)) as [<-|]; [|lia].
  unfold bucket_len. rewrite Hl.
  clear. revert b. induction l as [|c l IH]; intros b; [cbn; lia|].
  change (removelast (b :: c :: l)) with (b :: removelast (c :: l)).
  cbn [length]. specialize (IH c). cbn [length] in IH. lia.
Qed.

Lemma apply_pool_size (o : op) (p : pool) :
  pool_size (apply o p) = pool_size p.
Proof.
  destruct o as [h w c|b|]; cbn [apply].
  - apply get_buffer_state.
  - apply return_buffer_pool_size.
  - reflexivity.
Qed.

Lemma apply_bound (o : op) (p : pool) (size : list Z) :
  Z.of_nat (bucket_len (apply o p) size)
  <= Z.max (Z.of_nat (bucket_len p size)) (pool_size p).
Proof.
  destruct o as [h w c|b|]; cbn [apply].
  - pose proof (proj2 (get_buffer_state h w c p) size). lia.
  - apply return_buffer_bound.
  - unfold clear, bucket_len, with_buffers. cbn [buffers].
    rewrite lookup_empty. lia.
Qed.

Lemma apply_all_bound (ops : list op) :
  forall (p : pool) (size : list Z),
    pool_size (apply_all ops p) = pool_size p /\
    Z.of_nat (bucket_len (apply_all ops p) size)
    <= Z.max (Z.of_nat (bucket_len p size)) (pool_size p).
Proof.
  induction ops as [|o ops IH]; intros p size.
  - cbn. split; [reflexivity | lia].
  - change (apply_all (o :: ops) p) with (apply_all ops (apply o p)).
    destruct (IH (apply o p) size) as [Hs Hb].
    rewrite apply_pool_size in Hs, Hb.
    pose proof (apply_bound o p size). split; [exact Hs | lia].
Qed.

Lemma allocate_n_len (size : list Z) (count : nat) :
  forall p p',
    allocate_n size count p = (Ret tt, p') ->
    pool_size p' = pool_size p /\
    forall size',
      bucket_len p' size' =
      if decide (size = size') then (bucket_len p size' + count)%nat
      else bucket_len p size'.
Proof.
  induction count as [|count IH]; intros p p' Hrun; cbn [allocate_n] in Hrun.
  - unfold ret in Hrun. injection Hrun as <-. split; [reflexivity|].
    intros size'. destruct (decide (size = size')); lia.
  - apply MFacts.bind_ret_inv in Hrun as (buffer & p1 & Hz & Hrun).
    unfold lift in Hz. injection Hz as _ <-.
    apply MFacts.bind_ret_inv in Hrun as (u & p2 & Hm & Hrun).
    unfold modify in Hm. injection Hm as _ <-.
    destruct (IH _ _ Hrun) as [Hs Hlen]. split; [exact Hs|].
    intros size'. rewrite Hlen, bucket_len_insert.
    destruct (decide (size = size')) as [<-|]; [|reflexivity].
    rewrite length_app. cbn [length]. unfold bucket_len.
    destruct (buffers p !! size); cbn [default from_option id length]; lia.
Qed.

Lemma allocate_buffers_len (size : list Z) (count : nat) p p' :
  _allocate_buffers size count p = (Ret tt, p') ->
  pool_size p' = pool_size p /\
  forall size',
    bucket_len p' size' =
    if decide (size = size') then (bucket_len p size' + count)%nat
    else bucket_len p size'.
Proof.
  unfold _allocate_buffers. intros Hrun.
  apply MFacts.bind_ret_inv in Hrun as (u & p1 & Hm & Hrun).
  unfold modify in Hm. injection Hm as _ <-.
  destruct (allocate_n_len _ _ _ _ Hrun) as [Hs Hlen].
  destruct (buffers p !! size) as [l|] eqn:Hl.
  - split; [exact Hs | exact Hlen].
  - split; [exact Hs|]. intros size'. rewrite Hlen, bucket_len_insert.
    destruct (decide (size = size')) as [<-|]; [|reflexivity].
    unfold bucket_len. rewrite Hl. reflexivity.
Qed.

(** A pool as [__init__] leaves it: two buffers for each of the four
    common sizes, none elsewhere. *)
Lemma init_buckets (n : Z) (p : pool) :
  init n = Ret p ->
  pool_size p = n /\ forall size, (bucket_len p size <= 2)%nat.
Proof.
  unfold init.
  destruct (allocate_common common_sizes _) as [[[]|e] p'] eqn:Hrun;
    [|discriminate].
  intros [= <-]. unfold common_sizes in Hrun. cbn [allocate_common] in Hrun.
  apply MFacts.bind_ret_inv in Hrun as ([] & p1 & H1 & Hrun).
  apply MFacts.bind_ret_inv in Hrun as ([] & p2 & H2 & Hrun).
  apply MFacts.bind_ret_inv in Hrun as ([] & p3 & H3 & Hrun).
  apply MFacts.bind_ret_inv in Hrun as ([] & p4 & H4 & Hrun).
  unfold ret in Hrun. injection Hrun as <-.
  destruct (allocate_buffers_len _ _ _ _ H1) as [Hs1 Hl1].
  destruct (allocate_buffers_len _ _ _ _ H2) as [Hs2 Hl2].
  destruct (allocate_buffers_len _ _ _ _ H3) as [Hs3 Hl3].
  destruct (allocate_buffers_len _ _ _ _ H4) as [Hs4 Hl4].
  split; [rewrite Hs4, Hs3, Hs2, Hs1; reflexivity|].
  assert (He : forall size',
             bucket_len {| pool_size := n; buffers := ∅ |} size' = 0%nat).
  { intros size'. unfold bucket_len. cbn [buffers].
    rewrite lookup_empty. reflexivity. }
  intros size. rewrite Hl4, Hl3, Hl2, Hl1, He.
  repeat (match goal with
          | |- context [decide (?a = ?b)] =>
              destruct (decide (a = b)); [try discriminate; subst|]
          end); lia.
Qed.

(** C9.  Releasing a buffer whose shape bucket holds [pool_size] buffers
    or more leaves the pool as it is.  Hence no sequence of acquires,
    releases and clears takes a bucket beyond the larger of its initial
    length and [pool_size]: a pool whose buckets start within the cap keeps
    every bucket within the cap, and so does the pool that [__init__]
    builds for a cap of two or more (five by default). *)
Theorem release_at_cap_drops (p : pool) (buffer : ndarray)
  (bucket : list ndarray) :
  buffers p !! shape buffer = Some bucket ->
  pool_size p <= Z.of_nat (length bucket) ->
  return_buffer buffer p = p /\
  (forall ops size,
      Z.of_nat (bucket_len (apply_all ops p) size)
      <= Z.max (Z.of_nat (bucket_len p size)) (pool_size p)) /\
  ((forall size, Z.of_nat (bucket_len p size) <= pool_size p) ->
   forall ops size,
     Z.of_nat (bucket_len (apply_all ops p) size) <= pool_size p) /\
  (forall n p0,
      2 <= n -> init n = Ret p0 ->
      forall ops size, Z.of_nat (bucket_len (apply_all ops p0) size) <= n).
Proof.
  intros Hb Hcap. split; [|split; [|split]].
  - unfold return_buffer. rewrite Hb. cbv beta iota zeta. rewrite Hb.
    cbn [default from_option id].
    replace (Z.of_nat (length bucket) <? pool_size p) with false
      by (symmetry; apply Z.ltb_ge; exact Hcap).
    reflexivity.
  - intros ops size. apply apply_all_bound.
  - intros Hinit ops size.
    pose proof (proj2 (apply_all_bound ops p size)).
    specialize (Hinit size). lia.
  - intros n p0 Hn Hi ops size.
    destruct (init_buckets n p0 Hi) as [Hs Hl].
    pose proof (proj2 (apply_all_bound ops p0 size)).
    specialize (Hl size). lia.
Qed.

End Facts.

End BufferPoolFacts.

(** ** A test bench for the pool

    An array is stood for by its shape and a serial number. *)

Module BufferPoolBench.
Import BufferPool.

Definition arrays : Numpy :=
  {| ndarray := (list Z * nat)%type;
     shape := fst;
     np_zeros := fun size =>
       if forallb (fun n => 0 <=? n) size then Ret (size, 0%nat)
       else Exc (mk_exn false "negative dimensions are not allowed") |}.

Definition frame (serial : nat) : @ndarray arrays := ([720; 1280; 3], serial).

(** A pool with a cap of two whose 720x1280x3 bucket is full. *)
Definition full : @pool arrays :=
  {| pool_size := 2;
     buffers := {[ [720; 1280; 3] := [frame 1; frame 2] ]} |}.

End BufferPoolBench.

Module BufferPoolExamples.
Import BufferPool BufferPoolFacts BufferPoolBench.

Lemma release_at_cap_drops_witness :
  @return_buffer arrays (frame 3) full = full.
Proof.
  refine (proj1 (@release_at_cap_drops arrays full (frame 3)
                   [frame 1; frame 2] _ _)).
  - apply lookup_singleton_eq.
  - cbn. lia.
Defined.

(** Below the cap a release is kept, and the next acquire hands it out. *)
Example release_then_acquire :
  let p := @return_buffer arrays (frame 7)
             {| pool_size := 2; buffers := ∅ |} in
  @bucket_len arrays p [720; 1280; 3] = 1%nat /\
  fst (@get_buffer arrays 720 1280 3 p) = Ret (frame 7).
Proof. vm_compute. split; reflexivity. Qed.

End BufferPoolExamples.

(* ===================================================================== *)
(** * Further properties of the same modules *)
(* ===================================================================== *)

(** ** The region predictor under any sequence of calls *)

Module ROIClient.
Import ROI.

(** The calls a client of [SmartROIDetector] can make that change it. *)
Inductive op : Type :=
| AddDetection (x y width height : Z) (now : float)
| VerifyPrediction (found : bool)
| Reset.

Definition apply (o : op) (d : detector) : result detector :=
  match o with
  | AddDetection x y width height now => add_detection x y width height now d
  | VerifyPrediction found => Ret (verify_prediction found d)
  | Reset => Ret (reset d)
  end.

Fixpoint apply_all (ops : list op) (d : detector) : result detector :=
  match ops with
  | [] => Ret d
  | o :: ops' => rbind (apply o d) (apply_all ops')
  end.

(** How many of the calls are [verify_prediction], and how many of those
    report a hit. *)
Definition verifications (ops : list op) : Z :=
  Z.of_nat (length (List.filter (fun o => match o with
                                     | VerifyPrediction _ => true
                                     | _ => false
                                     end) ops)).

Definition hits (ops : list op) : Z :=
  Z.of_nat (length (List.filter (fun o => match o with
                                     | VerifyPrediction true => true
                                     | _ => false
                                     end) ops)).

End ROIClient.

Module ROIClientFacts.
Import ROI ROIClient.

Lemma truediv_nonzero (a b : Z) :
  b <> 0 ->
  PyFloat.truediv a b = Ret (PrimFloat.div (PyFloat.of_Z a) (PyFloat.of_Z b)).
Proof.
  intros Hb. unfold PyFloat.truediv.
  destruct (b =? 0) eqn:E; [apply Z.eqb_eq in E; contradiction | reflexivity].
Qed.

Lemma average_returns (l : list position) :
  l <> [] -> exists a, average l = Ret a.
Proof.
  intros Hl. unfold average.
  assert (Hn : Z.of_nat (length l) <> 0) by (destruct l; [congruence | cbn; lia]).
  rewrite !truediv_nonzero by exact Hn. cbn [rbind]. eexists. reflexivity.
Qed.

Lemma slice_last_length {A} (k : Z) (l : list A) :
  0 < k -> k <= Z.of_nat (length l) ->
  length (slice_last k l) = Z.to_nat k.
Proof.
  intros Hk Hl. unfold slice_last.
  destruct (k =? 0) eqn:E0; [apply Z.eqb_eq in E0; lia|].
  destruct (0 <? k) eqn:E1; [|apply Z.ltb_ge in E1; lia].
  rewrite length_skipn. lia.
Qed.

Lemma similar_count_acc (a : averages) (l : list position) :
  forall c,
    fold_left (fun count pos => if is_similar a pos then count + 1 else count)
              l c
    = c + similar_count a l.
Proof.
  unfold similar_count. induction l as [|p l IH]; intros c; cbn [fold_left].
  - lia.
  - rewrite IH, (IH (if is_similar a p then 0 + 1 else 0)).
    destruct (is_similar a p); lia.
Qed.

Lemma similar_count_cons (a : averages) (p : position) (l : list position) :
  similar_count a (p :: l)
  = (if is_similar a p then 1 else 0) + similar_count a l.
Proof.
  unfold similar_count at 1. cbn [fold_left]. rewrite similar_count_acc.
  destruct (is_similar a p); reflexivity.
Qed.

Lemma similar_count_le (a : averages) (l : list position) :
  0 <= similar_count a l <= Z.of_nat (length l).
Proof.
  induction l as [|p l IH]; [cbn; lia|].
  rewrite similar_count_cons. cbn [length]. destruct (is_similar a p); lia.
Qed.

Lemma similar_count_all (a : averages) (l : list position) :
  Z.of_nat (length l) <= similar_count a l ->
  forallb (is_similar a) l = true.
Proof.
  induction l as [|p l IH]; [reflexivity|].
  rewrite similar_count_cons. cbn [length forallb].
  pose proof (similar_count_le a l).
  destruct (is_similar a p); intros Hc; [apply IH; lia | lia].
Qed.

(** [_update_prediction] under a positive threshold: it returns, and it
    either drops the prediction or commits to the widened average of the
    last [confidence_threshold] entries, every one of which passed the
    similarity test. *)
Lemma update_prediction_cases (d : detector) :
  0 < confidence_threshold d ->
  _update_prediction d = Ret (with_prediction d None 0%float) \/
  (confidence_threshold d <= Z.of_nat (length (position_history d)) /\
   exists a c,
     average (slice_last (confidence_threshold d) (position_history d)) = Ret a /\
     forallb (is_similar a)
             (slice_last (confidence_threshold d) (position_history d)) = true /\
     _update_prediction d = Ret (with_prediction d (Some (expanded a)) c)).
Proof.
  intros Ht. unfold _update_prediction.
  destruct (Z.of_nat (length (position_history d)) <? confidence_threshold d)
    eqn:Hlen; [left; reflexivity|].
  apply Z.ltb_ge in Hlen.
  pose proof (slice_last_length _ (position_history d) Ht Hlen) as Hn.
  set (recent := slice_last (confidence_threshold d) (position_history d)) in *.
  destruct (average_returns recent) as [a Ha].
  { intros E. rewrite E in Hn. cbn in Hn. lia. }
  rewrite Ha. cbn [rbind].
  destruct (confidence_threshold d <=? similar_count a recent) eqn:Hc;
    [|left; reflexivity].
  apply Z.leb_le in Hc. right. split; [exact Hlen|].
  rewrite truediv_nonzero by lia. cbn [rbind].
  exists a. eexists. split; [reflexivity|]. split; [|reflexivity].
  apply similar_count_all. lia.
Qed.

Lemma deque_append_length {A} (maxlen : Z) (l : list A) (a : A) :
  (length (deque_append maxlen l a) <= length l + 1)%nat /\
  (0 <= maxlen ->
   Z.of_nat (length l) <= maxlen ->
   Z.of_nat (length (deque_append maxlen l a)) <= maxlen).
Proof.
  unfold deque_append. rewrite length_skipn, length_app. cbn [length].
  split; lia.
Qed.

Lemma last_skipn {A} (n : nat) (l : list A) :
  skipn n l <> [] -> last (skipn n l) = last l.
Proof.
  revert l. induction n as [|n IH]; intros l Hne; [reflexivity|].
  destruct l as [|a l]; [reflexivity|]. cbn [skipn] in *.
  rewrite (IH l Hne). destruct l as [|b l]; [|reflexivity].
  destruct n; cbn in Hne; congruence.
Qed.

Lemma slice_last_last {A} (k : Z) (l : list A) :
  0 < k -> l <> [] -> last (slice_last k l) = last l.
Proof.
  intros Hk Hl. unfold slice_last.
  destruct (k =? 0) eqn:E0; [reflexivity|].
  destruct (0 <? k) eqn:E1; [|apply Z.ltb_ge in E1; lia].
  apply last_skipn. intros E.
  apply (f_equal (@length A)) in E. rewrite length_skipn in E.
  destruct l; [congruence | cbn in E; lia].
Qed.

(** [add_detection] under a positive threshold: it returns, the window of
    detections slides by one, the counters stay, and the prediction is set
    as [update_prediction_cases] says. *)
Lemma add_detection_cases x y width height now (d : detector) :
  0 < confidence_threshold d ->
  exists p c,
    add_detection x y width height now d =
      Ret {| history_size := history_size d;
             confidence_threshold := confidence_threshold d;
             position_history :=
               deque_append (history_size d) (position_history d)
                            (mk_position x y width height now);
             predicted_roi := p;
             prediction_confidence := c;
             total_predictions := total_predictions d;
             successful_predictions := successful_predictions d |} /\
    (p = None \/
     (confidence_threshold d
      <= Z.of_nat (length (deque_append (history_size d) (position_history d)
                             (mk_position x y width height now))) /\
      exists a,
        average (slice_last (confidence_threshold d)
                   (deque_append (history_size d) (position_history d)
                      (mk_position x y width height now))) = Ret a /\
        forallb (is_similar a)
          (slice_last (confidence_threshold d)
             (deque_append (history_size d) (position_history d)
                (mk_position x y width height now))) = true /\
        p = Some (expanded a))).
Proof.
  intros Ht. unfold add_detection.
  match goal with |- context [_update_prediction ?d1] =>
    destruct (update_prediction_cases d1 Ht) as [E | (Hlen & a & c & Ha & Hs & E)];
    rewrite E; unfold with_prediction; cbn [history_size confidence_threshold
      position_history total_predictions successful_predictions] in *
  end.
  - eexists _, _. split; [reflexivity | left; reflexivity].
  - eexists _, _. split; [reflexivity|]. right. split; [exact Hlen|].
    exists a. auto.
Qed.

(** X1.  A prediction is only ever made from detections that agree.  Right
    after [add_detection] (threshold positive), if a region is predicted
    then the history holds at least [confidence_threshold] detections, the
    newest of them is the one just added, every one of the last
    [confidence_threshold] passed the similarity test against their
    average, and the predicted region is that average widened by the
    margin. *)
Theorem prediction_only_from_similar_regions
  (x y width height : Z) (now : float) (d d' : detector) (r : roi) :
  0 < confidence_threshold d ->
  add_detection x y width height now d = Ret d' ->
  predicted_roi d' = Some r ->
  confidence_threshold d' <= Z.of_nat (length (position_history d')) /\
  last (slice_last (confidence_threshold d') (position_history d'))
    = Some (mk_position x y width height now) /\
  exists a,
    average (slice_last (confidence_threshold d') (position_history d')) = Ret a /\
    forallb (is_similar a)
      (slice_last (confidence_threshold d') (position_history d')) = true /\
    r = expanded a.
Proof.
  intros Ht Hadd Hp.
  destruct (add_detection_cases x y width height now d Ht)
    as (p & c & E & Hcases).
  rewrite E in Hadd. injection Hadd as <-.
  cbn [predicted_roi confidence_threshold position_history] in *.
  destruct Hcases as [-> | (Hlen & a & Ha & Hs & ->)]; [discriminate|].
  injection Hp as <-. split; [exact Hlen|]. split; [|exists a; auto].
  set (hist := deque_append _ _ _) in *.
  assert (Hne : hist <> []).
  { intros E0. rewrite E0 in Hlen. cbn in Hlen. lia. }
  rewrite slice_last_last by assumption.
  unfold hist, deque_append in *. rewrite last_skipn by exact Hne.
  apply last_snoc.
Qed.

Lemma apply_step (o : op) (d : detector) :
  0 < confidence_threshold d ->
  exists d',
    apply o d = Ret d' /\
    history_size d' = history_size d /\
    confidence_threshold d' = confidence_threshold d /\
    (length (position_history d') <= length (position_history d) + 1)%nat /\
    (0 <= history_size d ->
     Z.of_nat (length (position_history d)) <= history_size d ->
     Z.of_nat (length (position_history d')) <= history_size d) /\
    0 <= successful_predictions d' - successful_predictions d
      <= total_predictions d' - total_predictions d /\
    total_predictions d' - total_predictions d <= verifications [o] /\
    successful_predictions d' - successful_predictions d <= hits [o].
Proof.
  intros Ht. destruct o as [x y width height now|found|]; cbn [apply].
  - destruct (add_detection_cases x y width height now d Ht)
      as (p & c & -> & _).
    eexists. split; [reflexivity|].
    cbn [history_size confidence_threshold position_history
         total_predictions successful_predictions].
    pose proof (deque_append_length (history_size d) (position_history d)
                  (mk_position x y width height now)) as [H1 H2].
    unfold verifications, hits. cbn.
    repeat split; try lia; auto.
  - eexists. split; [reflexivity|]. unfold verify_prediction.
    unfold verifications, hits.
    destruct (predicted_roi d), found; cbn; repeat split; lia.
  - eexists. split; [reflexivity|]. unfold verifications, hits. cbn.
    repeat split; lia.
Qed.

Lemma verifications_cons (o : op) (ops : list op) :
  verifications (o :: ops) = verifications [o] + verifications ops /\
  hits (o :: ops) = hits [o] + hits ops.
Proof.
  unfold verifications, hits. cbn [List.filter].
  destruct o as [| [] |]; cbn [length]; lia.
Qed.

(** X2.  With a positive threshold and a history size that is not
    negative, no sequence of [add_detection], [verify_prediction] and
    [reset] raises, and a history that starts within [history_size] stays
    within it: the averages never divide by zero and the deque never
    outgrows its [maxlen]. *)
Theorem calls_return_and_history_is_bounded (ops : list op) (d : detector) :
  0 < confidence_threshold d ->
  0 <= history_size d ->
  Z.of_nat (length (position_history d)) <= history_size d ->
  exists d',
    apply_all ops d = Ret d' /\
    history_size d' = history_size d /\
    confidence_threshold d' = confidence_threshold d /\
    Z.of_nat (length (position_history d')) <= history_size d.
Proof.
  revert d. induction ops as [|o ops IH]; intros d Ht Hs Hlen.
  - exists d. cbn. auto.
  - destruct (apply_step o d Ht) as (d1 & E & Hs1 & Ht1 & _ & Hb & _).
    cbn [apply_all]. rewrite E. cbn [rbind].
    destruct (IH d1) as (d' & E' & Hs' & Ht' & Hlen');
      [rewrite Ht1; exact Ht | rewrite Hs1; exact Hs
      | rewrite Hs1; apply Hb; assumption |].
    exists d'. rewrite Hs', Ht', Hs1, Ht1 in *. auto.
Qed.

Lemma record_all_few (ps : list position) :
  forall d : detector,
    0 < confidence_threshold d ->
    predicted_roi d = None ->
    Z.of_nat (length (position_history d)) + Z.of_nat (length ps)
      < confidence_threshold d ->
    exists d', record_all ps d = Ret d' /\ predicted_roi d' = None.
Proof.
  induction ps as [|p ps IH]; intros d Ht Hp Hlen.
  - exists d. split; [reflexivity | exact Hp].
  - cbn [record_all].
    destruct (add_detection_cases (pos_x p) (pos_y p) (pos_w p) (pos_h p)
                (pos_t p) d Ht) as (q & c & -> & Hq).
    cbn [rbind].
    pose proof (proj1 (deque_append_length (history_size d)
                  (position_history d)
                  (mk_position (pos_x p) (pos_y p) (pos_w p) (pos_h p)
                               (pos_t p)))) as Hl.
    cbn [length] in Hlen.
    apply IH; cbn [confidence_threshold predicted_roi position_history].
    + exact Ht.
    + destruct Hq as [-> | (Hge & _)]; [reflexivity | lia].
    + lia.
Qed.

(** X3.  After [reset], fewer than [confidence_threshold] detections never
    give a region: whatever they are and whenever it is asked,
    [get_predicted_roi] returns [None]. *)
Theorem no_prediction_below_threshold
  (ps : list position) (d : detector) (now : float) :
  0 < confidence_threshold d ->
  Z.of_nat (length ps) < confidence_threshold d ->
  exists d',
    record_all ps (reset d) = Ret d' /\ get_predicted_roi now d' = None.
Proof.
  intros Ht Hlen.
  destruct (record_all_few ps (reset d)) as (d' & E & Hp);
    [exact Ht | reflexivity | cbn; lia |].
  exists d'. split; [exact E|]. unfold get_predicted_roi. rewrite Hp.
  reflexivity.
Qed.

(** X4.  The prediction statistics are consistent under any sequence of
    calls: the hits counted never exceed the predictions counted, neither
    counter goes down, and they grow by no more than the number of
    [verify_prediction] calls, respectively of those reporting a hit;
    [add_detection] and [reset] leave both as they are. *)
Theorem statistics_stay_consistent (ops : list op) (d : detector) :
  0 < confidence_threshold d ->
  exists d',
    apply_all ops d = Ret d' /\
    0 <= successful_predictions d' - successful_predictions d
      <= total_predictions d' - total_predictions d /\
    total_predictions d' - total_predictions d <= verifications ops /\
    successful_predictions d' - successful_predictions d <= hits ops.
Proof.
  revert d. induction ops as [|o ops IH]; intros d Ht.
  - exists d. unfold verifications, hits. cbn. repeat split; lia.
  - destruct (apply_step o d Ht)
      as (d1 & E & _ & Ht1 & _ & _ & Hc & Hv & Hh).
    cbn [apply_all]. rewrite E. cbn [rbind].
    destruct (IH d1) as (d' & E' & Hc' & Hv' & Hh'); [rewrite Ht1; exact Ht|].
    exists d'. split; [exact E'|].
    destruct (verifications_cons o ops) as [-> ->]. lia.
Qed.

End ROIClientFacts.

Module ROIClientExamples.
Import ROI ROIClient ROIClientFacts ROIExamples.

(** The module's detector after two, then three detections of a code held
    still. *)
Definition two_still : detector :=
  Eval vm_compute in
    match record_all [still 10; still 10.5] smart_roi_detector with
    | Ret d => d
    | Exc _ => smart_roi_detector
    end.

Definition three_still : detector :=
  Eval vm_compute in
    match add_detection 100 200 300 300 11 two_still with
    | Ret d => d
    | Exc _ => two_still
    end.

Lemma prediction_only_from_similar_regions_witness :
  3 <= Z.of_nat (length (position_history three_still)) /\
  last (slice_last 3 (position_history three_still)) = Some (still 11) /\
  exists a,
    average (slice_last 3 (position_history three_still)) = Ret a /\
    forallb (is_similar a) (slice_last 3 (position_history three_still)) = true /\
    (70, 170, 360, 360) = expanded a.
Proof.
  apply (prediction_only_from_similar_regions 100 200 300 300 11
           two_still three_still (70, 170, 360, 360));
    [reflexivity | vm_compute; reflexivity | reflexivity].
Defined.

(** Seven detections, a check and a reset on the module's detector. *)
Lemma calls_return_and_history_is_bounded_witness :
  exists d',
    apply_all [AddDetection 100 200 300 300 10;
               AddDetection 100 200 300 300 10.5;
               AddDetection 100 200 300 300 11;
               VerifyPrediction true;
               AddDetection 101 200 300 300 11.5;
               AddDetection 100 201 300 300 12;
               AddDetection 100 200 301 300 12.5;
               AddDetection 100 200 300 301 13]
              smart_roi_detector = Ret d' /\
    history_size d' = 5 /\
    confidence_threshold d' = 3 /\
    Z.of_nat (length (position_history d')) <= 5.
Proof.
  apply (calls_return_and_history_is_bounded _ smart_roi_detector);
    [reflexivity | cbn; lia | cbn; lia].
Defined.

Lemma no_prediction_below_threshold_witness :
  exists d',
    record_all [still 10; still 10.5] (reset three_still) = Ret d' /\
    get_predicted_roi 10.6 d' = None.
Proof.
  apply (no_prediction_below_threshold [still 10; still 10.5] three_still);
    [reflexivity | cbn; lia].
Defined.

Lemma statistics_stay_consistent_witness :
  exists d',
    apply_all [VerifyPrediction true; Reset; VerifyPrediction true;
               VerifyPrediction false] three_still = Ret d' /\
    0 <= successful_predictions d' - 0 <= total_predictions d' - 0 /\
    total_predictions d' - 0 <= 3 /\
    successful_predictions d' - 0 <= 2.
Proof.
  apply (statistics_stay_consistent
           [VerifyPrediction true; Reset; VerifyPrediction true;
            VerifyPrediction false] three_still).
  reflexivity.
Defined.

End ROIClientExamples.

(** ** The buffer pool as a stack per shape *)

Module BufferPoolClientFacts.
Import BufferPool BufferPoolFacts.

Section Facts.
Context `{Numpy}.

(** The buffers held for a shape, oldest first; none when the shape has no
    bucket. *)
Definition bucket (p : pool) (size : list Z) : list ndarray :=
  default [] (buffers p !! size).

(** Every buffer sits in the bucket of its own shape. *)
Definition well_shaped (p : pool) : Prop :=
  forall size l, buffers p !! size = Some l -> Forall (fun b => shape b = size) l.

Lemma bucket_insert (p : pool) (size size' : list Z) (l : list ndarray) :
  bucket (with_buffers p (<[size := l]> (buffers p))) size' =
  if decide (size = size') then l else bucket p size'.
Proof.
  unfold bucket, with_buffers. cbn [buffers]. rewrite lookup_insert.
  destruct (decide (size = size')); reflexivity.
Qed.

Lemma bucket_len_bucket (p : pool) (size : list Z) :
  bucket_len p size = length (bucket p size).
Proof.
  unfold bucket_len, bucket. destruct (buffers p !! size); reflexivity.
Qed.

(** [pop()] on a bucket that ends with [b]. *)
Lemma get_buffer_pop (h w c : Z) (p : pool) (l : list ndarray) (b : ndarray) :
  bucket p [h; w; c] = l ++ [b] ->
  get_buffer h w c p =
    (Ret b, with_buffers p (<[[h; w; c] := l]> (buffers p))).
Proof.
  unfold bucket, get_buffer, bind, get. intros Hl.
  destruct (buffers p !! [h; w; c]) as [[|b0 l0]|];
    cbn [default from_option id] in Hl;
    try (destruct l; discriminate).
  unfold modify, ret. rewrite Hl, removelast_last, last_last. reflexivity.
Qed.

(** [np.zeros] when the bucket is missing or empty. *)
Lemma get_buffer_allocates (h w c : Z) (p : pool) :
  bucket p [h; w; c] = [] ->
  get_buffer h w c p = (np_zeros [h; w; c], p).
Proof.
  unfold bucket, get_buffer, bind, get, lift. intros Hl.
  destruct (buffers p !! [h; w; c]) as [[|b0 l0]|];
    cbn [default from_option id] in Hl; try discriminate; reflexivity.
Qed.

(** [append] below the cap. *)
Lemma return_buffer_push (b : ndarray) (p : pool) :
  Z.of_nat (length (bucket p (shape b))) < pool_size p ->
  return_buffer b p =
    with_buffers p (<[shape b := bucket p (shape b) ++ [b]]> (buffers p)).
Proof.
  unfold bucket, return_buffer. intros Hc.
  destruct (buffers p !! shape b) as [l|] eqn:Hl; cbv beta iota zeta.
  - rewrite Hl. cbn [default from_option id] in *.
    apply Z.ltb_lt in Hc. rewrite Hc. reflexivity.
  - unfold with_buffers. cbn [buffers pool_size].
    rewrite !lookup_insert_eq. cbn [default from_option id length] in *.
    apply Z.ltb_lt in Hc. rewrite Hc. cbn [buffers pool_size].
    rewrite insert_insert_eq. reflexivity.
Qed.

(** X5.  Release, then acquire: below the cap, a buffer that is released
    is the one the next [get_buffer] for its shape returns (the bucket is
    a stack), no allocation takes place, and afterwards every bucket holds
    what it held before the release. *)
Theorem released_buffer_is_reused (p : pool) (b : ndarray) (h w c : Z) :
  shape b = [h; w; c] ->
  Z.of_nat (bucket_len p [h; w; c]) < pool_size p ->
  exists p',
    get_buffer h w c (return_buffer b p) = (Ret b, p') /\
    pool_size p' = pool_size p /\
    forall size, bucket p' size = bucket p size.
Proof.
  intros Hs Hc. rewrite bucket_len_bucket, <- Hs in Hc.
  rewrite (return_buffer_push b p Hc), Hs.
  eexists. split.
  - apply get_buffer_pop. rewrite bucket_insert.
    destruct (decide ([h; w; c] = [h; w; c])); [reflexivity | congruence].
  - split; [reflexivity|]. intros size.
    unfold with_buffers at 1. cbn [with_buffers buffers pool_size].
    unfold bucket at 1. cbn [buffers]. rewrite insert_insert_eq.
    rewrite lookup_insert.
    destruct (decide ([h; w; c] = size)) as [<-|]; reflexivity.
Qed.

(** X6.  The pool does not notice a buffer that is released twice: with
    room for two more, both releases are kept, and the next two
    [get_buffer] calls for that shape hand out the very same array. *)
Theorem double_release_is_handed_out_twice
  (p : pool) (b : ndarray) (h w c : Z) :
  shape b = [h; w; c] ->
  Z.of_nat (bucket_len p [h; w; c]) + 1 < pool_size p ->
  exists p1 p2,
    get_buffer h w c (return_buffer b (return_buffer b p)) = (Ret b, p1) /\
    get_buffer h w c p1 = (Ret b, p2) /\
    forall size, bucket p2 size = bucket p size.
Proof.
  intros Hs Hc. rewrite bucket_len_bucket, <- Hs in Hc.
  rewrite (return_buffer_push b p) by lia.
  rewrite return_buffer_push;
    [|rewrite bucket_insert;
      destruct (decide (shape b = shape b)); [|congruence];
      rewrite length_app; cbn [length with_buffers pool_size]; lia].
  rewrite bucket_insert.
  destruct (decide (shape b = shape b)) as [_|]; [|congruence].
  unfold with_buffers. cbn [buffers pool_size].
  rewrite insert_insert_eq, Hs.
  eexists _, _. split; [|split].
  - apply get_buffer_pop. unfold bucket at 1. cbn [buffers].
    rewrite lookup_insert_eq. reflexivity.
  - unfold with_buffers. cbn [buffers pool_size]. rewrite insert_insert_eq.
    apply get_buffer_pop. unfold bucket at 1. cbn [buffers].
    rewrite lookup_insert_eq. reflexivity.
  - intros size. unfold bucket at 1. unfold with_buffers.
    cbn [buffers pool_size].
    rewrite !insert_insert_eq, lookup_insert.
    destruct (decide ([h; w; c] = size)) as [<-|]; reflexivity.
Qed.

(** X7.  What [__init__] leaves: two buffers for each of the four common
    shapes and none for any other shape, whatever the cap.  The
    pre-allocation does not look at [pool_size], so with a cap of two or
    less a fresh pool is already full for the common shapes, and a buffer
    of such a shape that is released to it is dropped. *)
Theorem fresh_pool_holds_two_per_common_size (n : Z) (p : pool) :
  init n = Ret p ->
  pool_size p = n /\
  (forall size, In size common_sizes -> bucket_len p size = 2%nat) /\
  (forall size, ~ In size common_sizes -> bucket_len p size = 0%nat) /\
  (n <= 2 ->
   forall b, In (shape b) common_sizes -> return_buffer b p = p).
Proof.
  unfold init.
  destruct (allocate_common common_sizes _) as [[[]|e] p'] eqn:Hrun;
    [|discriminate].
  intros [= <-]. unfold common_sizes in Hrun. cbn [allocate_common] in Hrun.
  apply MFacts.bind_ret_inv in Hrun as ([] & p1 & H1 & Hrun).
  apply MFacts.bind_ret_inv in Hrun as ([] & p2 & H2 & Hrun).
  apply MFacts.bind_ret_inv in Hrun as ([] & p3 & H3 & Hrun).
  apply MFacts.bind_ret_inv in Hrun as ([] & p4 & H4 & Hrun).
  unfold ret in Hrun. injection Hrun as <-.
  destruct (allocate_buffers_len _ _ _ _ H1) as [Hs1 Hl1].
  destruct (allocate_buffers_len _ _ _ _ H2) as [Hs2 Hl2].
  destruct (allocate_buffers_len _ _ _ _ H3) as [Hs3 Hl3].
  destruct (allocate_buffers_len _ _ _ _ H4) as [Hs4 Hl4].
  assert (Hsize : pool_size p4 = n)
    by (rewrite Hs4, Hs3, Hs2, Hs1; reflexivity).
  assert (He : forall size',
             bucket_len {| pool_size := n; buffers := ∅ |} size' = 0%nat).
  { intros size'. unfold bucket_len. cbn [buffers].
    rewrite lookup_empty. reflexivity. }
  assert (Hin : forall size, In size common_sizes -> bucket_len p4 size = 2%nat).
  { intros size Hin. rewrite Hl4, Hl3, Hl2, Hl1, He.
    destruct Hin as [<-|[<-|[<-|[<-|[]]]]];
      repeat (match goal with
              | |- context [decide (?a = ?b)] =>
                  destruct (decide (a = b)); [try discriminate|try congruence]
              end); reflexivity. }
  split; [exact Hsize|]. split; [exact Hin|]. split.
  - intros size Hnin. rewrite Hl4, Hl3, Hl2, Hl1, He.
    repeat (match goal with
            | |- context [decide (?a = ?b) ] =>
                destruct (decide (a = b)) as [E|];
                [exfalso; apply Hnin; rewrite <- E; cbn; tauto|]
            end); reflexivity.
  - intros Hn b Hb. specialize (Hin _ Hb). unfold bucket_len in Hin.
    unfold return_buffer.
    destruct (buffers p4 !! shape b) as [l|] eqn:Hl; [|discriminate].
    cbv beta iota zeta. rewrite Hl. cbn [default from_option id].
    replace (Z.of_nat (length l) <? pool_size p4) with false
      by (symmetry; apply Z.ltb_ge; lia).
    reflexivity.
Qed.

Section ShapeSafety.

(** [np.zeros(size)] gives an array of shape [size]. *)
Hypothesis zeros_shape :
  forall size a, np_zeros size = Ret a -> shape a = size.

Lemma well_shaped_insert (p : pool) (size : list Z) (l : list ndarray) :
  well_shaped p -> Forall (fun b => shape b = size) l ->
  well_shaped (with_buffers p (<[size := l]> (buffers p))).
Proof.
  intros Hp Hl size' l'. unfold with_buffers. cbn [buffers].
  rewrite lookup_insert. destruct (decide (size = size')) as [<-|].
  - intros [= <-]. exact Hl.
  - apply Hp.
Qed.

Lemma well_shaped_bucket (p : pool) (size : list Z) :
  well_shaped p -> Forall (fun b => shape b = size) (bucket p size).
Proof.
  intros Hp. unfold bucket.
  destruct (buffers p !! size) as [l|] eqn:Hl; [exact (Hp _ _ Hl) | constructor].
Qed.

Lemma allocate_n_shaped (size : list Z) (count : nat) :
  forall p p',
    allocate_n size count p = (Ret tt, p') -> well_shaped p -> well_shaped p'.
Proof.
  induction count as [|count IH]; intros p p' Hrun Hp; cbn [allocate_n] in Hrun.
  - unfold ret in Hrun. injection Hrun as <-. exact Hp.
  - apply MFacts.bind_ret_inv in Hrun as (buffer & p1 & Hz & Hrun).
    unfold lift in Hz. injection Hz as Hz <-.
    apply MFacts.bind_ret_inv in Hrun as (u & p2 & Hm & Hrun).
    unfold modify in Hm. injection Hm as _ <-.
    apply (IH _ _ Hrun). apply well_shaped_insert; [exact Hp|].
    apply Forall_app. split; [apply (well_shaped_bucket p size Hp)|].
    constructor; [apply zeros_shape; exact Hz | constructor].
Qed.

Lemma allocate_common_shaped (sizes : list (list Z)) :
  forall p p',
    allocate_common sizes p = (Ret tt, p') -> well_shaped p -> well_shaped p'.
Proof.
  induction sizes as [|size sizes IH]; intros p p' Hrun Hp;
    cbn [allocate_common] in Hrun.
  - unfold ret in Hrun. injection Hrun as <-. exact Hp.
  - apply MFacts.bind_ret_inv in Hrun as ([] & p1 & Ha & Hrun).
    apply (IH _ _ Hrun). unfold _allocate_buffers in Ha.
    apply MFacts.bind_ret_inv in Ha as (u & p0 & Hm & Ha).
    unfold modify in Hm. injection Hm as _ <-.
    apply (allocate_n_shaped _ _ _ _ Ha).
    destruct (buffers p !! size); [exact Hp|].
    apply well_shaped_insert; [exact Hp | constructor].
Qed.

Lemma return_buffer_shaped (b : ndarray) (p : pool) :
  well_shaped p -> well_shaped (return_buffer b p).
Proof.
  intros Hp. unfold return_buffer.
  assert (Hp1 : well_shaped
                  match buffers p !! shape b with
                  | Some _ => p
                  | None => with_buffers p (<[shape b := []]> (buffers p))
                  end).
  { destruct (buffers p !! shape b); [exact Hp|].
    apply well_shaped_insert; [exact Hp | constructor]. }
  cbv zeta.
  match goal with |- context [if ?c then _ else _] => destruct c end;
    [|exact Hp1].
  apply well_shaped_insert; [exact Hp1|].
  apply Forall_app. split; [apply (well_shaped_bucket _ _ Hp1)|].
  constructor; [reflexivity | constructor].
Qed.

Lemma get_buffer_shaped (h w c : Z) (p : pool) :
  well_shaped p ->
  well_shaped (snd (get_buffer h w c p)) /\
  forall b p', get_buffer h w c p = (Ret b, p') -> shape b = [h; w; c].
Proof.
  intros Hp.
  destruct (bucket p [h; w; c]) as [|b0 l0] eqn:Hb using rev_ind.
  - rewrite (get_buffer_allocates h w c p Hb). cbn [snd].
    split; [exact Hp|]. intros b p' [= Hz _]. apply zeros_shape. exact Hz.
  - pose proof (well_shaped_bucket p [h; w; c] Hp) as Hall.
    rewrite Hb in Hall. apply Forall_app in Hall as [Hl0 Hlast].
    rewrite (get_buffer_pop h w c p _ _ Hb). cbn [snd]. split.
    + apply well_shaped_insert; assumption.
    + intros b p' [= <- _]. inversion Hlast. assumption.
Qed.

Lemma apply_shaped (o : op) (p : pool) :
  well_shaped p -> well_shaped (apply o p).
Proof.
  intros Hp. destruct o as [h w c|b|]; cbn [apply].
  - apply get_buffer_shaped. exact Hp.
  - apply return_buffer_shaped. exact Hp.
  - intros size l. unfold clear, with_buffers. cbn [buffers].
    rewrite lookup_empty. discriminate.
Qed.

Lemma apply_all_shaped (ops : list op) :
  forall p, well_shaped p -> well_shaped (apply_all ops p).
Proof.
  induction ops as [|o ops IH]; intros p Hp; [exact Hp|].
  change (apply_all (o :: ops) p) with (apply_all ops (apply o p)).
  apply IH, apply_shaped, Hp.
Qed.

(** X8.  A client always gets the shape it asks for.  Given that
    [np.zeros(size)] has shape [size], the pool that [__init__] builds
    keeps every buffer under its own shape through any acquires, releases
    and clears, so whatever [get_buffer(height, width, channels)] returns,
    reused or new, has shape [(height, width, channels)]. *)
Theorem acquired_buffer_has_requested_shape
  (n : Z) (p0 : pool) (ops : list op) (h w c : Z) (b : ndarray) (p' : pool) :
  init n = Ret p0 ->
  get_buffer h w c (apply_all ops p0) = (Ret b, p') ->
  shape b = [h; w; c].
Proof.
  intros Hi Hg.
  assert (Hp0 : well_shaped p0).
  { unfold init in Hi.
    destruct (allocate_common common_sizes _) as [[[]|e] p1] eqn:Hrun;
      [|discriminate].
    injection Hi as <-.
    apply (allocate_common_shaped _ _ _ Hrun).
    intros size l. cbn [buffers]. rewrite lookup_empty. discriminate. }
  exact (proj2 (get_buffer_shaped h w c _ (apply_all_shaped ops p0 Hp0))
               b p' Hg).
Qed.

End ShapeSafety.

End Facts.

End BufferPoolClientFacts.

Module BufferPoolClientExamples.
Import BufferPool BufferPoolFacts BufferPoolBench BufferPoolClientFacts.

Lemma released_buffer_is_reused_witness :
  exists p',
    @get_buffer arrays 720 1280 3
      (return_buffer (frame 7) {| pool_size := 2; buffers := ∅ |})
    = (Ret (frame 7), p') /\
    pool_size p' = 2 /\
    forall size, bucket p' size = bucket {| pool_size := 2; buffers := ∅ |} size.
Proof.
  apply (@released_buffer_is_reused arrays
           {| pool_size := 2; buffers := ∅ |} (frame 7) 720 1280 3);
    [reflexivity | vm_compute; reflexivity].
Defined.

Lemma double_release_is_handed_out_twice_witness :
  exists p1 p2,
    @get_buffer arrays 720 1280 3
      (return_buffer (frame 7)
         (return_buffer (frame 7) {| pool_size := 5; buffers := ∅ |}))
    = (Ret (frame 7), p1) /\
    get_buffer 720 1280 3 p1 = (Ret (frame 7), p2) /\
    forall size, bucket p2 size = bucket {| pool_size := 5; buffers := ∅ |} size.
Proof.
  apply (@double_release_is_handed_out_twice arrays
           {| pool_size := 5; buffers := ∅ |} (frame 7) 720 1280 3);
    [reflexivity | vm_compute; reflexivity].
Defined.

(** A pool built with a cap of one. *)
Lemma fresh_pool_holds_two_per_common_size_witness :
  exists p,
    @init arrays 1 = Ret p /\
    pool_size p = 1 /\
    (forall size, In size common_sizes -> bucket_len p size = 2%nat) /\
    (forall size, ~ In size common_sizes -> bucket_len p size = 0%nat) /\
    (1 <= 2 ->
     forall b, In (shape b) common_sizes -> return_buffer b p = p).
Proof.
  destruct (@init arrays 1) as [p|e] eqn:Hi; [|vm_compute in Hi; discriminate].
  exists p. split; [reflexivity|].
  exact (@fresh_pool_holds_two_per_common_size arrays 1 p Hi).
Defined.

Lemma arrays_zeros_shape :
  forall size a, @np_zeros arrays size = Ret a -> @shape arrays a = size.
Proof.
  intros size a. unfold np_zeros, shape, arrays.
  destruct (forallb _ size); intros [= <-]. reflexivity.
Defined.

(** The default pool, after an HD frame was released, the pool cleared and
    the frame released again. *)
Lemma acquired_buffer_has_requested_shape_witness :
  exists p0 b p',
    @init arrays 5 = Ret p0 /\
    get_buffer 720 1280 3
      (apply_all [Release (frame 1); Clear; Release (frame 2)] p0)
    = (Ret b, p') /\
    shape b = [720; 1280; 3].
Proof.
  destruct (@init arrays 5) as [p0|e] eqn:Hi; [|vm_compute in Hi; discriminate].
  pose proof Hi as Hc. vm_compute in Hc. injection Hc as Hc.
  destruct (get_buffer 720 1280 3
              (apply_all [Release (frame 1); Clear; Release (frame 2)] p0))
    as [[b|e] p'] eqn:Hg.
  - exists p0, b, p'. split; [reflexivity|]. split; [exact Hg|].
    exact (@acquired_buffer_has_requested_shape arrays arrays_zeros_shape
             5 p0 _ 720 1280 3 b p' Hi Hg).
  - rewrite <- Hc in Hg. vm_compute in Hg. discriminate.
Defined.

End BufferPoolClientExamples.

(** ** Remote calls: the token, the warm-up, and calls without retry *)

Module KuroAPIClientFacts.
Import KuroAPI MFacts KuroAPIFacts ScanThreadFacts.

(** The world after [self.token = tok; self.headers["token"] = tok]. *)
Definition with_token (w : world) (tok : json) : world :=
  {| sent := sent w; calls := calls w; token := tok;
     header_token := Some tok; connection_warmed := connection_warmed w |}.

(** The warm-up request, as sent while the header token is [tok]. *)
Definition head_request (tok : option json) : request :=
  {| req_method := "HEAD"; req_url := url_warm_up; req_data := None;
     req_token := tok; req_timeout := 0.3 |}.

Section Facts.
Context `{Network}.

(** The world after a warm-up: the HEAD request is sent, and the
    connection counts as warmed if [session.head] returned. *)
Definition warmed_up (w : world) : world :=
  {| sent := sent w ++ [head_request (header_token w)];
     calls := calls w; token := token w; header_token := header_token w;
     connection_warmed :=
       match send (sent w) (head_request (header_token w)) with
       | Ret _ => true
       | Exc _ => connection_warmed w
       end |}.

Lemma warm_up_connection_spec (w : world) :
  warm_up_connection w = (Ret tt, warmed_up w).
Proof.
  unfold warm_up_connection, try_except, bind, session_head, session_send,
    modify, warmed_up, head_request, ret.
  destruct (send (sent w) _) as [resp|e]; reflexivity.
Qed.

Lemma set_token_spec (tok : json) (w : world) :
  set_token tok w =
  (Ret tt, if connection_warmed w then with_token w tok
           else warmed_up (with_token w tok)).
Proof.
  unfold set_token, bind, modify, get. cbn [connection_warmed].
  fold (with_token w tok).
  destruct (connection_warmed w); cbn [negb]; [reflexivity|].
  apply warm_up_connection_spec.
Qed.

(** Setting a list of tokens one after the other. *)
Fixpoint set_tokens (toks : list json) : M world unit :=
  match toks with
  | [] => ret tt
  | tok :: toks' => let* _ := set_token tok in set_tokens toks'
  end.

(** X9.  [set_token] warms the connection at most once.  While the
    connection is not warmed, it sends one HEAD request to the role
    endpoint with a 0.3 s timeout, already carrying the new token, and
    returns even if that request raises; the connection counts as warmed
    exactly if the request returned.  Once it is warmed, any number of
    [set_token] calls send nothing, and the last token set is the one in
    force. *)
Theorem set_token_warms_at_most_once (tok : json) (toks : list json) (w : world) :
  (connection_warmed w = false ->
   exists w',
     set_token tok w = (Ret tt, w') /\
     sent w' = sent w ++ [head_request (Some tok)] /\
     token w' = tok /\ header_token w' = Some tok /\
     (connection_warmed w' = true <->
      exists response, send (sent w) (head_request (Some tok)) = Ret response)) /\
  (connection_warmed w = true ->
   exists w',
     set_tokens (toks ++ [tok]) w = (Ret tt, w') /\
     sent w' = sent w /\ connection_warmed w' = true /\
     token w' = tok /\ header_token w' = Some tok).
Proof.
  split.
  - intros Hw. rewrite set_token_spec, Hw. eexists. split; [reflexivity|].
    unfold warmed_up, with_token.
    cbn [sent token header_token connection_warmed].
    repeat split; try reflexivity.
    + destruct (send (sent w) (head_request (Some tok))) as [resp|e];
        [eexists; reflexivity | congruence].
    + intros [resp ->]. reflexivity.
  - revert w. induction toks as [|t toks IH]; intros w Hw.
    + cbn [app set_tokens]. unfold bind. rewrite set_token_spec, Hw.
      eexists. split; [reflexivity|]. cbn. rewrite Hw. auto.
    + cbn [app set_tokens]. unfold bind at 1. rewrite set_token_spec, Hw.
      destruct (IH (with_token w t) Hw) as (w' & Hrun & Hs & Hrest).
      exists w'. split; [exact Hrun|]. split; [exact Hs | exact Hrest].
Qed.

(** [login], by what the server answers. *)
Definition login_request (mobile code : string) (w : world) : request :=
  post_request url_sdkLogin (Form [("mobile", mobile); ("code", code)]) w 5.

Lemma login_spec (mobile code : string) (w : world) :
  let w1 := with_call w (CallLogin mobile code) in
  let req := login_request mobile code w in
  let w2 := with_sent w1 [req] in
  login mobile code w =
  match outcome (sent w) req with
  | Exc e => (Ret (failure ("请求失败: " +:+ exc_str e)), w2)
  | Ret result =>
      match dict_get result "code" JNull with
      | Exc e => (Ret (failure ("请求失败: " +:+ exc_str e)), w2)
      | Ret c =>
          if py_eq_int c 200 then
            match rbind (dict_get result "data" (JDict []))
                        (fun data => dict_get data "token" (JStr "")) with
            | Exc e => (Ret (failure ("请求失败: " +:+ exc_str e)), w2)
            | Ret tok =>
                (Ret result,
                 if connection_warmed w then with_token w2 tok
                 else warmed_up (with_token w2 tok))
            end
          else (Ret result, w2)
      end
  end.
Proof.
  intros w1 req w2. unfold login.
  rewrite (bind_ok _ _ _ _ _ (record_call_run _ _)). fold w1.
  unfold try_except. unfold bind at 1.
  unfold session_post, session_send. fold (post_request url_sdkLogin
    (Form [("mobile", mobile); ("code", code)]) w1 5).
  change (post_request url_sdkLogin (Form [("mobile", mobile); ("code", code)])
            w1 5) with req.
  change (sent w1) with (sent w). fold (with_sent w1 [req]). fold w2.
  unfold outcome.
  destruct (send (sent w) req) as [[result|e]|e]; try reflexivity.
  unfold bind at 1. unfold lift at 1. unfold bind at 1. unfold lift at 1.
  destruct (dict_get result "code" JNull) as [c|e]; [|reflexivity].
  unfold bind at 1.
  destruct (py_eq_int c 200); [|reflexivity].
  unfold bind at 1. unfold lift at 1.
  destruct (dict_get result "data" (JDict [])) as [data|e]; [|reflexivity].
  cbn [rbind]. unfold bind at 1. unfold lift at 1.
  destruct (dict_get data "token" (JStr "")) as [tok|e]; [|reflexivity].
  rewrite set_token_spec. reflexivity.
Qed.

(** The requests of one validation call, made in world [w]. *)
Lemma get_role_infos_token (qr_code : string) (smart_retry : bool) (w : world) :
  exists r reqs,
    get_role_infos qr_code smart_retry w =
      (Ret r, with_sent (with_call w (CallGetRoleInfos qr_code smart_retry)) reqs) /\
    reqs <> [] /\
    Forall (fun req => req_token req = header_token w) reqs.
Proof.
  rewrite get_role_infos_unfold.
  destruct (attempts_trace url_roleInfos (Form [("qrCode", qr_code)])
              (role_timeouts smart_retry) None
              (with_call w (CallGetRoleInfos qr_code smart_retry)))
    as (r & reqs & Hrun & Hreqs & _ & Hne & _ & _).
  exists r, reqs. split; [exact Hrun|]. split.
  - apply Hne. destruct smart_retry; discriminate.
  - rewrite Hreqs. apply Forall_forall. intros req Hin.
    apply list_elem_of_In, in_map_iff in Hin as (t & <- & _). reflexivity.
Qed.

(** X10.  [login] changes the token exactly when it returns a dictionary
    whose [code] is 200.  In that case the token is the [token] entry of
    the answer's [data] (the empty string when there is none), it is also
    the header token, and every request a later [get_role_infos] sends
    carries it.  In every other case (another code, an answer that is not
    a dictionary, an exception anywhere) the token, the header token and
    the warm-up flag are as before, and the login request was the only one
    sent. *)
Theorem login_sets_token_on_200_only (mobile code : string) (w : world) :
  exists r w',
    login mobile code w = (Ret r, w') /\
    (is_code r 200 = true ->
     exists tok,
       rbind (dict_get r "data" (JDict []))
             (fun data => dict_get data "token" (JStr "")) = Ret tok /\
       token w' = tok /\ header_token w' = Some tok /\
       forall qr_code smart_retry,
       exists r' reqs,
         get_role_infos qr_code smart_retry w' =
           (Ret r',
            with_sent (with_call w' (CallGetRoleInfos qr_code smart_retry)) reqs) /\
         reqs <> [] /\
         Forall (fun req => req_token req = Some tok) reqs) /\
    (is_code r 200 = false ->
     token w' = token w /\ header_token w' = header_token w /\
     connection_warmed w' = connection_warmed w /\
     sent w' = sent w ++ [login_request mobile code w]).
Proof.
  pose proof (login_spec mobile code w) as Hspec. cbv zeta in Hspec.
  rewrite Hspec. clear Hspec.
  assert (Hfail : forall msg, is_code (failure msg) 200 = false)
    by reflexivity.
  destruct (outcome (sent w) (login_request mobile code w)) as [result|e].
  2:{ eexists _, _. split; [reflexivity|]. rewrite Hfail.
      split; [discriminate|]. intros _. cbn. auto. }
  destruct (dict_get result "code" JNull) as [c|e] eqn:Hc.
  2:{ eexists _, _. split; [reflexivity|]. rewrite Hfail.
      split; [discriminate|]. intros _. cbn. auto. }
  destruct (py_eq_int c 200) eqn:H200.
  2:{ eexists _, _. split; [reflexivity|]. unfold is_code. rewrite Hc, H200.
      split; [discriminate|]. intros _. cbn. auto. }
  destruct (rbind (dict_get result "data" (JDict [])) _) as [tok|e] eqn:Htok.
  2:{ eexists _, _. split; [reflexivity|]. rewrite Hfail.
      split; [discriminate|]. intros _. cbn. auto. }
  eexists _, _. split; [reflexivity|]. unfold is_code. rewrite Hc, H200.
  split; [|discriminate]. intros _. exists tok. split; [exact Htok|].
  set (w' := if connection_warmed w then _ else _).
  assert (Hw' : token w' = tok /\ header_token w' = Some tok).
  { unfold w'. destruct (connection_warmed w); split; reflexivity. }
  destruct Hw' as [Ht Hh]. split; [exact Ht|]. split; [exact Hh|].
  intros qr_code smart_retry. rewrite <- Hh.
  apply get_role_infos_token.
Qed.

(** What a single attempt comes to. *)
Definition settle (timeout : float) (o : result json) : json :=
  match o with
  | Ret r => r
  | Exc e =>
      failure (if exc_is_timeout e then timeout_message timeout
               else "请求失败: " +:+ exc_str e)
  end.

(** X11.  With [smart_retry=False] nothing is retried, not even a timeout:
    [get_role_infos] sends exactly one request, with a 1.0 s timeout, and
    [scan_login] exactly one with 1.5 s.  The answer is returned as it is,
    a timeout gives the failure dictionary that names that timeout, and
    any other exception the failure dictionary with its text. *)
Theorem single_attempt_without_smart_retry
  (qr_code verify_code : string) (auto_login : bool) (w : world) :
  let wr := with_call w (CallGetRoleInfos qr_code false) in
  let ws := with_call w (CallScanLogin qr_code verify_code auto_login false) in
  let role_req :=
    post_request url_roleInfos (Form [("qrCode", qr_code)]) w 1.0 in
  let scan_req :=
    post_request url_scanLogin (scan_form qr_code verify_code auto_login) w 1.5 in
  get_role_infos qr_code false w =
    (Ret (settle 1.0 (outcome (sent w) role_req)), with_sent wr [role_req]) /\
  scan_login qr_code verify_code auto_login false w =
    (Ret (settle 1.5 (outcome (sent w) scan_req)), with_sent ws [scan_req]).
Proof.
  cbv zeta. split.
  - rewrite get_role_infos_unfold. cbn [role_timeouts].
    rewrite attempts_cons. unfold try_except. rewrite attempt_step.
    change (sent (with_call w (CallGetRoleInfos qr_code false))) with (sent w).
    change (post_request url_roleInfos (Form [("qrCode", qr_code)])
              (with_call w (CallGetRoleInfos qr_code false)) 1.0)
      with (post_request url_roleInfos (Form [("qrCode", qr_code)]) w 1.0).
    destruct (outcome (sent w) _) as [r|e]; [reflexivity|].
    cbn [settle]. destruct (exc_is_timeout e); reflexivity.
  - rewrite scan_login_unfold. cbn [scan_timeouts].
    rewrite attempts_cons. unfold try_except. rewrite attempt_step.
    change (sent (with_call w (CallScanLogin qr_code verify_code auto_login false)))
      with (sent w).
    change (post_request url_scanLogin (scan_form qr_code verify_code auto_login)
              (with_call w (CallScanLogin qr_code verify_code auto_login false))
              1.5)
      with (post_request url_scanLogin
              (scan_form qr_code verify_code auto_login) w 1.5).
    destruct (outcome (sent w) _) as [r|e]; [reflexivity|].
    cbn [settle]. destruct (exc_is_timeout e); reflexivity.
Qed.

End Facts.

End KuroAPIClientFacts.

(** ** The login thread: what it calls and when it reports success *)

Module ScanThreadClientFacts.
Import KuroAPI ScanThread MFacts KuroAPIFacts ScanThreadFacts.

Section Facts.
Context `{Network}.

(** A call of [get_role_infos] with smart retry: it returns, adds itself to
    the calls, and sends its requests to the role endpoint only. *)
Lemma get_role_infos_run (qr_code : string) (w : world) :
  exists role reqs,
    get_role_infos qr_code true w =
      (Ret role, with_sent (with_call w (CallGetRoleInfos qr_code true)) reqs) /\
    Forall (fun req => req_url req = url_roleInfos) reqs.
Proof.
  rewrite get_role_infos_unfold.
  destruct (attempts_trace url_roleInfos (Form [("qrCode", qr_code)])
              (role_timeouts true) None
              (with_call w (CallGetRoleInfos qr_code true)))
    as (r & reqs & Hrun & Hreqs & _).
  exists r, reqs. split; [exact Hrun|].
  rewrite Hreqs. apply Forall_forall. intros req Hin.
  apply list_elem_of_In, in_map_iff in Hin as (t & <- & _). reflexivity.
Qed.

(** [validate] once [get_role_infos] has returned. *)
Lemma validate_spec (t : thread) (w w0 : world) (role : json) :
  skip_role_check t = false ->
  get_role_infos (qr_code t) true w = (Ret role, w0) ->
  validate t w =
  match dict_get role "code" JNull with
  | Exc e => (Exc e, w0)
  | Ret c =>
      if py_eq_int c 220 then (Ret (Some (failed (JStr "Token已过期"))), w0)
      else if py_eq_int c 2209 then
        (Ret (Some (failed (JStr "二维码已过期"))), w0)
      else if negb (py_eq_int c 200) then
        match dict_get role "msg" (JStr "验证失败") with
        | Ret msg => (Ret (Some (failed msg)), w0)
        | Exc e => (Exc e, w0)
        end
      else (Ret None, w0)
  end.
Proof.
  intros Hskip Hrun. unfold validate. rewrite Hskip. cbn [negb].
  rewrite (bind_ok _ _ _ _ _ Hrun). unfold bind at 1. unfold lift at 1.
  destruct (dict_get role "code" JNull) as [c|e]; [|reflexivity].
  destruct (py_eq_int c 220); [reflexivity|].
  destruct (py_eq_int c 2209); [reflexivity|].
  destruct (py_eq_int c 200); cbn [negb]; [reflexivity|].
  unfold bind, lift. destruct (dict_get role "msg" _); reflexivity.
Qed.

(** X12.  Confirm is never called for a payload that validation did not
    accept.  A thread that does not skip validation calls
    [get_role_infos], which sends requests to the role endpoint only; if
    the answer is not a dictionary with [code] 200, the thread stops
    there: it reports a failure that asks for no SMS code, [scan_login] is
    not called and no request goes to the scan-login endpoint.  Code 220
    is reported as an expired token, code 2209 as an expired code. *)
Theorem no_confirm_unless_validated (t : thread) (w : world) :
  skip_role_check t = false ->
  exists role reqs res,
    get_role_infos (qr_code t) true w =
      (Ret role,
       with_sent (with_call w (CallGetRoleInfos (qr_code t) true)) reqs) /\
    Forall (fun req => req_url req = url_roleInfos) reqs /\
    (is_code role 200 = false ->
     run t w =
       (Ret res,
        with_sent (with_call w (CallGetRoleInfos (qr_code t) true)) reqs) /\
     success res = false /\ need_sms res = false /\
     (is_code role 220 = true -> message res = JStr "Token已过期") /\
     (is_code role 220 = false -> is_code role 2209 = true ->
      message res = JStr "二维码已过期")).
Proof.
  intros Hskip.
  destruct (get_role_infos_run (qr_code t) w) as (role & reqs & Hrun & Hurl).
  set (w0 := with_sent _ reqs) in *.
  assert (Hres : exists res,
    is_code role 200 = false ->
    run t w = (Ret res, w0) /\
    success res = false /\ need_sms res = false /\
    (is_code role 220 = true -> message res = JStr "Token已过期") /\
    (is_code role 220 = false -> is_code role 2209 = true ->
     message res = JStr "二维码已过期")).
  { unfold run, try_except. unfold bind at 1.
    rewrite (validate_spec t w w0 role Hskip Hrun). unfold is_code.
    destruct (dict_get role "code" JNull) as [c|e] eqn:Hc.
    2:{ eexists. intros _. split; [reflexivity|].
        repeat split; discriminate. }
    destruct (py_eq_int c 220) eqn:H220.
    { eexists. intros _. split; [reflexivity|].
      repeat split; try reflexivity; discriminate. }
    destruct (py_eq_int c 2209) eqn:H2209.
    { eexists. intros _. split; [reflexivity|].
      repeat split; try reflexivity; discriminate. }
    destruct (py_eq_int c 200) eqn:H200.
    { exists succeeded. discriminate. }
    cbn [negb].
    destruct (dict_get role "msg" (JStr "验证失败")) as [msg|e].
    - eexists. intros _. split; [reflexivity|].
      repeat split; try reflexivity; discriminate.
    - eexists. intros _. split; [reflexivity|].
      repeat split; discriminate. }
  destruct Hres as [res Hres].
  exists role, reqs, res. split; [exact Hrun|]. split; [exact Hurl | exact Hres].
Qed.

(** [validate], whatever the server says: what it leaves behind, and that
    it never reports success itself. *)
Lemma validate_outcome (t : thread) (w : world) :
  exists o wv,
    validate t w = (o, wv) /\
    (forall r, o = Ret (Some r) -> success r = false /\ need_sms r = false) /\
    calls wv = calls w ++ (if skip_role_check t then []
                           else [CallGetRoleInfos (qr_code t) true]).
Proof.
  destruct (skip_role_check t) eqn:Hskip.
  - exists (Ret None), w. unfold validate. rewrite Hskip. cbn [negb].
    split; [reflexivity|]. split; [discriminate|].
    rewrite app_nil_r. reflexivity.
  - destruct (get_role_infos_run (qr_code t) w) as (role & reqs & Hrun & _).
    rewrite (validate_spec t w _ role Hskip Hrun).
    destruct (dict_get role "code" JNull) as [c|e].
    2:{ eexists _, _. split; [reflexivity|]. split; [discriminate | reflexivity]. }
    destruct (py_eq_int c 220).
    { eexists _, _. split; [reflexivity|].
      split; [intros r [= <-]; split; reflexivity | reflexivity]. }
    destruct (py_eq_int c 2209).
    { eexists _, _. split; [reflexivity|].
      split; [intros r [= <-]; split; reflexivity | reflexivity]. }
    destruct (py_eq_int c 200); cbn [negb].
    { eexists _, _. split; [reflexivity|]. split; [discriminate | reflexivity]. }
    destruct (dict_get role "msg" _) as [msg|e].
    + eexists _, _. split; [reflexivity|].
      split; [intros r [= <-]; split; reflexivity | reflexivity].
    + eexists _, _. split; [reflexivity|]. split; [discriminate | reflexivity].
Qed.

(** The retry of [confirm], once its [scan_login] has returned. *)
Definition retried (second : json) (w2 : world) : result scan_result * world :=
  match dict_get second "code" JNull with
  | Exc e => (Exc e, w2)
  | Ret c =>
      if py_eq_int c 200 then (Ret succeeded, w2)
      else match dict_get second "msg" (JStr "登录失败") with
           | Ret msg => (Ret (failed msg), w2)
           | Exc e => (Exc e, w2)
           end
  end.

Lemma confirm_spec (t : thread) (w0 w1 w2 : world) (first second : json) :
  scan_login (qr_code t) (verify_code t) false true w0 = (Ret first, w1) ->
  scan_login (qr_code t) "" false true w1 = (Ret second, w2) ->
  confirm t w0 =
  match dict_get first "code" JNull with
  | Exc e => (Exc e, w1)
  | Ret c =>
      if py_eq_int c 200 then (Ret succeeded, w1)
      else if py_eq_int c 2240 then (Ret needs_sms, w1)
      else if PyStr.truthy (verify_code t) then retried second w2
      else match dict_get first "msg" (JStr "扫码失败") with
           | Ret msg => (Ret (failed msg), w1)
           | Exc e => (Exc e, w1)
           end
  end.
Proof.
  intros H1 H2. unfold confirm. rewrite (bind_ok _ _ _ _ _ H1).
  unfold bind at 1. unfold lift at 1.
  destruct (dict_get first "code" JNull) as [c|e]; [|reflexivity].
  destruct (py_eq_int c 200); [reflexivity|].
  destruct (py_eq_int c 2240); [reflexivity|].
  destruct (PyStr.truthy (verify_code t)).
  - rewrite (bind_ok _ _ _ _ _ H2). unfold retried, bind at 1, lift at 1.
    destruct (dict_get second "code" JNull) as [c2|e]; [|reflexivity].
    destruct (py_eq_int c2 200); [reflexivity|].
    unfold bind, lift. destruct (dict_get second "msg" _); reflexivity.
  - unfold bind, lift. destruct (dict_get first "msg" _); reflexivity.
Qed.

(** X13.  Success is reported only on the word of the server: whenever
    [run] reports success, the last thing it did was a [scan_login] for
    its payload that returned a dictionary with [code] 200, either the
    first one, with the thread's verification code, or the retry with an
    empty code, which is only made when the thread has a code. *)
Theorem success_only_after_confirm_200 (t : thread) (w w' : world)
  (res : scan_result) :
  run t w = (Ret res, w') ->
  success res = true ->
  res = succeeded /\
  exists v w1 r,
    scan_login (qr_code t) v false true w1 = (Ret r, w') /\
    is_code r 200 = true /\
    (v = verify_code t \/ v = "" /\ PyStr.truthy (verify_code t) = true).
Proof.
  intros Hrun Hs. unfold run, try_except in Hrun. unfold bind at 1 in Hrun.
  destruct (validate_outcome t w) as (o & wv & Hv & Hfail & _).
  rewrite Hv in Hrun.
  destruct o as [[r|]|e].
  - unfold ret in Hrun. injection Hrun as <- <-.
    destruct (Hfail r eq_refl). congruence.
  - destruct (scan_login_returns (qr_code t) (verify_code t) wv)
      as (first & w1 & H1).
    destruct (scan_login_returns (qr_code t) "" w1) as (second & w2 & H2).
    rewrite (confirm_spec t wv w1 w2 first second H1 H2) in Hrun.
    destruct (dict_get first "code" JNull) as [c|e] eqn:Hc.
    2:{ injection Hrun as <- <-. discriminate. }
    destruct (py_eq_int c 200) eqn:H200.
    { injection Hrun as <- <-. split; [reflexivity|].
      exists (verify_code t), wv, first. split; [exact H1|].
      unfold is_code. rewrite Hc. auto. }
    destruct (py_eq_int c 2240).
    { injection Hrun as <- <-. discriminate. }
    destruct (PyStr.truthy (verify_code t)) eqn:Htr.
    + unfold retried in Hrun.
      destruct (dict_get second "code" JNull) as [c2|e] eqn:Hc2.
      2:{ injection Hrun as <- <-. discriminate. }
      destruct (py_eq_int c2 200) eqn:H200'.
      { injection Hrun as <- <-. split; [reflexivity|].
        exists "", w1, second. split; [exact H2|].
        unfold is_code. rewrite Hc2. auto. }
      destruct (dict_get second "msg" _); injection Hrun as <- <-; discriminate.
    + destruct (dict_get first "msg" _); injection Hrun as <- <-; discriminate.
  - unfold ret in Hrun. injection Hrun as <- <-. discriminate.
Qed.

(** X14.  Without a verification code there is no second Confirm: a
    thread whose [verify_code] is empty makes at most one [scan_login]
    call, after the one [get_role_infos] call unless validation is
    skipped, and nothing else. *)
Theorem no_retry_without_code (t : thread) (w : world) :
  PyStr.truthy (verify_code t) = false ->
  exists res w' confirmations,
    run t w = (Ret res, w') /\
    calls w' = calls w
               ++ (if skip_role_check t then []
                   else [CallGetRoleInfos (qr_code t) true])
               ++ confirmations /\
    (confirmations = [CallScanLogin (qr_code t) (verify_code t) false true] \/
     confirmations = [] /\ skip_role_check t = false).
Proof.
  intros Htr. unfold run, try_except. unfold bind at 1.
  destruct (validate_outcome t w) as (o & wv & Hv & _ & Hcalls).
  rewrite Hv.
  assert (Hstop : forall res : scan_result,
            skip_role_check t = false ->
            exists res' w' confirmations,
              (Ret res, wv) = (Ret res', w') /\
              calls w' = calls w
                 ++ (if skip_role_check t then []
                     else [CallGetRoleInfos (qr_code t) true])
                 ++ confirmations /\
              (confirmations
                 = [CallScanLogin (qr_code t) (verify_code t) false true] \/
               confirmations = [] /\ skip_role_check t = false)).
  { intros res Hskip. exists res, wv, []. split; [reflexivity|].
    rewrite app_nil_r. split; [exact Hcalls | right; auto]. }
  assert (Hskip : o <> Ret None -> validate t w = (o, wv) ->
                   skip_role_check t = false).
  { intros Hne Hv'. destruct (skip_role_check t) eqn:E; [|reflexivity].
    unfold validate in Hv'. rewrite E in Hv'. cbn [negb] in Hv'.
    unfold ret in Hv'. injection Hv' as <- _. congruence. }
  destruct o as [[r|]|e].
  - apply Hstop. apply Hskip; [discriminate | exact Hv].
  - destruct (scan_login_returns (qr_code t) (verify_code t) wv)
      as (first & w1 & H1).
    destruct (scan_login_returns (qr_code t) "" w1) as (second & w2 & H2).
    rewrite (confirm_spec t wv w1 w2 first second H1 H2), Htr.
    pose proof (scan_login_calls _ _ _ _ _ H1) as Hc1.
    assert (Hdone : forall res : scan_result,
              exists res' w' confirmations,
                (Ret res, w1) = (Ret res', w') /\
                calls w' = calls w
                   ++ (if skip_role_check t then []
                       else [CallGetRoleInfos (qr_code t) true])
                   ++ confirmations /\
                (confirmations
                   = [CallScanLogin (qr_code t) (verify_code t) false true] \/
                 confirmations = [] /\ skip_role_check t = false)).
    { intros res. exists res, w1, [CallScanLogin (qr_code t) (verify_code t) false true].
      split; [reflexivity|]. split; [|left; reflexivity].
      rewrite Hc1, Hcalls, <- app_assoc. reflexivity. }
    destruct (dict_get first "code" JNull) as [c|e]; [|apply Hdone].
    destruct (py_eq_int c 200); [apply Hdone|].
    destruct (py_eq_int c 2240); [apply Hdone|].
    destruct (dict_get first "msg" _); apply Hdone.
  - apply Hstop. apply Hskip; [discriminate | exact Hv].
Qed.

End Facts.

End ScanThreadClientFacts.

Module ClientLoginExamples.
Import KuroAPI ScanThread KuroAPIFacts ScanThreadFacts NetworkBench
       KuroAPIClientFacts ScanThreadClientFacts.

(** A client that has not logged in yet. *)
Definition logged_out : world :=
  {| sent := []; calls := []; token := JStr "";
     header_token := None; connection_warmed := false |}.

(** The warm-up is refused: the token is set all the same, and the
    connection stays cold. *)
Lemma set_token_warms_at_most_once_witness :
  exists w',
    @set_token (scripted [Exc connection_refused]) (JStr "abc") logged_out
      = (Ret tt, w') /\
    sent w' = [head_request (Some (JStr "abc"))] /\
    token w' = JStr "abc" /\ header_token w' = Some (JStr "abc") /\
    (connection_warmed w' = true <->
     exists response,
       @send (scripted [Exc connection_refused]) []
             (head_request (Some (JStr "abc"))) = Ret response).
Proof.
  exact (proj1 (@set_token_warms_at_most_once
                  (scripted [Exc connection_refused]) (JStr "abc") []
                  logged_out) eq_refl).
Defined.

(** The server accepts the login and hands out the token [abc]; the
    warm-up that follows is answered too. *)
Definition accepted : Network :=
  scripted [Ret (Ret (JDict [("code", JInt 200);
                             ("data", JDict [("token", JStr "abc")])]));
            answer 200 "warm"].

Lemma login_sets_token_on_200_only_witness :
  exists r w',
    @login accepted "13800000000" "0000" logged_out = (Ret r, w') /\
    is_code r 200 = true /\
    token w' = JStr "abc" /\ header_token w' = Some (JStr "abc").
Proof.
  destruct (@login_sets_token_on_200_only accepted "13800000000" "0000"
              logged_out) as (r & w' & Hrun & Hok & _).
  pose proof Hrun as Hr. vm_compute in Hr. injection Hr as Hr _.
  exists r, w'. split; [exact Hrun|].
  assert (Hc : is_code r 200 = true) by (rewrite <- Hr; reflexivity).
  split; [exact Hc|].
  destruct (Hok Hc) as (tok & Htok & Ht & Hh & _).
  rewrite <- Hr in Htok. vm_compute in Htok. injection Htok as <-.
  split; [exact Ht | exact Hh].
Defined.

(** The server says the code has expired. *)
Definition expired : Network := scripted [answer 2209 "expired"].

Lemma no_confirm_unless_validated_witness :
  exists role reqs res,
    @get_role_infos expired payload true fresh =
      (Ret role, with_sent (with_call fresh (CallGetRoleInfos payload true)) reqs) /\
    Forall (fun req => req_url req = url_roleInfos) reqs /\
    (is_code role 200 = false ->
     @run expired (mk_thread payload "" false) fresh =
       (Ret res, with_sent (with_call fresh (CallGetRoleInfos payload true)) reqs) /\
     success res = false /\ need_sms res = false /\
     (is_code role 220 = true -> message res = JStr "Token已过期") /\
     (is_code role 220 = false -> is_code role 2209 = true ->
      message res = JStr "二维码已过期")).
Proof.
  exact (@no_confirm_unless_validated expired (mk_thread payload "" false)
           fresh eq_refl).
Defined.

(** Validation and Confirm both pass. *)
Definition both_pass : Network := scripted [answer 200 "roles"; answer 200 "ok"].

Definition after_login : world :=
  Eval vm_compute in snd (@run both_pass (mk_thread payload "" false) fresh).

Lemma success_only_after_confirm_200_witness :
  succeeded = succeeded /\
  exists v w1 r,
    @scan_login both_pass payload v false true w1 = (Ret r, after_login) /\
    is_code r 200 = true /\
    (v = "" \/ v = "" /\ PyStr.truthy "" = true).
Proof.
  apply (@success_only_after_confirm_200 both_pass
           (mk_thread payload "" false) fresh after_login succeeded);
    [vm_compute; reflexivity | reflexivity].
Defined.

(** Confirm is refused and the thread has no code: one Confirm only. *)
Definition refused : Network := scripted [answer 200 "roles"; answer 500 "no"].

Lemma no_retry_without_code_witness :
  exists res w' confirmations,
    @run refused (mk_thread payload "" false) fresh = (Ret res, w') /\
    calls w' = [] ++ [CallGetRoleInfos payload true] ++ confirmations /\
    (confirmations = [CallScanLogin payload "" false true] \/
     confirmations = [] /\ false = false).
Proof.
  exact (@no_retry_without_code refused (mk_thread payload "" false) fresh
           eq_refl).
Defined.

End ClientLoginExamples.

(** ** The orchestrator after a detection *)

Module MainWindowClientFacts.
Import KuroAPI ScanThread MainWindow MFacts KuroAPIFacts.

Section Facts.
Context `{Network}.

(** X15.  The automatic retry after an expired code needs a scan window,
    and [on_qr_detected] has just closed it.  Whatever failure the thread
    started by [on_qr_detected] reports with a text message (an expired
    code included), and whatever the [auto_retry] setting,
    [on_scan_result] then leaves the main window as [on_qr_detected] left
    it and sends nothing: no ticket is cleared, no scan is resumed, the
    scan window stays closed until [on_start_scan] opens one. *)
Theorem failure_after_detection_resumes_nothing
  (qr_code msg : string) (res : scan_result) (ui : dialogs)
  (mw : window) (w : world) :
  success res = false -> need_sms res = false -> message res = JStr msg ->
  on_scan_result res ui (on_qr_detected qr_code mw) w =
    (Ret (on_qr_detected qr_code mw), w) /\
  scan_window (on_qr_detected qr_code mw) = None.
Proof.
  intros Hs Hn Hm. split; [|reflexivity].
  unfold on_scan_result. rewrite Hs, Hn, Hm.
  unfold bind, lift, py_in, ret.
  destruct (PyStr.str_in "二维码已过期" msg);
    [|destruct (PyStr.str_in "二维码已失效" msg)];
    cbn [andb scan_window on_qr_detected start_thread close_scan_window];
    rewrite ?andb_false_r; reflexivity.
Qed.



End Facts.

End MainWindowClientFacts.

(** ** The scan window between two releases *)

Module ScanWindowClientFacts.
Import ScanWindow ScanWindowFacts.

(** The two events that clear [processing_qr]. *)
Definition releases (e : event) : bool :=
  match e with
  | ResetProcessing | StartScanning => true
  | _ => false
  end.

Lemma step_while_processing (e : event) (s : state) :
  releases e = false -> processing_qr s = true ->
  snd (step e s) = [] /\ processing_qr (fst (step e s)) = true.
Proof.
  intros He Hp. destruct e as [scanned| | | |]; try discriminate; cbn [step].
  - destruct (timer_active s); [|auto]. unfold scan_qr_code. rewrite Hp. auto.
  - auto.
  - auto.
Qed.

Lemma step_emits (e : event) (s : state) :
  snd (step e s) = [] \/
  exists p, snd (step e s) = [p] /\ processing_qr (fst (step e s)) = true.
Proof.
  destruct e as [scanned| | | |]; cbn [step]; auto.
  destruct (timer_active s); [|auto]. unfold scan_qr_code.
  destruct (processing_qr s); [auto|].
  destruct scanned as [qr|]; [|auto].
  destruct (PyStr.truthy qr); [|auto].
  destruct (24 <=? String.length qr)%nat.
  - destruct (String.eqb _ _); [auto|]. right. exists qr. auto.
  - right. exists qr. auto.
Qed.

Lemma quiet_while_processing (evs : list event) :
  forall s,
    Forall (fun e => releases e = false) evs ->
    processing_qr s = true ->
    emitted evs s = [] /\ processing_qr (fst (fst (run evs s))) = true.
Proof.
  induction evs as [|e evs IH]; intros s Hall Hp; [auto|].
  inversion Hall as [|? ? He Hall']; subst.
  destruct (step_while_processing e s He Hp) as [Hout Hp'].
  unfold emitted in *. rewrite run_cons. cbn [fst snd]. rewrite Hout.
  apply (IH _ Hall' Hp').
Qed.

(** X17.  One signal per release.  As long as neither [reset_processing]
    nor [start_scanning] runs, the window emits at most one [qr_detected],
    whatever is decoded and however often the timer fires; while
    [processing_qr] is set it emits none; and after an emission
    [processing_qr] is set. *)
Theorem one_emission_until_released (evs : list event) (s : state) :
  Forall (fun e => releases e = false) evs ->
  (length (emitted evs s) <= 1)%nat /\
  (processing_qr s = true -> emitted evs s = []) /\
  (emitted evs s <> [] -> processing_qr (fst (fst (run evs s))) = true).
Proof.
  intros Hall. split; [|split].
  - revert s. induction evs as [|e evs IH]; intros s; [cbn; lia|].
    inversion Hall as [|? ? He Hall']; subst.
    unfold emitted in *. rewrite run_cons. cbn [fst snd].
    destruct (step_emits e s) as [-> | (p & -> & Hp)].
    + apply (IH Hall').
    + destruct (quiet_while_processing evs _ Hall' Hp) as [Hq _].
      unfold emitted in Hq. rewrite Hq. cbn. lia.
  - intros Hp. apply (quiet_while_processing evs s Hall Hp).
  - revert s. induction evs as [|e evs IH]; intros s Hne;
      [exfalso; apply Hne; reflexivity|].
    inversion Hall as [|? ? He Hall']; subst.
    unfold emitted in *. rewrite run_cons in *. cbn [fst snd] in *.
    destruct (step_emits e s) as [Hout | (p & Hout & Hp)].
    + rewrite Hout in Hne. apply (IH Hall' _ Hne).
    + apply (quiet_while_processing evs _ Hall' Hp).
Qed.

Lemma substring_nonempty (s : string) :
  forall k m, (k < String.length s)%nat -> (0 < m)%nat ->
              String.substring k m s <> "".
Proof.
  induction s as [|c s IH]; intros k m Hk Hm; [cbn in Hk; lia|].
  destruct k as [|k].
  - destruct m as [|m]; [lia|]. cbn. discriminate.
  - cbn [String.substring]. apply IH; [cbn in Hk; lia | exact Hm].
Qed.

(** The ticket of a long payload is never the empty string. *)
Lemma ticket_nonempty (p : string) :
  long p -> String.eqb (PyStr.last_chars 24 p) "" = false.
Proof.
  unfold long. intros Hl. apply String.eqb_neq. unfold PyStr.last_chars.
  apply substring_nonempty; lia.
Qed.

(** X18.  A restart forgets the ticket.  Right after [start_scanning],
    and likewise after the ticket was cleared and [reset_processing] ran
    (the retry after an expired code), the first payload decoded is
    emitted whatever was emitted before, the one just processed
    included. *)
Theorem restart_accepts_any_payload (s : state) (p : string) :
  PyStr.truthy p = true ->
  emitted [StartScanning; Tick (Some p)] s = [p] /\
  emitted [ClearTicket; ResetProcessing; Tick (Some p)] s = [p].
Proof.
  intros Htr. unfold emitted. rewrite !run_cons.
  cbn [step run fst snd start_scanning clear_ticket reset_processing
       timer_active app].
  unfold scan_qr_code, start_scanning, reset_processing, clear_ticket.
  cbn [processing_qr last_ticket]. rewrite Htr.
  destruct (long_or_short p) as [Hl|Hs].
  - rewrite (long_leb _ Hl), (ticket_nonempty _ Hl). cbn. auto.
  - rewrite (short_leb _ Hs). cbn. auto.
Qed.

End ScanWindowClientFacts.

(* ===================================================================== *)
(** * Further code *)
(* ===================================================================== *)

(** ** The frame loop of [utils/live_stream_scanner.py] *)

Module LiveStreamLoop.
Import Scanner.

(** What [self.cap.read()] does on one iteration: it raises, or returns
    [(ret, frame)]. *)
Inductive read (Frame : Type) : Type :=
| ReadRaises (e : exn)
| ReadEnd                       (* ret is false *)
| ReadOk (frame : Frame).
Arguments ReadRaises {Frame} e.
Arguments ReadEnd {Frame}.
Arguments ReadOk {Frame} frame.

(** The signals of [LiveStreamScanner] that carry a result;
    [status_changed], which only feeds the status line, is left out. *)
Inductive signal : Type :=
| QrDetected (qr_code : string)
| ErrorOccurred (msg : string).

Section Definitions.
Context `{Libraries}.

(** OpenCV frames, and [Image.fromarray(cv2.cvtColor(frame, COLOR_BGR2RGB))]. *)
Variable Frame : Type.
Variable to_pil : Frame -> result Image.

(** [_scan_frame] *)
Definition _scan_frame (image : Image) : option string :=
  match try_decode_qr image with
  | Ret r => r
  | Exc _ => None
  end.

(** The [while self.is_running] loop of [run].  [reads] lists what
    [cap.read()] does on the successive iterations made while [is_running]
    holds: the list ends where [stop()] took effect. *)
Fixpoint frame_loop (reads : list (read Frame)) (frame_count : Z)
  (last_ticket : string) : list signal :=
  match reads with
  | [] => []
  | ReadRaises e :: _ => [ErrorOccurred ("扫描错误: " +:+ exc_str e)]
  | ReadEnd :: _ => [ErrorOccurred "直播流中断"]
  | ReadOk frame :: rest =>
      let frame_count := frame_count + 1 in
      if negb (frame_count mod 5 =? 0) then
        frame_loop rest frame_count last_ticket
      else
        match to_pil frame with
        | Exc _ => frame_loop rest frame_count last_ticket
        | Ret pil_image =>
            let '(last_ticket', out) :=
              LiveStream.on_frame (_scan_frame pil_image) last_ticket in
            map QrDetected out ++ frame_loop rest frame_count last_ticket'
        end
  end.

(** The loop as [run] enters it: [frame_count = 0], [last_ticket = ""]. *)
Definition scan_stream (reads : list (read Frame)) : list signal :=
  frame_loop reads 0 "".

End Definitions.

(** The payloads of the [qr_detected] signals, in order. *)
Fixpoint detections (signals : list signal) : list string :=
  match signals with
  | [] => []
  | QrDetected qr_code :: rest => qr_code :: detections rest
  | ErrorOccurred _ :: rest => detections rest
  end.

End LiveStreamLoop.

Module LiveStreamLoopFacts.
Import Scanner LiveStreamLoop ScanWindow ScanWindowFacts ScannerFacts.

Section Facts.
Context `{Libraries}.
Variable Frame : Type.
Variable to_pil : Frame -> result Image.

Lemma scan_frame_marked (image : Image) : marked (_scan_frame image).
Proof.
  unfold _scan_frame. destruct (try_decode_qr_marked image) as (r & -> & Hm).
  exact Hm.
Qed.

Lemma on_frame_cases (qr : option string) (last_ticket : string) :
  LiveStream.on_frame qr last_ticket = (last_ticket, []) \/
  exists q, qr = Some q /\ long q /\ ticket q <> last_ticket /\
            LiveStream.on_frame qr last_ticket = (ticket q, [q]).
Proof.
  unfold LiveStream.on_frame. destruct qr as [q|]; [|auto].
  destruct (PyStr.truthy q); cbn [andb]; [|auto].
  destruct (24 <=? String.length q)%nat eqn:Hl; [|auto].
  fold (ticket q).
  destruct (String.eqb_spec (ticket q) last_ticket) as [Heq|Hne];
    cbn [negb]; [auto|].
  right. exists q. apply Nat.leb_le in Hl. auto.
Qed.

Lemma detections_app (a b : list signal) :
  detections (a ++ b) = detections a ++ detections b.
Proof.
  induction a as [|[q|m] a IH]; cbn [app detections]; [reflexivity| |exact IH].
  rewrite IH. reflexivity.
Qed.

(** No two neighbours in a list of payloads carry the same ticket, and the
    first differs from [last_ticket]. *)
Fixpoint fresh_tickets (last_ticket : string) (qrs : list string) : Prop :=
  match qrs with
  | [] => True
  | q :: rest => ticket q <> last_ticket /\ fresh_tickets (ticket q) rest
  end.

Lemma frames_none (c n : Z) : 0 <= n -> 0 <= (c mod 5 + n) / 5.
Proof. intros. Z.to_euclidean_division_equations. lia. Qed.

Lemma frames_skip (c n : Z) :
  0 <= n -> ((c + 1) mod 5 + n) / 5 <= (c mod 5 + (n + 1)) / 5.
Proof. intros. Z.to_euclidean_division_equations. lia. Qed.

Lemma frames_scan (c n : Z) :
  0 <= n -> (c + 1) mod 5 = 0 ->
  1 + ((c + 1) mod 5 + n) / 5 <= (c mod 5 + (n + 1)) / 5.
Proof. intros. Z.to_euclidean_division_equations. lia. Qed.

Lemma frame_loop_spec (reads : list (read Frame)) :
  forall frame_count last_ticket,
    let qrs := detections (frame_loop Frame to_pil reads frame_count last_ticket) in
    Forall (fun q => long q /\ is_wuwa_qr q = true) qrs /\
    fresh_tickets last_ticket qrs /\
    Z.of_nat (length qrs)
      <= (frame_count mod 5 + Z.of_nat (length reads)) / 5.
Proof.
  induction reads as [|[e| |frame] rest IH]; intros frame_count last_ticket;
    cbv zeta; cbn [frame_loop detections length];
    try (repeat split; [constructor | apply frames_none; lia]).
  assert (Hkeep :
    let qrs := detections (frame_loop Frame to_pil rest (frame_count + 1)
                             last_ticket) in
    Forall (fun q => long q /\ is_wuwa_qr q = true) qrs /\
    fresh_tickets last_ticket qrs /\
    Z.of_nat (length qrs)
      <= (frame_count mod 5 + Z.of_nat (S (length rest))) / 5).
  { cbv zeta. destruct (IH (frame_count + 1) last_ticket) as (Ha & Hb & Hc).
    split; [exact Ha|]. split; [exact Hb|].
    pose proof (frames_skip frame_count (Z.of_nat (length rest))
                  ltac:(lia)).
    rewrite Nat2Z.inj_succ. lia. }
  destruct ((frame_count + 1) mod 5 =? 0) eqn:Hm; cbn [negb];
    [|exact Hkeep].
  apply Z.eqb_eq in Hm.
  destruct (to_pil frame) as [pil_image|e]; [|exact Hkeep].
  pose proof (scan_frame_marked pil_image) as Hmark.
  destruct (on_frame_cases (_scan_frame pil_image) last_ticket)
    as [-> | (q & Hq & Hl & Hne & ->)].
  - cbn [map app]. exact Hkeep.
  - cbn [map app detections length].
    destruct (IH (frame_count + 1) (ticket q)) as (Ha & Hb & Hc).
    rewrite Hq in Hmark. cbn [marked] in Hmark.
    split; [constructor; [split; assumption | exact Ha]|].
    split; [split; assumption|].
    pose proof (frames_scan frame_count (Z.of_nat (length rest))
                  ltac:(lia) Hm).
    rewrite !Nat2Z.inj_succ. lia.
Qed.

(** Two neighbours in a list with fresh tickets differ in their ticket. *)
Lemma fresh_tickets_neighbours (qrs : list string) :
  forall last_ticket pre a b post,
    fresh_tickets last_ticket qrs ->
    qrs = pre ++ a :: b :: post ->
    ticket a <> ticket b.
Proof.
  induction qrs as [|q qrs IH]; intros last_ticket pre a b post Hf Hq.
  - destruct pre; discriminate.
  - destruct Hf as [_ Hf]. destruct pre as [|p pre].
    + injection Hq as <- ->. destruct Hf as [Hne _]. congruence.
    + injection Hq as _ Hq. exact (IH _ _ _ _ _ Hf Hq).
Qed.

(** X19.  What a live stream can emit.  Whatever the stream delivers and
    the decoders return, every payload the frame loop emits passed the
    marker test and has at least 24 characters (shorter ones are dropped,
    unlike in the scan window), no two payloads emitted one after the
    other carry the same ticket, and since only every fifth frame is
    scanned there is at most one emission per five frames read. *)
Theorem live_stream_emissions (reads : list (read Frame)) :
  let qrs := detections (scan_stream Frame to_pil reads) in
  Forall (fun q => long q /\ is_wuwa_qr q = true) qrs /\
  (forall pre a b post, qrs = pre ++ a :: b :: post -> ticket a <> ticket b) /\
  Z.of_nat (length qrs) <= Z.of_nat (length reads) / 5.
Proof.
  cbv zeta. unfold scan_stream.
  destruct (frame_loop_spec reads 0 "") as (Ha & Hb & Hc).
  split; [exact Ha|]. split.
  - intros pre a b post Hq. exact (fresh_tickets_neighbours _ _ _ _ _ _ Hb Hq).
  - exact Hc.
Qed.

End Facts.

End LiveStreamLoopFacts.

(** ** The screenshot stage of [scan_region] *)

Module CaptureFacts.
Import Scanner MFacts.

Section Facts.
Context `{Libraries}.

(** X20.  The screenshot falls back to PIL and only PIL can make it fail.
    If the screenshot stage raises, it is [ImageGrab.grab] that raised,
    after every faster method present had failed; a frame from DXGI is
    used as it is; and the stage yields [None] only if BitBlt returned
    [None], which, unlike a [None] from DXGI, is not replaced by a PIL
    screenshot. *)
Theorem capture_falls_back_to_pil (x y width height : Z) :
  (forall e, capture x y width height = Exc e ->
             grab_pil x y width height = Exc e) /\
  (forall grab_region img,
      dxgi_screenshot = Some grab_region ->
      grab_region x y width height = Ret (Some img) ->
      capture x y width height = Ret (Some img)) /\
  (capture x y width height = Ret None ->
   exists grab_region,
     fast_screenshot = Some grab_region /\
     grab_region x y width height = Ret None).
Proof.
  assert (Hpil : forall r, grab_pil x y width height = Ret r -> r <> None).
  { unfold grab_pil. intros r.
    destruct (ImageGrab_grab _ _ _ _); cbn [rbind]; congruence. }
  assert (Hfast_exc : forall e, grab_fast_or_pil x y width height = Exc e ->
                                grab_pil x y width height = Exc e).
  { unfold grab_fast_or_pil. intros e.
    destruct fast_screenshot as [grab|]; [|auto].
    destruct (grab x y width height); cbn [rtry]; [discriminate | auto]. }
  assert (Hfast_none :
            grab_fast_or_pil x y width height = Ret None ->
            exists grab_region,
              fast_screenshot = Some grab_region /\
              grab_region x y width height = Ret None).
  { unfold grab_fast_or_pil.
    destruct fast_screenshot as [grab|].
    - destruct (grab x y width height) as [r|e] eqn:Hg; cbn [rtry].
      + intros [= ->]. exists grab. auto.
      + intros Hp. destruct (Hpil _ Hp eq_refl).
    - intros Hp. destruct (Hpil _ Hp eq_refl). }
  unfold capture. split; [|split].
  - intros e. destruct dxgi_screenshot as [grab|]; [|apply Hfast_exc].
    destruct (grab x y width height) as [[img|]|e0]; cbn [rbind rtry];
      [discriminate | apply Hfast_exc | apply Hfast_exc].
  - intros grab img -> ->. reflexivity.
  - destruct dxgi_screenshot as [grab|]; [|exact Hfast_none].
    destruct (grab x y width height) as [[img|]|e0]; cbn [rbind rtry];
      [discriminate | exact Hfast_none | exact Hfast_none].
Qed.

(** X21.  Without a usable image nothing is decoded.  If the screenshot
    stage raises or yields [None], or the image is zero pixels wide or
    high (the scale ratio would divide by zero), [scan_region] returns
    [None] without submitting a candidate, enhancing or decoding anything,
    and without reporting to the region predictor. *)
Theorem no_image_no_decode (x y width height : Z) (tr : list event) :
  (capture x y width height = Ret None \/
   (exists e, capture x y width height = Exc e) \/
   (exists img, capture x y width height = Ret (Some img) /\
                (img_width img = 0 \/ img_height img = 0))) ->
  scan_region x y width height tr = (Ret None, tr).
Proof.
  intros Hc. unfold scan_region, try_except. unfold bind at 1. unfold lift at 1.
  destruct Hc as [-> | [[e ->] | (img & -> & Hz)]].
  - unfold bind, lift. reflexivity.
  - reflexivity.
  - unfold bind at 1. unfold lift at 1. unfold bind at 1. unfold lift at 1.
    unfold resized, PyFloat.truediv.
    destruct Hz as [-> | ->]; cbn [Z.eqb rbind]; [reflexivity|].
    destruct (img_width img =? 0); reflexivity.
Qed.

End Facts.

End CaptureFacts.

(** ** Persistent settings: [utils/config_manager.py] *)

Module ConfigManager.
Import KuroAPI.

(** [_get_default_config]: a new dictionary on every call. *)
Definition default_items : list (string * json) :=
  [("auto_login", JBool false);
   ("auto_exit", JBool false);
   ("auto_start", JBool false);
   ("last_token", JStr "");
   ("last_uid", JStr "");
   ("window_position", JNull);
   ("scan_window_size", JList [JInt 800; JInt 800]);
   ("thread_pool_enabled", JBool false);
   ("version", JStr "1.0")].

Definition _get_default_config : json := JDict default_items.

(** [d[key] = value] on a [dict]: an existing key keeps its place. *)
Fixpoint set_item (key : string) (value : json) (d : list (string * json))
  : list (string * json) :=
  match d with
  | [] => [(key, value)]
  | (k, v) :: d' =>
      if String.eqb k key then (k, value) :: d'
      else (k, v) :: set_item key value d'
  end.

(** [config[key] = value] for a [str] key: lists want integer indices,
    strings and the scalars support no item assignment. *)
Definition setitem (config : json) (key : string) (value : json) : result json :=
  match config with
  | JDict d => Ret (JDict (set_item key value d))
  | _ => Exc TypeError
  end.

(** The file [config/settings.json]: absent, present but not loadable
    ([open] or [json.load] raises), or holding a JSON value.  What
    [json.dump] writes, [json.load] reads back. *)
Inductive file : Type :=
| Absent
| Garbled
| Stored (content : json).

(** The part of the file system the manager touches. *)
Record disk : Type := mk_disk {
  dir_exists : bool;           (* os.path.exists("config") *)
  can_mkdir : bool;            (* os.makedirs does not raise *)
  can_write : bool;            (* open(..., 'w') does not raise *)
  config_file : file
}.

Definition with_file (d : disk) (f : file) : disk :=
  {| dir_exists := dir_exists d; can_mkdir := can_mkdir d;
     can_write := can_write d; config_file := f |}.

(** [_save_config(config)]: an exception is printed and dropped.  Opening
    for writing needs the directory. *)
Definition _save_config (config : json) (d : disk) : disk :=
  if dir_exists d && can_write d then with_file d (Stored config) else d.

(** The loop [for key, value in default_config.items()] of [_load_config]. *)
Fixpoint merge_defaults (defaults : list (string * json)) (config : json)
  : result json :=
  match defaults with
  | [] => Ret config
  | (key, value) :: rest =>
      rbind (py_in key config) (fun present =>
        if negb present then
          rbind (setitem config key value) (merge_defaults rest)
        else merge_defaults rest config)
  end.

(** [_load_config]: the configuration and the disk afterwards. *)
Definition _load_config (d : disk) : json * disk :=
  let after_mkdir :=
    if negb (dir_exists d) then
      if can_mkdir d then
        Some {| dir_exists := true; can_mkdir := can_mkdir d;
                can_write := can_write d; config_file := config_file d |}
      else None
    else Some d in
  match after_mkdir with
  | None => (_get_default_config, d)
  | Some d1 =>
      match config_file d1 with
      | Stored content =>
          (match merge_defaults default_items content with
           | Ret config => config
           | Exc _ => _get_default_config
           end, d1)
      | Garbled => (_get_default_config, d1)
      | Absent =>
          (_get_default_config, _save_config _get_default_config d1)
      end
  end.

(** A [ConfigManager] and the disk under it. *)
Record manager : Type := mk_manager {
  config : json;
  fs : disk
}.

(** [ConfigManager()], the first time. *)
Definition init (d : disk) : manager :=
  let '(c, d') := _load_config d in {| config := c; fs := d' |}.

Definition get (key : string) (default : json) (m : manager) : result json :=
  dict_get (config m) key default.

Definition set (key : string) (value : json) (save : bool) (m : manager)
  : result manager :=
  rbind (setitem (config m) key value) (fun c =>
    Ret {| config := c; fs := if save then _save_config c (fs m) else fs m |}).

(** [self.config.update(updates)] *)
Fixpoint dict_update (updates : list (string * json)) (d : list (string * json))
  : list (string * json) :=
  match updates with
  | [] => d
  | (k, v) :: rest => dict_update rest (set_item k v d)
  end.

Definition update (updates : list (string * json)) (save : bool) (m : manager)
  : result manager :=
  match config m with
  | JDict d =>
      let c := JDict (dict_update updates d) in
      Ret {| config := c; fs := if save then _save_config c (fs m) else fs m |}
  | _ => Exc AttributeError
  end.

Definition reset (m : manager) : manager :=
  {| config := _get_default_config;
     fs := _save_config _get_default_config (fs m) |}.

End ConfigManager.

Module ConfigManagerFacts.
Import KuroAPI ConfigManager.

Lemma assoc_set_item_eq (key : string) (value : json) (d : list (string * json)) :
  assoc key (set_item key value d) = Some value.
Proof.
  induction d as [|[k v] d IH]; cbn [set_item assoc].
  - rewrite String.eqb_refl. reflexivity.
  - destruct (String.eqb k key) eqn:E; cbn [assoc]; rewrite E; auto.
Qed.

Lemma assoc_set_item_ne (k key : string) (value : json) (d : list (string * json)) :
  k <> key -> assoc k (set_item key value d) = assoc k d.
Proof.
  intros Hne. induction d as [|[k0 v] d IH]; cbn [set_item assoc].
  - destruct (String.eqb_spec key k); [congruence | reflexivity].
  - destruct (String.eqb_spec k0 key) as [->|]; cbn [assoc].
    + destruct (String.eqb_spec key k); [congruence | reflexivity].
    + destruct (String.eqb k0 k); [reflexivity | exact IH].
Qed.

(** Merging defaults into a dictionary: a stored entry wins, a missing one
    gets the default, nothing else appears. *)
Lemma merge_defaults_dict (defaults : list (string * json)) :
  forall d,
  exists merged,
    merge_defaults defaults (JDict d) = Ret (JDict merged) /\
    forall k, assoc k merged =
              match assoc k d with
              | Some v => Some v
              | None => assoc k defaults
              end.
Proof.
  induction defaults as [|[key value] rest IH]; intros d;
    cbn [merge_defaults py_in rbind].
  - exists d. split; [reflexivity|]. intros k. destruct (assoc k d); reflexivity.
  - destruct (assoc key d) as [v0|] eqn:Hk; cbn [negb setitem rbind].
    + destruct (IH d) as (merged & -> & Hm). exists merged.
      split; [reflexivity|]. intros k. rewrite Hm.
      destruct (assoc k d) as [v|] eqn:Hkd; [reflexivity|].
      cbn [assoc]. destruct (String.eqb_spec key k) as [->|]; [congruence|].
      reflexivity.
    + destruct (IH (set_item key value d)) as (merged & -> & Hm).
      exists merged. split; [reflexivity|]. intros k. rewrite Hm.
      cbn [assoc]. destruct (String.eqb_spec key k) as [->|Hne].
      * rewrite assoc_set_item_eq, Hk. reflexivity.
      * rewrite assoc_set_item_ne by congruence. reflexivity.
Qed.

(** X22.  Loading the settings never raises and never loses a stored
    entry.  If the directory is missing and cannot be created, the
    defaults are used and the disk is untouched.  Otherwise: a missing file
    gives the defaults and is created with them if it can be written; a
    file that cannot be read or parsed gives the defaults and is left as it
    is; a file holding a JSON object gives that object with every missing
    default key added, stored entries taking precedence, and the merged
    configuration is not written back. *)
Theorem load_config_merges_defaults (d : disk) :
  (dir_exists d = false -> can_mkdir d = false ->
   _load_config d = (_get_default_config, d)) /\
  (dir_exists d = true \/ can_mkdir d = true ->
   (config_file d = Absent ->
    fst (_load_config d) = _get_default_config /\
    config_file (snd (_load_config d)) =
      if can_write d then Stored _get_default_config else Absent) /\
   (config_file d = Garbled ->
    fst (_load_config d) = _get_default_config /\
    config_file (snd (_load_config d)) = Garbled) /\
   (forall stored,
       config_file d = Stored (JDict stored) ->
       exists merged,
         fst (_load_config d) = JDict merged /\
         (forall k, assoc k merged =
                    match assoc k stored with
                    | Some v => Some v
                    | None => assoc k default_items
                    end) /\
         config_file (snd (_load_config d)) = Stored (JDict stored))).
Proof.
  split.
  - intros Hd Hm. unfold _load_config. rewrite Hd, Hm. reflexivity.
  - intros Hdir.
    assert (Hload : exists d1,
              config_file d1 = config_file d /\ dir_exists d1 = true /\
              can_write d1 = can_write d /\
              _load_config d =
                match config_file d1 with
                | Stored content =>
                    (match merge_defaults default_items content with
                     | Ret config => config
                     | Exc _ => _get_default_config
                     end, d1)
                | Garbled => (_get_default_config, d1)
                | Absent =>
                    (_get_default_config, _save_config _get_default_config d1)
                end).
    { unfold _load_config. destruct (dir_exists d) eqn:Hd; cbn [negb].
      - exists d. auto.
      - destruct Hdir as [|Hm]; [discriminate|]. rewrite Hm.
        exists {| dir_exists := true; can_mkdir := can_mkdir d;
                  can_write := can_write d; config_file := config_file d |}.
        cbn [config_file dir_exists can_write]. rewrite Hm. auto. }
    destruct Hload as (d1 & Hf & Hd1 & Hw & ->). rewrite Hf.
    split; [|split].
    + intros Ha. rewrite Ha in *. cbn [fst snd]. split; [reflexivity|].
      unfold _save_config. rewrite Hd1, Hw. cbn [andb].
      destruct (can_write d); [reflexivity | exact Hf].
    + intros Ha. rewrite Ha in *. cbn [fst snd]. auto.
    + intros stored Ha. rewrite Ha in *. cbn [fst snd].
      destruct (merge_defaults_dict default_items stored) as (merged & -> & Hm).
      exists merged. auto.
Qed.

(** X23.  [set] then [get].  On a dictionary configuration, [set] returns
    and a later [get] of that key gives the value set, while every other
    key reads as before.  With the directory present and the file
    writable the value survives a restart: a manager built from the disk
    that [set] left reads the same value.  If the file cannot be written,
    or [save] is false, [set] still returns, the value is held in memory
    only and the disk is as it was. *)
Theorem set_then_get (key : string) (value default : json) (m : manager)
  (items : list (string * json)) :
  config m = JDict items ->
  exists m',
    set key value true m = Ret m' /\
    get key default m' = Ret value /\
    (forall k, k <> key -> get k default m' = get k default m) /\
    (dir_exists (fs m) = true -> can_write (fs m) = true ->
     get key default (init (fs m')) = Ret value) /\
    (can_write (fs m) = false -> fs m' = fs m) /\
    exists m'',
      set key value false m = Ret m'' /\ config m'' = config m' /\
      fs m'' = fs m.
Proof.
  intros Hc. unfold set. rewrite Hc. cbn [setitem rbind].
  eexists. split; [reflexivity|]. unfold get. cbn [config fs dict_get].
  rewrite assoc_set_item_eq. split; [reflexivity|]. split; [|split; [|split]].
  - intros k Hk. rewrite Hc. cbn [dict_get].
    rewrite assoc_set_item_ne by exact Hk. reflexivity.
  - intros Hd Hw. unfold _save_config. rewrite Hd, Hw. cbn [andb].
    unfold init, _load_config, with_file. cbn [dir_exists]. rewrite Hd.
    cbn [negb config_file].
    destruct (merge_defaults_dict default_items (set_item key value items))
      as (merged & -> & Hm).
    cbn [config dict_get]. rewrite Hm, assoc_set_item_eq. reflexivity.
  - intros Hw. unfold _save_config. rewrite Hw, andb_false_r. reflexivity.
  - eexists. split; [reflexivity|]. split; reflexivity.
Qed.

(** [key in config], false where [in] raises. *)
Definition present (config : json) (kv : string * json) : bool :=
  match py_in (fst kv) config with
  | Ret b => b
  | Exc _ => false
  end.

Lemma merge_defaults_non_dict (content : json) :
  (forall items, content <> JDict items) ->
  forall defaults,
    if forallb (present content) defaults
    then merge_defaults defaults content = Ret content
    else exists e, merge_defaults defaults content = Exc e.
Proof.
  intros Hnd. induction defaults as [|[key value] rest IH];
    cbn [merge_defaults forallb]; [reflexivity|].
  unfold present at 1. cbn [fst].
  destruct (py_in key content) as [[|]|e]; cbn [rbind negb andb].
  - exact IH.
  - destruct content; cbn [setitem rbind]; try (eexists; reflexivity).
    destruct (Hnd d eq_refl).
  - eexists. reflexivity.
Qed.

(** X24.  A settings file that holds JSON other than an object.  For
    [null], a boolean or a number the defaults are used.  For a list or a
    string the defaults are used too, unless it contains every default
    key (as an element, respectively as a substring): then the merge finds
    nothing to add, the list or string itself becomes the configuration,
    and every later [get] raises [AttributeError]. *)
Theorem non_object_settings_file (d : disk) (content : json) :
  dir_exists d = true ->
  config_file d = Stored content ->
  (forall items, content <> JDict items) ->
  (forallb (present content) default_items = false ->
   config (init d) = _get_default_config) /\
  (forallb (present content) default_items = true ->
   config (init d) = content /\
   forall key default, get key default (init d) = Exc AttributeError) /\
  ((forall l, content <> JList l) -> (forall s, content <> JStr s) ->
   forallb (present content) default_items = false).
Proof.
  intros Hd Hf Hnd.
  assert (Hinit : config (init d) =
                  match merge_defaults default_items content with
                  | Ret c => c
                  | Exc _ => _get_default_config
                  end).
  { unfold init, _load_config. rewrite Hd. cbn [negb]. rewrite Hf. reflexivity. }
  pose proof (merge_defaults_non_dict content Hnd default_items) as Hm.
  split; [|split].
  - intros Hp. rewrite Hinit. rewrite Hp in Hm. destruct Hm as [e ->].
    reflexivity.
  - intros Hp. rewrite Hp in Hm. rewrite Hm in Hinit.
    split; [exact Hinit|]. intros key default. unfold get. rewrite Hinit.
    destruct content; try reflexivity. destruct (Hnd d0 eq_refl).
  - intros Hl Hs. destruct content; try reflexivity.
    + destruct (Hs s eq_refl).
    + destruct (Hl l eq_refl).
    + destruct (Hnd d0 eq_refl).
Qed.

End ConfigManagerFacts.

(** ** Examples for the further properties *)

Module FurtherExamples.
Import KuroAPI ScanThread MainWindow NetworkBench ScanWindow ScanWindowFacts
       ScanWindowExamples MainWindowClientFacts ScanWindowClientFacts.

(** The thread started for [payload] reports that the code has expired;
    the user has automatic retry switched on. *)
Lemma failure_after_detection_resumes_nothing_witness :
  @on_scan_result (scripted []) (failed (JStr "二维码已过期")) user
     (on_qr_detected payload idle) fresh =
    (Ret (on_qr_detected payload idle), fresh) /\
  scan_window (on_qr_detected payload idle) = None.
Proof.
  apply (@failure_after_detection_resumes_nothing (scripted []) payload
           "二维码已过期" (failed (JStr "二维码已过期")) user idle fresh);
    reflexivity.
Defined.




(** Three codes pass the window before the three seconds are over. *)
Definition three_codes : list event :=
  [Tick (Some code_A); Tick (Some code_B); Tick None; Tick (Some code_A)].

Lemma one_emission_until_released_witness :
  (length (emitted three_codes scanning) <= 1)%nat /\
  (processing_qr scanning = true -> emitted three_codes scanning = []) /\
  (emitted three_codes scanning <> [] ->
   processing_qr (fst (fst (run three_codes scanning))) = true).
Proof.
  apply (one_emission_until_released three_codes scanning).
  repeat constructor.
Defined.

Lemma restart_accepts_any_payload_witness :
  emitted [StartScanning; Tick (Some code_A)]
          (fst (fst (run [Tick (Some code_A)] scanning))) = [code_A] /\
  emitted [ClearTicket; ResetProcessing; Tick (Some code_A)]
          (fst (fst (run [Tick (Some code_A)] scanning))) = [code_A].
Proof.
  apply (restart_accepts_any_payload
           (fst (fst (run [Tick (Some code_A)] scanning))) code_A).
  reflexivity.
Defined.

End FurtherExamples.

Module CaptureExamples.
Import Scanner ScannerBench CaptureFacts.

(** A screen on which BitBlt yields nothing. *)
Definition no_frame : Libraries :=
  {| Image := string;
     img_width := fun _ => 800;
     img_height := fun _ => 800;
     resize := fun img _ _ => Ret img;
     ImageGrab_grab := fun _ _ _ _ => Ret sharp_code;
     enhance_contrast := fun img _ => Ret img;
     enhance_sharpness := fun img _ => Ret img;
     decode := fun img => Ret [Ret img];
     OPENCV_AVAILABLE := true;
     ROI_DETECTOR_AVAILABLE := true;
     scale_factor := 1%float;
     wechat_detector := None;
     dxgi_screenshot := Some (fun _ _ _ _ => Ret None);
     fast_screenshot := Some (fun _ _ _ _ => Ret None);
     sr_net_loaded := false;
     ai_enabled := false;
     cvtColor_bgr := fun img => Ret img;
     cvtColor_gray := fun img => Ret img;
     fast_rgb_to_gray_simd := fun img => Ret img;
     adaptiveThreshold := fun img => Ret img;
     sr_forward := fun img => Ret img;
     as_completed := fun images => [0; 1; 2]%nat |}.

(** DXGI and BitBlt both return [None]: the game's code is on screen, PIL
    would capture it, and nothing is decoded. *)
Lemma no_image_no_decode_witness :
  @scan_region no_frame 0 0 800 800 [] = (Ret None, []).
Proof.
  apply (@no_image_no_decode no_frame 0 0 800 800 []).
  left. reflexivity.
Defined.

End CaptureExamples.

Module ConfigManagerExamples.
Import KuroAPI ConfigManager ConfigManagerFacts.

(** A first start in a directory that can be written. *)
Definition empty_disk : disk :=
  {| dir_exists := false; can_mkdir := true; can_write := true;
     config_file := Absent |}.

Lemma set_then_get_witness :
  exists m',
    set "auto_login" (JBool true) true (init empty_disk) = Ret m' /\
    get "auto_login" JNull m' = Ret (JBool true) /\
    (forall k, k <> "auto_login" ->
               get k JNull m' = get k JNull (init empty_disk)) /\
    (dir_exists (fs (init empty_disk)) = true ->
     can_write (fs (init empty_disk)) = true ->
     get "auto_login" JNull (init (fs m')) = Ret (JBool true)) /\
    (can_write (fs (init empty_disk)) = false -> fs m' = fs (init empty_disk)) /\
    exists m'',
      set "auto_login" (JBool true) false (init empty_disk) = Ret m'' /\
      config m'' = config m' /\ fs m'' = fs (init empty_disk).
Proof.
  apply (set_then_get "auto_login" (JBool true) JNull (init empty_disk)
           default_items).
  reflexivity.
Defined.

(** A settings file that holds the list of the key names. *)
Definition key_list : json := JList (map (fun kv => JStr (fst kv)) default_items).

Definition odd_disk : disk :=
  {| dir_exists := true; can_mkdir := true; can_write := true;
     config_file := Stored key_list |}.

Lemma non_object_settings_file_witness :
  config (init odd_disk) = key_list /\
  forall key default, get key default (init odd_disk) = Exc AttributeError.
Proof.
  apply (proj1 (proj2 (non_object_settings_file odd_disk key_list
                         eq_refl eq_refl ltac:(discriminate)))).
  reflexivity.
Defined.

End ConfigManagerExamples.

(** ** Timing statistics: [utils/performance_monitor.py] *)

Module PerformanceMonitor.

Record PerformanceMetrics : Type := mk_metrics {
  scan_start : float;
  screenshot_end : float;
  qr_detect_end : float;
  api_roleinfo_end : float;
  api_scanlogin_end : float;
  scan_end : float;
  screenshot_time : float;
  qr_detect_time : float;
  api_roleinfo_time : float;
  api_scanlogin_time : float;
  total_time : float;
  detection_method : string;
  screenshot_method : string;
  qr_decoder : string;
  image_size : Z * Z;
  memory_reused : bool;
  roi_predicted : bool;
  roi_accuracy : bool
}.

(** [PerformanceMetrics()] *)
Definition new_metrics : PerformanceMetrics :=
  {| scan_start := 0; screenshot_end := 0; qr_detect_end := 0;
     api_roleinfo_end := 0; api_scanlogin_end := 0; scan_end := 0;
     screenshot_time := 0; qr_detect_time := 0; api_roleinfo_time := 0;
     api_scanlogin_time := 0; total_time := 0;
     detection_method := ""; screenshot_method := ""; qr_decoder := "";
     image_size := (0, 0); memory_reused := false; roi_predicted := false;
     roi_accuracy := false |}.

(** [self.stats], a dictionary with fixed keys. *)
Record statistics : Type := mk_statistics {
  total_scans : Z;
  successful_scans : Z;
  failed_scans : Z;
  avg_total_time : float;
  avg_screenshot_time : float;
  avg_qr_detect_time : float;
  avg_api_roleinfo_time : float;
  avg_api_scanlogin_time : float;
  fastest_scan : float;
  slowest_scan : float
}.

Record monitor : Type := mk_monitor {
  current_scan : option PerformanceMetrics;
  history : list PerformanceMetrics;
  max_history : Z;
  stats : statistics;
  method_counts : gmap string Z          (* defaultdict(int) *)
}.

(** [PerformanceMonitor()] *)
Definition init : monitor :=
  {| current_scan := None;
     history := [];
     max_history := 100;
     stats := {| total_scans := 0; successful_scans := 0; failed_scans := 0;
                 avg_total_time := 0; avg_screenshot_time := 0;
                 avg_qr_detect_time := 0; avg_api_roleinfo_time := 0;
                 avg_api_scanlogin_time := 0;
                 fastest_scan := PrimFloat.infinity; slowest_scan := 0 |};
     method_counts := ∅ |}.

Definition with_current (m : monitor) (c : option PerformanceMetrics) : monitor :=
  {| current_scan := c; history := history m; max_history := max_history m;
     stats := stats m; method_counts := method_counts m |}.

(** [bool(x)] on a float: false for both zeros. *)
Definition float_truthy (x : float) : bool := negb (PrimFloat.eqb x 0).

(** [(now - since) * 1000 if since else 0]; the [int] 0 of the [else]
    branch is written as the float it equals. *)
Definition elapsed_since (since now : float) : float :=
  if float_truthy since then ((now - since) * 1000)%float else 0%float.

(** [max(a, b)] on floats: [b] when [b > a], else [a]. *)
Definition fmax (a b : float) : float := if PrimFloat.ltb a b then b else a.

(** [start_scan]; [now] is [time.perf_counter()], here and below. *)
Definition start_scan (now : float) (m : monitor) : monitor :=
  with_current m
    (Some {| scan_start := now; screenshot_end := 0; qr_detect_end := 0;
             api_roleinfo_end := 0; api_scanlogin_end := 0; scan_end := 0;
             screenshot_time := 0; qr_detect_time := 0; api_roleinfo_time := 0;
             api_scanlogin_time := 0; total_time := 0;
             detection_method := ""; screenshot_method := ""; qr_decoder := "";
             image_size := (0, 0); memory_reused := false;
             roi_predicted := false; roi_accuracy := false |}).

Definition mark_screenshot_done (method : string) (size : Z * Z)
  (reused : bool) (now : float) (m : monitor) : monitor :=
  match current_scan m with
  | None => m
  | Some c =>
      with_current m
        (Some {| scan_start := scan_start c; screenshot_end := now;
                 qr_detect_end := qr_detect_end c;
                 api_roleinfo_end := api_roleinfo_end c;
                 api_scanlogin_end := api_scanlogin_end c;
                 scan_end := scan_end c;
                 screenshot_time := ((now - scan_start c) * 1000)%float;
                 qr_detect_time := qr_detect_time c;
                 api_roleinfo_time := api_roleinfo_time c;
                 api_scanlogin_time := api_scanlogin_time c;
                 total_time := total_time c;
                 detection_method := detection_method c;
                 screenshot_method := method;
                 qr_decoder := qr_decoder c;
                 image_size := size; memory_reused := reused;
                 roi_predicted := roi_predicted c;
                 roi_accuracy := roi_accuracy c |})
  end.

Definition mark_qr_detect_done (method decoder : string)
  (predicted accuracy : bool) (now : float) (m : monitor) : monitor :=
  match current_scan m with
  | None => m
  | Some c =>
      {| current_scan :=
           Some {| scan_start := scan_start c;
                   screenshot_end := screenshot_end c;
                   qr_detect_end := now;
                   api_roleinfo_end := api_roleinfo_end c;
                   api_scanlogin_end := api_scanlogin_end c;
                   scan_end := scan_end c;
                   screenshot_time := screenshot_time c;
                   qr_detect_time := elapsed_since (screenshot_end c) now;
                   api_roleinfo_time := api_roleinfo_time c;
                   api_scanlogin_time := api_scanlogin_time c;
                   total_time := total_time c;
                   detection_method := method;
                   screenshot_method := screenshot_method c;
                   qr_decoder := decoder;
                   image_size := image_size c;
                   memory_reused := memory_reused c;
                   roi_predicted := predicted;
                   roi_accuracy := accuracy |};
         history := history m; max_history := max_history m; stats := stats m;
         method_counts :=
           <[method := default 0 (method_counts m !! method) + 1]>
             (method_counts m) |}
  end.

Definition mark_api_roleinfo_done (now : float) (m : monitor) : monitor :=
  match current_scan m with
  | None => m
  | Some c =>
      with_current m
        (Some {| scan_start := scan_start c;
                 screenshot_end := screenshot_end c;
                 qr_detect_end := qr_detect_end c;
                 api_roleinfo_end := now;
                 api_scanlogin_end := api_scanlogin_end c;
                 scan_end := scan_end c;
                 screenshot_time := screenshot_time c;
                 qr_detect_time := qr_detect_time c;
                 api_roleinfo_time := elapsed_since (qr_detect_end c) now;
                 api_scanlogin_time := api_scanlogin_time c;
                 total_time := total_time c;
                 detection_method := detection_method c;
                 screenshot_method := screenshot_method c;
                 qr_decoder := qr_decoder c;
                 image_size := image_size c;
                 memory_reused := memory_reused c;
                 roi_predicted := roi_predicted c;
                 roi_accuracy := roi_accuracy c |})
  end.

Definition mark_api_scanlogin_done (now : float) (m : monitor) : monitor :=
  match current_scan m with
  | None => m
  | Some c =>
      with_current m
        (Some {| scan_start := scan_start c;
                 screenshot_end := screenshot_end c;
                 qr_detect_end := qr_detect_end c;
                 api_roleinfo_end := api_roleinfo_end c;
                 api_scanlogin_end := now;
                 scan_end := scan_end c;
                 screenshot_time := screenshot_time c;
                 qr_detect_time := qr_detect_time c;
                 api_roleinfo_time := api_roleinfo_time c;
                 api_scanlogin_time := elapsed_since (api_roleinfo_end c) now;
                 total_time := total_time c;
                 detection_method := detection_method c;
                 screenshot_method := screenshot_method c;
                 qr_decoder := qr_decoder c;
                 image_size := image_size c;
                 memory_reused := memory_reused c;
                 roi_predicted := roi_predicted c;
                 roi_accuracy := roi_accuracy c |})
  end.

(** [(avg * (n-1) + x) / n] with an [int] [n]. *)
Definition rolling (avg : float) (n : Z) (x : float) : result float :=
  if n =? 0 then Exc ZeroDivisionError
  else Ret ((avg * PyFloat.of_Z (n - 1) + x) / PyFloat.of_Z n)%float.

(** [self.history.append(c)], then [pop(0)] when over [max_history]. *)
Definition push_history (max_history : Z) (h : list PerformanceMetrics)
  (c : PerformanceMetrics) : list PerformanceMetrics :=
  let h' := h ++ [c] in
  if max_history <? Z.of_nat (length h') then tail h' else h'.

(** [end_scan(success)]; the monitor is only given for a call that
    returns. *)
Definition end_scan (success : bool) (now : float) (m : monitor)
  : result monitor :=
  match current_scan m with
  | None => Ret m
  | Some c0 =>
      let c :=
        {| scan_start := scan_start c0; screenshot_end := screenshot_end c0;
           qr_detect_end := qr_detect_end c0;
           api_roleinfo_end := api_roleinfo_end c0;
           api_scanlogin_end := api_scanlogin_end c0;
           scan_end := now;
           screenshot_time := screenshot_time c0;
           qr_detect_time := qr_detect_time c0;
           api_roleinfo_time := api_roleinfo_time c0;
           api_scanlogin_time := api_scanlogin_time c0;
           total_time := ((now - scan_start c0) * 1000)%float;
           detection_method := detection_method c0;
           screenshot_method := screenshot_method c0;
           qr_decoder := qr_decoder c0;
           image_size := image_size c0;
           memory_reused := memory_reused c0;
           roi_predicted := roi_predicted c0;
           roi_accuracy := roi_accuracy c0 |} in
      let h := push_history (max_history m) (history m) c in
      let s := stats m in
      if success then
        let n := successful_scans s + 1 in
        rbind (rolling (avg_total_time s) n (total_time c)) (fun a_total =>
        rbind (rolling (avg_screenshot_time s) n (screenshot_time c)) (fun a_shot =>
        rbind (rolling (avg_qr_detect_time s) n (qr_detect_time c)) (fun a_qr =>
        rbind (rolling (avg_api_roleinfo_time s) n (api_roleinfo_time c)) (fun a_role =>
        rbind (rolling (avg_api_scanlogin_time s) n (api_scanlogin_time c)) (fun a_scan =>
          Ret {| current_scan := None; history := h;
                 max_history := max_history m;
                 stats :=
                   {| total_scans := total_scans s + 1;
                      successful_scans := n;
                      failed_scans := failed_scans s;
                      avg_total_time := a_total;
                      avg_screenshot_time := a_shot;
                      avg_qr_detect_time := a_qr;
                      avg_api_roleinfo_time := a_role;
                      avg_api_scanlogin_time := a_scan;
                      fastest_scan :=
                        PyFloat.fmin (fastest_scan s) (total_time c);
                      slowest_scan := fmax (slowest_scan s) (total_time c) |};
                 method_counts := method_counts m |})))))
      else
        Ret {| current_scan := None; history := h;
               max_history := max_history m;
               stats :=
                 {| total_scans := total_scans s + 1;
                    successful_scans := successful_scans s;
                    failed_scans := failed_scans s + 1;
                    avg_total_time := avg_total_time s;
                    avg_screenshot_time := avg_screenshot_time s;
                    avg_qr_detect_time := avg_qr_detect_time s;
                    avg_api_roleinfo_time := avg_api_roleinfo_time s;
                    avg_api_scanlogin_time := avg_api_scanlogin_time s;
                    fastest_scan := fastest_scan s;
                    slowest_scan := slowest_scan s |};
               method_counts := method_counts m |}
  end.

(** The success rate shown by [get_statistics_summary], [None] where it
    answers "No statistics yet"; the layout of the report is left out. *)
Definition success_rate (m : monitor) : result (option float) :=
  if total_scans (stats m) =? 0 then Ret None
  else rbind (PyFloat.truediv (successful_scans (stats m))
                              (total_scans (stats m)))
             (fun q => Ret (Some (q * 100)%float)).

(** The calls made on the monitor, each with the clock reading it takes. *)
Inductive call : Type :=
| StartScan (now : float)
| MarkScreenshotDone (method : string) (size : Z * Z) (reused : bool)
                     (now : float)
| MarkQrDetectDone (method decoder : string) (predicted accuracy : bool)
                   (now : float)
| MarkApiRoleinfoDone (now : float)
| MarkApiScanloginDone (now : float)
| EndScan (success : bool) (now : float).

Definition apply (c : call) (m : monitor) : result monitor :=
  match c with
  | StartScan now => Ret (start_scan now m)
  | MarkScreenshotDone method size reused now =>
      Ret (mark_screenshot_done method size reused now m)
  | MarkQrDetectDone method decoder predicted accuracy now =>
      Ret (mark_qr_detect_done method decoder predicted accuracy now m)
  | MarkApiRoleinfoDone now => Ret (mark_api_roleinfo_done now m)
  | MarkApiScanloginDone now => Ret (mark_api_scanlogin_done now m)
  | EndScan success now => end_scan success now m
  end.

Fixpoint apply_all (cs : list call) (m : monitor) : result monitor :=
  match cs with
  | [] => Ret m
  | c :: cs' => rbind (apply c m) (apply_all cs')
  end.

(** The scans a sequence of calls completes: an [end_scan] counts when a
    scan is in progress, which a [start_scan] begins and an [end_scan]
    ends. *)
Fixpoint completed (in_progress : bool) (only_successful : bool)
  (cs : list call) : Z :=
  match cs with
  | [] => 0
  | StartScan _ :: cs' => completed true only_successful cs'
  | EndScan success _ :: cs' =>
      (if in_progress && (success || negb only_successful) then 1 else 0)
      + completed false only_successful cs'
  | _ :: cs' => completed in_progress only_successful cs'
  end.

End PerformanceMonitor.

Module PerformanceMonitorFacts.
Import PerformanceMonitor.

Definition in_progress (m : monitor) : bool :=
  match current_scan m with Some _ => true | None => false end.

(** Whether a scan is in progress after a call. *)
Definition after (c : call) (before : bool) : bool :=
  match c with
  | StartScan _ => true
  | EndScan _ _ => false
  | _ => before
  end.

(** The counters agree with one another and with the history. *)
Definition consistent (m : monitor) : Prop :=
  0 <= successful_scans (stats m) /\
  0 <= failed_scans (stats m) /\
  total_scans (stats m) = successful_scans (stats m) + failed_scans (stats m) /\
  0 <= max_history m /\
  Z.of_nat (length (history m)) = Z.min (total_scans (stats m)) (max_history m).

Lemma rolling_returns (avg : float) (n : Z) (x : float) :
  n <> 0 -> exists a, rolling avg n x = Ret a.
Proof.
  intros Hn. unfold rolling.
  destruct (n =? 0) eqn:E; [apply Z.eqb_eq in E; contradiction|].
  eexists. reflexivity.
Qed.

Lemma push_history_length (max : Z) (h : list PerformanceMetrics)
  (c : PerformanceMetrics) (total : Z) :
  0 <= max -> Z.of_nat (length h) = Z.min total max ->
  Z.of_nat (length (push_history max h c)) = Z.min (total + 1) max.
Proof.
  intros Hmax Hlen. unfold push_history.
  assert (Hl : length (h ++ [c]) = S (length h))
    by (rewrite length_app; cbn; lia).
  destruct (max <? Z.of_nat (length (h ++ [c]))) eqn:E.
  - apply Z.ltb_lt in E. destruct (h ++ [c]) as [|a t] eqn:Ht;
      [cbn in Hl; lia|].
    cbn [tail]. cbn [length] in Hl, E. lia.
  - apply Z.ltb_ge in E. lia.
Qed.

Lemma completed_cons (ip only : bool) (c : call) (cs : list call) :
  completed ip only (c :: cs) = completed ip only [c] + completed (after c ip) only cs.
Proof. destruct c; cbn [completed after]; lia. Qed.

Lemma apply_consistent (c : call) (m : monitor) :
  consistent m ->
  exists m',
    apply c m = Ret m' /\ consistent m' /\
    max_history m' = max_history m /\
    in_progress m' = after c (in_progress m) /\
    total_scans (stats m')
      = total_scans (stats m) + completed (in_progress m) false [c] /\
    successful_scans (stats m')
      = successful_scans (stats m) + completed (in_progress m) true [c].
Proof.
  intros (Hs & Hf & Ht & Hmax & Hlen).
  assert (Hsame : forall m' : monitor,
            stats m' = stats m -> history m' = history m ->
            max_history m' = max_history m -> consistent m').
  { intros m' E1 E2 E3. unfold consistent. rewrite E1, E2, E3. auto. }
  destruct c as [now|method size reused now|method decoder predicted accuracy now
                 |now|now|success now]; cbn [apply completed after].
  - eexists. split; [reflexivity|]. split; [apply Hsame; reflexivity|].
    repeat split; cbn; first [reflexivity | lia].
  - unfold mark_screenshot_done, in_progress.
    destruct (current_scan m) as [c0|] eqn:Hc.
    + eexists. split; [reflexivity|]. split; [apply Hsame; reflexivity|].
      cbn. repeat split; lia.
    + exists m. split; [reflexivity|]. split; [unfold consistent; auto|].
      rewrite Hc. repeat split; lia.
  - unfold mark_qr_detect_done, in_progress.
    destruct (current_scan m) as [c0|] eqn:Hc.
    + eexists. split; [reflexivity|]. split; [apply Hsame; reflexivity|].
      cbn. repeat split; lia.
    + exists m. split; [reflexivity|]. split; [unfold consistent; auto|].
      rewrite Hc. repeat split; lia.
  - unfold mark_api_roleinfo_done, in_progress.
    destruct (current_scan m) as [c0|] eqn:Hc.
    + eexists. split; [reflexivity|]. split; [apply Hsame; reflexivity|].
      cbn. repeat split; lia.
    + exists m. split; [reflexivity|]. split; [unfold consistent; auto|].
      rewrite Hc. repeat split; lia.
  - unfold mark_api_scanlogin_done, in_progress.
    destruct (current_scan m) as [c0|] eqn:Hc.
    + eexists. split; [reflexivity|]. split; [apply Hsame; reflexivity|].
      cbn. repeat split; lia.
    + exists m. split; [reflexivity|]. split; [unfold consistent; auto|].
      rewrite Hc. repeat split; lia.
  - unfold end_scan, in_progress.
    destruct (current_scan m) as [c0|] eqn:Hc.
    2:{ exists m. split; [reflexivity|].
        split; [unfold consistent; auto|]. rewrite Hc.
        cbn [andb]. repeat split; lia. }
    cbv zeta. cbn [andb orb negb total_time screenshot_time qr_detect_time
                   api_roleinfo_time api_scanlogin_time].
    match goal with |- context [push_history ?mx ?h ?c] =>
      pose proof (push_history_length mx h c _ Hmax Hlen) as Hpush
    end.
    destruct success; cbn [orb].
    + destruct (rolling_returns (avg_total_time (stats m))
                  (successful_scans (stats m) + 1)
                  ((now - scan_start c0) * 1000)%float) as [a1 ->]; [lia|].
      destruct (rolling_returns (avg_screenshot_time (stats m))
                  (successful_scans (stats m) + 1)
                  (screenshot_time c0)) as [a2 ->]; [lia|].
      destruct (rolling_returns (avg_qr_detect_time (stats m))
                  (successful_scans (stats m) + 1)
                  (qr_detect_time c0)) as [a3 ->]; [lia|].
      destruct (rolling_returns (avg_api_roleinfo_time (stats m))
                  (successful_scans (stats m) + 1)
                  (api_roleinfo_time c0)) as [a4 ->]; [lia|].
      destruct (rolling_returns (avg_api_scanlogin_time (stats m))
                  (successful_scans (stats m) + 1)
                  (api_scanlogin_time c0)) as [a5 ->]; [lia|].
      cbn [rbind]. eexists. split; [reflexivity|].
      unfold consistent.
      cbn [stats history max_history current_scan total_scans
           successful_scans failed_scans].
      repeat split; try lia; try exact Hpush.
    + eexists. split; [reflexivity|]. unfold consistent.
      cbn [stats history max_history current_scan total_scans
           successful_scans failed_scans].
      repeat split; try lia; try exact Hpush.
Qed.

Lemma apply_all_consistent (cs : list call) :
  forall m,
    consistent m ->
    exists m',
      apply_all cs m = Ret m' /\ consistent m' /\
      max_history m' = max_history m /\
      total_scans (stats m')
        = total_scans (stats m) + completed (in_progress m) false cs /\
      successful_scans (stats m')
        = successful_scans (stats m) + completed (in_progress m) true cs.
Proof.
  induction cs as [|c cs IH]; intros m Hm.
  - exists m. split; [reflexivity|]. split; [exact Hm|]. cbn [completed].
    repeat split; lia.
  - destruct (apply_consistent c m Hm)
      as (m1 & E & Hm1 & Hmax & Hip & Ht & Hs).
    cbn [apply_all]. rewrite E. cbn [rbind].
    destruct (IH m1 Hm1) as (m' & E' & Hm' & Hmax' & Ht' & Hs').
    exists m'. split; [exact E'|]. split; [exact Hm'|].
    rewrite !(completed_cons _ _ c cs), <- Hip.
    repeat split; [congruence | lia | lia].
Qed.

(** X25.  The monitor counts completed scans and nothing else.  Whatever
    calls are made on a fresh monitor, in whatever order and with whatever
    clock readings, none raises (the rolling averages never divide by
    zero); [total_scans] is the number of [end_scan] calls that found a
    scan in progress, so an [end_scan] without [start_scan], or a second
    one, changes nothing; [successful_scans] is the number of those with
    [success=True]; the two counters and [failed_scans] add up; the
    history holds the last 100 scans at most; and the success rate of the
    report is computed without dividing by zero. *)
Theorem monitor_counts_completed_scans (cs : list call) :
  exists m,
    apply_all cs init = Ret m /\
    total_scans (stats m) = completed false false cs /\
    successful_scans (stats m) = completed false true cs /\
    total_scans (stats m) = successful_scans (stats m) + failed_scans (stats m) /\
    0 <= failed_scans (stats m) /\
    Z.of_nat (length (history m)) = Z.min (total_scans (stats m)) 100 /\
    exists r, success_rate m = Ret r.
Proof.
  destruct (apply_all_consistent cs init)
    as (m & E & (Hs & Hf & Ht & Hmax & Hlen) & Hm & Htot & Hsucc).
  { unfold consistent. cbn. lia. }
  exists m. split; [exact E|]. cbn in Htot, Hsucc, Hm.
  split; [exact Htot|]. split; [exact Hsucc|]. split; [exact Ht|].
  split; [exact Hf|]. split; [rewrite Hlen, Hm; reflexivity|].
  unfold success_rate, PyFloat.truediv.
  destruct (total_scans (stats m) =? 0); cbn [rbind]; eexists; reflexivity.
Qed.

End PerformanceMonitorFacts.

(** ** One decode task at a time: [utils/thread_pool_scanner.py] *)

Module ThreadPoolScanner.

(** The signals of a [QRDecodeWorker]. *)
Inductive signal : Type :=
| ResultSignal (qr_code : string)
| ErrorSignal (msg : string)
| FinishedSignal.

(** [QRDecodeWorker.run], for a [decode_func] that returns an
    [Optional[str]] or raises; [decoded] is [decode_func(img_data)]. *)
Definition worker_run (decoded : result (option string)) : list signal :=
  match decoded with
  | Ret (Some qr_code) =>
      if PyStr.truthy qr_code then [ResultSignal qr_code; FinishedSignal]
      else [FinishedSignal]
  | Ret None => [FinishedSignal]
  | Exc e => [ErrorSignal (exc_str e); FinishedSignal]
  end.

(** Where the caller of [submit_decode_task] stands: outside the call, or
    between a successful [tryStart] and [self.is_processing = True]. *)
Inductive caller : Type := Idle | Started.

(** The lock, the flag, the workers the pool has started and that have not
    finished, and the caller. *)
Record scanner : Type := mk_scanner {
  locked : bool;               (* processing_lock.locked() *)
  is_processing : bool;
  running : nat;
  at_ : caller
}.

(** [ThreadPoolScanner()] *)
Definition init : scanner :=
  {| locked := false; is_processing := false; running := 0%nat; at_ := Idle |}.

(** What can happen.  [SubmitBegin started] is [submit_decode_task] up to
    and including [tryStart], [started] being what creating the worker,
    connecting it and [tryStart] come to; [SubmitEnd] is the rest of a
    call whose [tryStart] succeeded; [TaskFinished] is [_on_task_finished],
    run for a worker that emitted [finished], on whichever thread and
    whenever the signal is delivered. *)
Inductive event : Type :=
| SubmitBegin (started : result bool)
| SubmitEnd
| TaskFinished.

(** One event: the scanner afterwards and, when a [submit_decode_task]
    call returns on it, the value returned; [None] when the event cannot
    happen in this state. *)
Definition step (e : event) (s : scanner) : option (scanner * option bool) :=
  match e, at_ s with
  | SubmitBegin started, Idle =>
      if locked s then Some (s, Some false)         (* acquire fails *)
      else
        match started with
        | Ret true =>
            Some ({| locked := true; is_processing := is_processing s;
                     running := S (running s); at_ := Started |}, None)
        | Ret false | Exc _ =>
            (* the lock is taken and released again *)
            Some (s, Some false)
        end
  | SubmitEnd, Started =>
      Some ({| locked := locked s; is_processing := true;
               running := running s; at_ := Idle |}, Some true)
  | TaskFinished, _ =>
      match running s with
      | O => None
      | S n =>
          Some ({| locked := false; is_processing := false;
                   running := n; at_ := at_ s |}, None)
      end
  | _, _ => None
  end.

(** A sequence of events: the final scanner and the values the calls
    returned, [None] when the sequence cannot happen. *)
Fixpoint run (evs : list event) (s : scanner)
  : option (scanner * list bool) :=
  match evs with
  | [] => Some (s, [])
  | e :: evs' =>
      match step e s with
      | None => None
      | Some (s1, r) =>
          match run evs' s1 with
          | None => None
          | Some (s2, rs) =>
              Some (s2, match r with Some b => b :: rs | None => rs end)
          end
      end
  end.

End ThreadPoolScanner.

Module ThreadPoolScannerFacts.
Import ThreadPoolScanner.

(** The lock is held exactly while a worker runs, and there is never more
    than one. *)
Definition exclusive (s : scanner) : Prop :=
  (running s <= 1)%nat /\ (locked s = true <-> running s = 1%nat).

Lemma step_exclusive (e : event) (s s' : scanner) (r : option bool) :
  exclusive s -> step e s = Some (s', r) -> exclusive s'.
Proof.
  intros [Hr Hl]. unfold step, exclusive.
  destruct e as [started| |]; destruct (at_ s); try discriminate.
  - destruct (locked s) eqn:E; [intros [= <- <-]; rewrite E; auto|].
    assert (H0 : running s = 0%nat).
    { destruct (running s) as [|[|n]]; [reflexivity | | lia].
      destruct Hl as [_ Hl]. specialize (Hl eq_refl). congruence. }
    destruct started as [[|]|ex]; intros [= <- <-];
      try (rewrite E; auto).
    cbn [running locked]. rewrite H0. split; [lia | split; reflexivity].
  - intros [= <- <-]. cbn [running locked]. auto.
  - destruct (running s) as [|n] eqn:En; [discriminate|].
    intros [= <- <-]. cbn [running locked].
    split; [lia|]. split; [discriminate | lia].
  - destruct (running s) as [|n] eqn:En; [discriminate|].
    intros [= <- <-]. cbn [running locked].
    split; [lia|]. split; [discriminate | lia].
Qed.

Lemma run_exclusive (evs : list event) :
  forall s s' rs,
    exclusive s -> run evs s = Some (s', rs) -> exclusive s'.
Proof.
  induction evs as [|e evs IH]; intros s s' rs Hx; cbn [run].
  - intros [= <- <-]. exact Hx.
  - destruct (step e s) as [[s1 r]|] eqn:Hs; [|discriminate].
    pose proof (step_exclusive e s s1 r Hx Hs) as Hx1.
    destruct (run evs s1) as [[s2 rs2]|] eqn:Hrun; [|discriminate].
    intros [= <- _]. exact (IH _ _ _ Hx1 Hrun).
Qed.

(** X26.  One decode task at a time.  Whatever is submitted and whenever
    the workers finish, the pool never runs more than one worker of this
    scanner, and the lock is held exactly while one runs; a submission
    made while a worker runs returns [False] and changes nothing; and a
    worker, whatever its decode function does, emits [finished] exactly
    once, as its last signal, so that the lock is given back. *)
Theorem one_decode_task_at_a_time (evs : list event) (s : scanner)
  (rs : list bool) :
  run evs init = Some (s, rs) ->
  (running s <= 1)%nat /\
  (locked s = true <-> running s = 1%nat) /\
  (forall started,
      running s = 1%nat -> at_ s = Idle ->
      step (SubmitBegin started) s = Some (s, Some false)) /\
  (forall decoded,
      exists before,
        worker_run decoded = before ++ [FinishedSignal] /\
        ~ In FinishedSignal before).
Proof.
  intros Hrun.
  destruct (run_exclusive evs init s rs) as [Hr Hl];
    [split; cbn; [lia | split; [discriminate | lia]] | exact Hrun |].
  split; [exact Hr|]. split; [exact Hl|]. split.
  - intros started H1 Hi. unfold step. rewrite Hi.
    destruct Hl as [_ Hl]. rewrite (Hl H1). reflexivity.
  - intros [[qr|]|e]; cbn [worker_run].
    + destruct (PyStr.truthy qr).
      * exists [ResultSignal qr]. split; [reflexivity|].
        intros [Hin|[]]. discriminate.
      * exists []. split; [reflexivity | intros []].
    + exists []. split; [reflexivity | intros []].
    + exists [ErrorSignal (exc_str e)]. split; [reflexivity|].
      intros [Hin|[]]. discriminate.
Qed.

End ThreadPoolScannerFacts.

Module ThreadPoolScannerExamples.
Import ThreadPoolScanner ThreadPoolScannerFacts.

(** A task is submitted and started; a second submission is turned away
    while it runs; once it has finished the third is accepted. *)
Definition three_submissions : list event :=
  [SubmitBegin (Ret true); SubmitEnd;
   SubmitBegin (Ret true);
   TaskFinished;
   SubmitBegin (Ret true); SubmitEnd].

Definition busy : scanner :=
  {| locked := true; is_processing := true; running := 1; at_ := Idle |}.

Example three_submissions_run :
  run three_submissions init = Some (busy, [true; false; true]).
Proof. reflexivity. Qed.

Lemma one_decode_task_at_a_time_witness :
  (running busy <= 1)%nat /\
  (locked busy = true <-> running busy = 1%nat) /\
  (forall started,
      running busy = 1%nat -> at_ busy = Idle ->
      step (SubmitBegin started) busy = Some (busy, Some false)) /\
  (forall decoded,
      exists before,
        worker_run decoded = before ++ [FinishedSignal] /\
        ~ In FinishedSignal before).
Proof.
  apply (one_decode_task_at_a_time three_submissions busy [true; false; true]).
  reflexivity.
Defined.

End ThreadPoolScannerExamples.
